(** * Financial-Rag-Agent: the retrieval-augmented query pipeline

    A shallow embedding of the three core components of the repository:

    - the token-aware recursive chunker   (parse_and_chunk.py),
    - the vector retrieval store          (embed_and_store.py),
    - the query orchestrator              (query_agent.py),

    followed by the properties of the specification that concern them.

    Conventions.  A Python [str] is a [string]; its characters are read as
    code points below 256.  Python integers are [Z].  The tokenizer
    (tiktoken), the embedding model (sentence-transformers), the vector
    index (faiss) and the language model (Gemini) are external libraries:
    they enter the development as parameters.  [print] calls are logging
    only and are left out. *)

From Stdlib Require Import ZArith Lia Ascii String List Sorted DecimalString.
From Stdlib Require DecimalZ.
From stdpp Require Import base tactics option list strings sorting.

Local Open Scope string_scope.
Local Open Scope Z_scope.

(** ** Python built-ins on strings and lists *)

Module Py.

(** [len(l)] as a Python integer. *)
Definition len {A} (l : list A) : Z := Z.of_nat (length l).

(** [str.isspace] for one code point below 256: TAB..CR, FS..US, space,
    NEL and NBSP. *)
Definition is_space (c : ascii) : bool :=
  let n := nat_of_ascii c in
  ((9 <=? n) && (n <=? 13) || (28 <=? n) && (n <=? 32)
   || (n =? 133) || (n =? 160))%nat.

Fixpoint lstrip (s : string) : string :=
  match s with
  | EmptyString => EmptyString
  | String c s' => if is_space c then lstrip s' else s
  end.

Fixpoint rstrip (s : string) : string :=
  match s with
  | EmptyString => EmptyString
  | String c s' =>
      match rstrip s' with
      | EmptyString => if is_space c then EmptyString else String c EmptyString
      | r => String c r
      end
  end.

(** [s.strip()] *)
Definition strip (s : string) : string := lstrip (rstrip s).

(** [sep.join(parts)] *)
Definition join (sep : string) (parts : list string) : string :=
  String.concat sep parts.

(** [s.split(sep)] for a non-empty [sep] (every call site passes a
    non-empty literal; Python raises ValueError on an empty one).  The scan
    goes left to right; [skip] counts the characters of a matched separator
    still to be passed over.  The head of the result is the piece under
    construction. *)
Fixpoint split_go (sep s : string) (skip : nat) : list string :=
  match s with
  | EmptyString => [EmptyString]
  | String c s' =>
      match skip with
      | S n => split_go sep s' n
      | O =>
          if String.prefix sep s
          then EmptyString :: split_go sep s' (String.length sep - 1)
          else match split_go sep s' 0 with
               | p :: ps => String c p :: ps
               | [] => [String c EmptyString]
               end
      end
  end.

Definition split (sep s : string) : list string := split_go sep s 0.

(** [l[a:b]]: negative bounds count from the end, then both are clamped. *)
Definition norm_index {A} (l : list A) (i : Z) : Z :=
  if i <? 0 then Z.max 0 (len l + i) else Z.min i (len l).

Definition slice {A} (l : list A) (a b : Z) : list A :=
  let a' := Z.to_nat (norm_index l a) in
  let b' := Z.to_nat (norm_index l b) in
  take (b' - a') (drop a' l).

(** [l[a:]] *)
Definition slice_from {A} (l : list A) (a : Z) : list A :=
  drop (Z.to_nat (norm_index l a)) l.

(** The line feed and the double quote, as one-character strings. *)
Definition nl : string := String "010"%char EmptyString.
Definition dq : string := String "034"%char EmptyString.

(** [s.split(sep, 1)] for a non-empty [sep]: cut at the first occurrence. *)
Fixpoint split1 (sep s : string) : list string :=
  match s with
  | EmptyString => [EmptyString]
  | String c s' =>
      if String.prefix sep s
      then [EmptyString; String.substring (String.length sep)
                           (String.length s - String.length sep) s]
      else match split1 sep s' with
           | p :: ps => String c p :: ps
           | [] => [String c EmptyString]
           end
  end.

(** [kw in s] *)
Fixpoint contains (kw s : string) : bool :=
  match s with
  | EmptyString => String.prefix kw s
  | String _ s' => String.prefix kw s || contains kw s'
  end.

(** [s.lower()] on code points below 256: A..Z and the accented capitals
    of Latin-1 move up by 32. *)
Definition lower_char (c : ascii) : ascii :=
  let n := nat_of_ascii c in
  if ((65 <=? n) && (n <=? 90) || (192 <=? n) && (n <=? 222) && negb (n =? 215))%nat
  then ascii_of_nat (n + 32) else c.

Fixpoint lower (s : string) : string :=
  match s with
  | EmptyString => EmptyString
  | String c s' => String (lower_char c) (lower s')
  end.

(** [str(n)] for an integer *)
Definition str_of_int (z : Z) : string :=
  DecimalString.NilZero.string_of_int (Z.to_int z).

(** [s.startswith(p)], as a proposition *)
Definition is_prefix (p s : string) : Prop := exists t, s = (p ++ t)%string.

(** [s[:n]] for [0 <= n] *)
Definition str_prefix (n : nat) (s : string) : string := String.substring 0 n s.

(** [re.sub(r'\s+', ' ', s)]: every maximal run of white space becomes one
    space.  [in_run] tells that the character before was white space. *)
Fixpoint sub_whitespace (in_run : bool) (s : string) : string :=
  match s with
  | EmptyString => EmptyString
  | String c s' =>
      if is_space c then
        if in_run then sub_whitespace true s'
        else String " "%char (sub_whitespace true s')
      else String c (sub_whitespace false s')
  end.

(** [s.split()]: the words of [s], white space dropped. *)
Fixpoint split_whitespace (s : string) : list string :=
  match s with
  | EmptyString => []
  | String c s' =>
      if is_space c then split_whitespace s'
      else
        match s' with
        | EmptyString => [String c EmptyString]
        | String d _ =>
            if is_space d then String c EmptyString :: split_whitespace s'
            else match split_whitespace s' with
                 | w :: ws => String c w :: ws
                 | [] => [String c EmptyString]
                 end
        end
  end.

(** [s.replace(old, new)] for a non-empty [old]; [skip] as in [split_go]. *)
Fixpoint replace_go (old new s : string) (skip : nat) : string :=
  match s with
  | EmptyString => EmptyString
  | String c s' =>
      match skip with
      | S n => replace_go old new s' n
      | O =>
          if String.prefix old s
          then (new ++ replace_go old new s' (String.length old - 1))%string
          else String c (replace_go old new s' 0)
      end
  end.

Definition replace (old new s : string) : string := replace_go old new s 0.

(** [s.endswith(suffix)] *)
Fixpoint endswith (suffix s : string) : bool :=
  String.eqb s suffix
  || match s with
     | EmptyString => false
     | String _ s' => endswith suffix s'
     end.

(** [f"{i:04d}"] for [0 <= i]: the decimal digits, filled with zeros on the
    left up to four characters. *)
Definition format_04d (i : nat) : string :=
  let digits := str_of_int (Z.of_nat i) in
  (String.concat EmptyString (repeat "0" (4 - String.length digits)) ++ digits)%string.

End Py.

(** ** The tokenizer capability (tiktoken) *)

Record Tokenizer := {
  encode : string -> list Z;
  decode : list Z -> string
}.

(** A small concrete tokenizer in the style of byte-pair encoders, used to
    run the chunker: a word takes the single space before it into its
    token, a run of line breaks is one token, and any other character is a
    token of its own.  A token is the base-256 number of its piece under a
    leading 1, so decoding is exact. *)
Module PieceTokenizer.

Definition is_letter (c : ascii) : bool :=
  let n := nat_of_ascii c in
  ((65 <=? n) && (n <=? 90) || (97 <=? n) && (n <=? 122))%nat.

Definition is_newline (c : ascii) : bool :=
  let n := nat_of_ascii c in ((n =? 10) || (n =? 13))%nat.

(** Does [c] join the piece [p] that follows it? *)
Definition glue (c : ascii) (p : string) : bool :=
  match p with
  | String d _ =>
      is_letter d && (is_letter c || (nat_of_ascii c =? 32)%nat)
      || is_newline c && is_newline d
  | EmptyString => false
  end.

Fixpoint pieces (s : string) : list string :=
  match s with
  | EmptyString => []
  | String c s' =>
      match pieces s' with
      | p :: ps =>
          if glue c p then String c p :: ps
          else String c EmptyString :: p :: ps
      | [] => [String c EmptyString]
      end
  end.

Fixpoint piece_id (p : string) (acc : Z) : Z :=
  match p with
  | EmptyString => acc
  | String c p' => piece_id p' (acc * 256 + Z.of_nat (nat_of_ascii c))
  end.

Fixpoint id_piece (fuel : nat) (z : Z) (acc : string) : string :=
  match fuel with
  | O => acc
  | S fuel' =>
      if z <=? 1 then acc
      else id_piece fuel' (z / 256)
             (String (ascii_of_nat (Z.to_nat (z mod 256))) acc)
  end.

Definition tokenizer : Tokenizer := {|
  encode s := map (fun p => piece_id p 1) (pieces s);
  decode l :=
    String.concat EmptyString
      (map (fun z => id_piece (Z.to_nat (Z.log2 z)) z EmptyString) l)
|}.

End PieceTokenizer.

(** ** parse_and_chunk.py *)

Module Chunker.
Import Py.

Definition CHUNK_SIZE_TOKENS : Z := 500.
Definition CHUNK_OVERLAP_TOKENS : Z := 50.

(** [separators = ["\n\n", "\n", " "]] *)
Definition separators : list string := [(nl ++ nl)%string; nl; " "].

(** [clean_text]: white space runs collapsed to one space, then trimmed. *)
Definition clean_text (text : string) : string :=
  let text := sub_whitespace false text in
  strip text.

(** The state of the reassembly loop of [_recursive_split]. *)
Record LoopState := {
  temp_chunks : list string;
  current_chunk_parts : list string;
  current_chunk_token_count : Z
}.

Definition init_state : LoopState :=
  {| temp_chunks := []; current_chunk_parts := [];
     current_chunk_token_count := 0 |}.

Definition is_nil {A} (l : list A) : bool :=
  match l with [] => true | _ => false end.

Definition str_truthy (s : string) : bool :=
  match s with EmptyString => false | _ => true end.

(** Left fold in the option monad: a [for] loop whose body may diverge. *)
Fixpoint foldlM {A B} (f : A -> B -> option A) (l : list B) (a : A) : option A :=
  match l with
  | [] => Some a
  | x :: l' => match f a x with Some a' => foldlM f l' a' | None => None end
  end.

Section WithTokenizer.

Variable tk : Tokenizer.
Variables chunk_size_tokens chunk_overlap_tokens : Z.

Definition get_tokens (text : string) : list Z := encode tk text.

(** The [while start_token_idx < len(tokens)] loop of the hard split.  The
    loop does not terminate when the step [chunk_size_tokens -
    chunk_overlap_tokens] is not positive: [None] stands for that. *)
Fixpoint hard_split_loop (fuel : nat) (tokens : list Z) (start_token_idx : Z)
  : option (list string) :=
  if start_token_idx <? len tokens then
    match fuel with
    | O => None
    | S fuel' =>
        let end_token_idx :=
          Z.min (start_token_idx + chunk_size_tokens) (len tokens) in
        let piece := decode tk (slice tokens start_token_idx end_token_idx) in
        match hard_split_loop fuel' tokens
                (start_token_idx + (chunk_size_tokens - chunk_overlap_tokens))
        with
        | Some chunked_parts => Some (piece :: chunked_parts)
        | None => None
        end
    end
  else Some [].

Definition hard_split (tokens : list Z) : option (list string) :=
  hard_split_loop (length tokens) tokens 0.

(** The overlap text drawn from the tail of a sealed chunk. *)
Definition overlap_text_of (last_chunk_text : string) : string :=
  let last_chunk_tokens := get_tokens last_chunk_text in
  let overlap_start_index :=
    Z.max 0 (len last_chunk_tokens - chunk_overlap_tokens) in
  let overlap_tokens := slice_from last_chunk_tokens overlap_start_index in
  decode tk overlap_tokens.

(** [temp_chunks.append(current_separator.join(current_chunk_parts).strip())]
    under [if current_chunk_parts:] *)
Definition seal (current_separator : string) (temp : list string)
  (parts : list string) : list string :=
  if is_nil parts then temp
  else temp ++ [strip (join current_separator parts)].

(** The body of [for sub_part in sub_parts_from_recursion]. *)
Definition add_sub_part (current_separator : string) (st : LoopState)
  (sub_part : string) : LoopState :=
  let sub_part_tokens := get_tokens sub_part in
  let separator_tokens_len :=
    if str_truthy current_separator && negb (is_nil (current_chunk_parts st))
    then len (get_tokens current_separator) else 0 in
  let st1 :=
    if current_chunk_token_count st + len sub_part_tokens
       + separator_tokens_len >? chunk_size_tokens
    then
      let temp1 :=
        seal current_separator (temp_chunks st) (current_chunk_parts st) in
      if (chunk_overlap_tokens >? 0) && (len temp1 >? 0) then
        let last_chunk_text := List.last temp1 EmptyString in
        let overlap_text := overlap_text_of last_chunk_text in
        {| temp_chunks := temp1;
           current_chunk_parts := [overlap_text];
           current_chunk_token_count := 0 + len (get_tokens overlap_text) |}
      else
        {| temp_chunks := temp1; current_chunk_parts := [];
           current_chunk_token_count := 0 |}
    else st in
  {| temp_chunks := temp_chunks st1;
     current_chunk_parts := current_chunk_parts st1 ++ [sub_part];
     current_chunk_token_count :=
       current_chunk_token_count st1 + len sub_part_tokens |}.

(** [_recursive_split(current_text, separator_index)], by recursion on the
    separators still to try, [separators[separator_index:]]. *)
Fixpoint recursive_split_from (seps : list string) (current_text : string)
  : option (list string) :=
  let tokens := get_tokens current_text in
  let base_case :=
    if len tokens >? chunk_size_tokens then hard_split tokens
    else Some [current_text] in
  match seps with
  | [] => base_case
  | current_separator :: seps' =>
      if len tokens <=? chunk_size_tokens then base_case
      else
        let parts := split current_separator current_text in
        match
          foldlM (fun st part =>
                    match recursive_split_from seps' part with
                    | Some sub_parts_from_recursion =>
                        Some (fold_left (add_sub_part current_separator)
                                sub_parts_from_recursion st)
                    | None => None
                    end)
                 parts init_state
        with
        | Some st =>
            Some (seal current_separator (temp_chunks st)
                    (current_chunk_parts st))
        | None => None
        end
  end.

Definition _recursive_split (current_text : string) (separator_index : nat)
  : option (list string) :=
  recursive_split_from (drop separator_index separators) current_text.

Definition split_text_into_chunks (text : string) : option (list string) :=
  _recursive_split text 0.

End WithTokenizer.

End Chunker.


(** ** Exceptions *)

(** A Python computation either returns or raises; [Raise] carries the
    text of the exception, [str(e)]. *)
Inductive exc (A : Type) : Type :=
| Ok (a : A)
| Raise (e : string).
Arguments Ok {A} a.
Arguments Raise {A} e.

Definition exc_bind {A B} (m : exc A) (f : A -> exc B) : exc B :=
  match m with Ok a => f a | Raise e => Raise e end.

(** [try: body except Exception as e: handler(e)] *)
Definition try_except {A} (body : exc A) (handler : string -> exc A) : exc A :=
  match body with Ok a => Ok a | Raise e => handler e end.

Declare Scope exc_scope.
Delimit Scope exc_scope with exc.
Notation "x <- m ;; k" := (exc_bind m (fun x => k))
  (at level 100, m at next level, right associativity) : exc_scope.

(** [l[i]] on a list, for [0 <= i]: IndexError when out of range. *)
Definition getitem {A} (l : list A) (i : nat) : exc A :=
  match l !! i with
  | Some a => Ok a
  | None => Raise "list index out of range"
  end.

(** ** embed_and_store.py *)

(** One entry of processed_chunks_metadata.json, as process_filings writes
    it.  [chunk_id] is optional: [None] stands for a missing or null id. *)
Record Chunk := {
  text : string;
  company : string;
  year : string;
  source_doc : string;
  chunk_id : option string;
  page : Z
}.

Module Store.
Import Py.

Section WithCapabilities.

(** The external capabilities: the sentence-transformers model, the faiss
    index with its distances, and the files on disk. *)
Variables Model Index Embedding Embeddings Distance FileData : Type.

(** [model.encode([query], convert_to_numpy=True).astype('float32')] *)
Variable encode_query : Model -> string -> exc Embedding.
(** [model.encode(texts, ...)] *)
Variable encode_texts : Model -> list string -> exc Embeddings.
(** [index.search(query_embedding, k)]: the two arrays, row by row. *)
Variable index_search :
  Index -> Embedding -> Z -> exc (list (list Distance) * list (list Z)).
(** [IndexFlatL2(embeddings.shape[1])] followed by [index.add(...)] *)
Variable build_flat_index : Embeddings -> exc Index.
(** [faiss.read_index] and [faiss.write_index] on the bytes of the file *)
Variable read_index : FileData -> exc Index.
Variable write_index : Index -> exc FileData.
(** [json.load] on the opened metadata file *)
Variable json_load : FileData -> exc (list Chunk).

(** The two persisted artifacts; [None] is a file that does not exist. *)
Record Disk := {
  FAISS_INDEX_PATH : option FileData;
  CHUNK_METADATA_PATH : option FileData
}.

Record RAGPipeline := {
  model : option Model;
  index : option Index;
  chunks_metadata : list Chunk
}.

(** A retrieved chunk: the metadata entry with its distance. *)
Record Retrieved := {
  r_text : string;
  r_company : string;
  r_year : string;
  r_source_doc : string;
  r_chunk_id : option string;
  r_page : Z;
  r_distance : Distance
}.

Definition make_retrieved (chunk : Chunk) (d : Distance) : Retrieved :=
  {| r_text := text chunk; r_company := company chunk; r_year := year chunk;
     r_source_doc := source_doc chunk; r_chunk_id := chunk_id chunk;
     r_page := page chunk; r_distance := d |}.

Definition set_index (self : RAGPipeline) (i : Index) : RAGPipeline :=
  {| model := model self; index := Some i;
     chunks_metadata := chunks_metadata self |}.

Definition set_chunks_metadata (self : RAGPipeline) (m : list Chunk)
  : RAGPipeline :=
  {| model := model self; index := index self; chunks_metadata := m |}.

Definition exists_file (f : option FileData) : bool :=
  match f with Some _ => true | None => false end.

(** [_load_chunks_metadata]: the flag returned and the pipeline after it. *)
Definition _load_chunks_metadata (self : RAGPipeline) (disk : Disk)
  : bool * RAGPipeline :=
  match CHUNK_METADATA_PATH disk with
  | None => (false, self)
  | Some f =>
      match json_load f with
      | Ok m => (true, set_chunks_metadata self m)
      | Raise _ => (false, self)
      end
  end.

(** [_create_and_save_embeddings_and_index]: the flag, the pipeline and the
    disk after it.  A [write_index] that raises is taken to leave the disk
    as it was. *)
Definition _create_and_save_embeddings_and_index (self : RAGPipeline)
  (disk : Disk) : bool * RAGPipeline * Disk :=
  match model self with
  | None => (false, self, disk)
  | Some m =>
      let '(loaded, self1) := _load_chunks_metadata self disk in
      if negb loaded then (false, self1, disk)
      else if Chunker.is_nil (chunks_metadata self1) then (false, self1, disk)
      else
        let texts := map text (chunks_metadata self1) in
        match encode_texts m texts with
        | Raise _ => (false, self1, disk)
        | Ok embeddings =>
            match build_flat_index embeddings with
            | Raise _ => (false, self1, disk)
            | Ok i =>
                let self2 := set_index self1 i in
                match write_index i with
                | Raise _ => (false, self2, disk)
                | Ok data =>
                    (true, self2,
                     {| FAISS_INDEX_PATH := Some data;
                        CHUNK_METADATA_PATH := CHUNK_METADATA_PATH disk |})
                end
            end
        end
  end.

Definition load_or_create_index (self : RAGPipeline) (disk : Disk)
  : bool * RAGPipeline * Disk :=
  if exists_file (FAISS_INDEX_PATH disk)
     && exists_file (CHUNK_METADATA_PATH disk)
  then
    match
      match FAISS_INDEX_PATH disk with
      | Some f => read_index f
      | None => Raise "could not open index file"
      end
    with
    | Ok i =>
        let self1 := set_index self i in
        (* the flag of _load_chunks_metadata is dropped here *)
        let '(_, self2) := _load_chunks_metadata self1 disk in
        (true, self2, disk)
    | Raise _ => _create_and_save_embeddings_and_index self disk
    end
  else _create_and_save_embeddings_and_index self disk.

(** The body of [for i, idx in enumerate(indices[0])], from position [i]
    on; [distances[0][i]] is read only for a position that passes the
    bounds test. *)
Fixpoint retrieve_loop (metadata : list Chunk) (distances : list (list Distance))
  (i : nat) (row : list Z) : exc (list Retrieved) :=
  match row with
  | [] => Ok []
  | idx :: row' =>
      if (0 <=? idx) && (idx <? len metadata) then
        (chunk <- getitem metadata (Z.to_nat idx) ;;
         row0 <- getitem distances 0 ;;
         d <- getitem row0 i ;;
         rest <- retrieve_loop metadata distances (S i) row' ;;
         Ok (make_retrieved chunk d :: rest))%exc
      else retrieve_loop metadata distances (S i) row'
  end.

Definition retrieve_chunks (self : RAGPipeline) (query : string) (k : Z)
  : exc (list Retrieved) :=
  match model self, index self with
  | Some m, Some ix =>
      if Chunker.is_nil (chunks_metadata self) then Ok []
      else
        try_except
          (query_embedding <- encode_query m query ;;
           found <- index_search ix query_embedding k ;;
           let '(distances, indices) := found in
           row <- getitem indices 0 ;;
           retrieve_loop (chunks_metadata self) distances 0 row)%exc
          (fun _ => Ok [])
  | _, _ => Ok []
  end.

End WithCapabilities.

Arguments model {Model Index} _.
Arguments index {Model Index} _.
Arguments chunks_metadata {Model Index} _.
Arguments Build_RAGPipeline {Model Index} _ _ _.
Arguments FAISS_INDEX_PATH {FileData} _.
Arguments CHUNK_METADATA_PATH {FileData} _.
Arguments Build_Disk {FileData} _ _.
Arguments r_text {Distance} _.
Arguments r_company {Distance} _.
Arguments r_year {Distance} _.
Arguments r_source_doc {Distance} _.
Arguments r_chunk_id {Distance} _.
Arguments r_page {Distance} _.
Arguments r_distance {Distance} _.
Arguments Build_Retrieved {Distance} _ _ _ _ _ _ _.
Arguments make_retrieved {Distance} _ _.
Arguments set_index {Model Index} _ _.
Arguments set_chunks_metadata {Model Index} _ _.
Arguments exists_file {FileData} _.
Arguments retrieve_loop {Distance} _ _ _ _.
Arguments retrieve_chunks {Model Index Embedding Distance} _ _ _ _ _.
Arguments _load_chunks_metadata {Model Index FileData} _ _ _.
Arguments _create_and_save_embeddings_and_index
  {Model Index Embeddings FileData} _ _ _ _ _ _.
Arguments load_or_create_index {Model Index Embeddings FileData} _ _ _ _ _ _ _.

End Store.

(** ** query_agent.py *)

Module Agent.
Import Py.

(** The two temperatures the agent passes to the model: 0.0 and 0.1. *)
Inductive Temperature := temperature_0_0 | temperature_0_1.

(** Every call of the generation capability, in order. *)
Definition CallLog := list (string * Temperature).

(** An entry of the [sources] list of the answer. *)
Record Source := {
  s_company : string;
  s_year : string;
  excerpt : string;
  s_page : Z;
  s_source_doc : string
}.

Record Output := {
  query : string;
  answer : string;
  reasoning : string;
  sub_queries : list string;
  sources : list Source
}.

Definition decomposition_prompt (query : string) : string :=
  (nl ++
   "        You are an expert financial analyst. A user is asking a complex question about financial filings." ++ nl ++
   "        Your task is to break down the following complex question into a list of concise, independent sub-queries." ++ nl ++
   "        Each sub-query should be directly answerable by retrieving information from a financial 10-K filing." ++ nl ++
   "        Focus on specific metrics, companies, and years." ++ nl ++
   nl ++
   "        Example:" ++ nl ++
   "        Question: " ++ dq ++ "Compare cloud revenue growth rates across all three companies from 2022 to 2023" ++ dq ++ nl ++
   "        Sub-queries:" ++ nl ++
   "        - Microsoft cloud revenue 2022" ++ nl ++
   "        - Microsoft cloud revenue 2023" ++ nl ++
   "        - Google cloud revenue 2022" ++ nl ++
   "        - Google cloud revenue 2023" ++ nl ++
   "        - NVIDIA data center revenue 2022" ++ nl ++
   "        - NVIDIA data center revenue 2023 (NVIDIA's equivalent to cloud revenue is typically Data Center)" ++ nl ++
   nl ++
   "        Example:" ++ nl ++
   "        Question: " ++ dq ++ "Which company had the highest operating margin in 2023?" ++ dq ++ nl ++
   "        Sub-queries:" ++ nl ++
   "        - Microsoft operating margin 2023" ++ nl ++
   "        - Google operating margin 2023" ++ nl ++
   "        - NVIDIA operating margin 2023" ++ nl ++
   nl ++
   "        Example:" ++ nl ++
   "        Question: " ++ dq ++ "How much did NVIDIA's data center revenue grow from 2022 to 2023?" ++ dq ++ nl ++
   "        Sub-queries:" ++ nl ++
   "        - NVIDIA data center revenue 2022" ++ nl ++
   "        - NVIDIA data center revenue 2023" ++ nl ++
   nl ++
   "        Your response should be ONLY a comma-separated list of sub-queries. Do not include any other text or formatting." ++ nl ++
   nl ++
   "        Question: " ++ dq ++ query ++ dq ++ nl ++
   "        Sub-queries:" ++ nl ++
   "        ")%string.

Definition synthesis_prompt (original_query : string) (sub_queries : list string)
  (context_str : string) : string :=
  (nl ++
   "        You are a financial analysis AI. Based on the following information retrieved from financial filings," ++ nl ++
   "        answer the original user query comprehensively and concisely." ++ nl ++
   "        If the query involves calculations (e.g., growth rates, comparisons), perform them." ++ nl ++
   "        Cite the company and year from which the information was sourced where appropriate." ++ nl ++
   nl ++
   "        Original Query: " ++ dq ++ original_query ++ dq ++ nl ++
   "        Sub-queries performed: " ++ join ", " sub_queries ++ nl ++
   nl ++
   "        Retrieved Context (multiple sources may be provided):" ++ nl ++
   "        " ++ context_str ++ nl ++
   nl ++
   "        Please provide a direct answer, followed by your reasoning." ++ nl ++
   "        Answer:" ++ nl ++
   "        ")%string.

(** [re.sub(r'^- ', '', q)] *)
Definition strip_bullet (q : string) : string :=
  if String.prefix "- " q then String.substring 2 (String.length q - 2) q
  else q.

Definition keywords : list string :=
  ["compare"; "highest"; "lowest"; "growth from"; "each company"; "across all"].

(** [any(keyword in query.lower() for keyword in [...])] *)
Definition is_complex (query : string) : bool :=
  existsb (fun keyword => contains keyword (lower query)) keywords.

Section WithCapabilities.

Variables Model Index Embedding Distance : Type.
Variable encode_query : Model -> string -> exc Embedding.
Variable index_search :
  Index -> Embedding -> Z -> exc (list (list Distance) * list (list Z)).

(** [self.llm.generate_content(prompt, ...).text] *)
Variable generate_content : string -> Temperature -> exc string.

(** [self.rag_pipeline] *)
Variable rag_pipeline : Store.RAGPipeline Model Index.

Abbreviation Retrieved := (Store.Retrieved Distance).

Definition _call_llm (prompt : string) (temperature : Temperature)
  (log : CallLog) : string * CallLog :=
  (match generate_content prompt temperature with
   | Ok response_text => strip response_text
   | Raise e => ("LLM error: " ++ e)%string
   end,
   (log ++ [(prompt, temperature)])%list).

Definition _decompose_query (query : string) (log : CallLog)
  : list string * CallLog :=
  let '(response, log1) :=
    _call_llm (decomposition_prompt query) temperature_0_0 log in
  let sub_queries :=
    map strip
      (List.filter (fun q => Chunker.str_truthy (strip q))
         (split "," response)) in
  let sub_queries := map (fun q => strip (strip_bullet q)) sub_queries in
  (sub_queries, log1).

Definition source_of (data : Retrieved) : Source :=
  {| s_company := Store.r_company data;
     s_year := Store.r_year data;
     excerpt := (str_prefix 200 (Store.r_text data) ++ "...")%string;
     s_page := Store.r_page data;
     s_source_doc := Store.r_source_doc data |}.

(** The text added to [context_str] for the [i]-th entry (counted from 0). *)
Definition context_entry (i : nat) (data : Retrieved) : string :=
  ("--- Source " ++ str_of_int (Z.of_nat i + 1) ++ " ("
   ++ Store.r_company data ++ " " ++ Store.r_year data ++ " - Page "
   ++ str_of_int (Store.r_page data) ++ ") ---" ++ nl
   ++ (Store.r_text data ++ nl ++ nl))%string.

(** [for i, data in enumerate(retrieved_data)], from position [i] on. *)
Fixpoint prepare_context (i : nat) (retrieved_data : list Retrieved)
  (context_str : string) (sources_for_output : list Source)
  : string * list Source :=
  match retrieved_data with
  | [] => (context_str, sources_for_output)
  | data :: rest =>
      prepare_context (S i) rest
        (context_str ++ context_entry i data)%string
        (sources_for_output ++ [source_of data])
  end.

Definition _synthesize_answer (original_query : string)
  (retrieved_data : list Retrieved) (sub_queries : list string)
  (log : CallLog) : (string * string * list Source) * CallLog :=
  if Chunker.is_nil retrieved_data then
    (("Could not find relevant information to answer the query.",
      "No relevant data retrieved.", []), log)
  else
    let '(context_str, sources_for_output) :=
      prepare_context 0 retrieved_data EmptyString [] in
    let reasoning_str :=
      if len sub_queries >? 1
      then "Performed query decomposition, retrieved data for multiple sub-queries, and synthesized the results."
      else "Retrieved relevant information and synthesized the answer." in
    let '(raw_answer_response, log1) :=
      _call_llm (synthesis_prompt original_query sub_queries context_str)
        temperature_0_1 log in
    let answer_parts := split1 "Reasoning:" raw_answer_response in
    let answer_text := strip (nth 0 answer_parts EmptyString) in
    let final_reasoning :=
      (reasoning_str ++ nl ++
       (if len answer_parts >? 1 then strip (nth 1 answer_parts EmptyString)
        else "No specific reasoning provided by LLM, relying on agent's default reasoning."))%string in
    ((answer_text, final_reasoning, sources_for_output), log1).

(** [chunk.get('chunk_id') or chunk['text'] + chunk['source_doc']] *)
Definition chunk_key (chunk : Retrieved) : string :=
  match Store.r_chunk_id chunk with
  | Some id =>
      if Chunker.str_truthy id then id
      else (Store.r_text chunk ++ Store.r_source_doc chunk)%string
  | None => (Store.r_text chunk ++ Store.r_source_doc chunk)%string
  end.

(** A Python dict with string keys, in insertion order. *)
Definition Dict := list (string * Retrieved).

Definition dict_contains (key : string) (d : Dict) : bool :=
  existsb (fun kv => String.eqb (fst kv) key) d.

(** The body of [for chunk in all_retrieved_chunks]. *)
Definition dedup_step (unique_retrieved_chunks_data : Dict) (chunk : Retrieved)
  : Dict :=
  let key := chunk_key chunk in
  if negb (dict_contains key unique_retrieved_chunks_data)
  then (unique_retrieved_chunks_data ++ [(key, chunk)])%list
  else unique_retrieved_chunks_data.

(** [list(unique_retrieved_chunks_data.values())] after the loop *)
Definition deduplicate (all_retrieved_chunks : list Retrieved)
  : list Retrieved :=
  map snd (fold_left dedup_step all_retrieved_chunks []).

(** [for sub_q in sub_queries]: retrieval with [k=5], results accumulated.
    The company and year matched in the sub-query are only printed. *)
Fixpoint retrieve_all (sub_queries : list string)
  (all_retrieved_chunks : list Retrieved) : exc (list Retrieved) :=
  match sub_queries with
  | [] => Ok all_retrieved_chunks
  | sub_q :: rest =>
      (chunks <- Store.retrieve_chunks encode_query index_search
                   rag_pipeline sub_q 5 ;;
       retrieve_all rest (all_retrieved_chunks ++ chunks))%exc
  end.

(** Lines 130-141 of [answer_query]: the sub-queries to run. *)
Definition plan_sub_queries (query : string) (log : CallLog)
  : list string * CallLog :=
  if is_complex query then
    let '(decomposed_queries, log1) := _decompose_query query log in
    if negb (Chunker.is_nil decomposed_queries)
    then (decomposed_queries, log1)
    else ([query], log1)
  else ([query], log).

Definition answer_query (query : string) (log : CallLog)
  : exc Output * CallLog :=
  let '(sub_queries, log1) := plan_sub_queries query log in
  match retrieve_all sub_queries [] with
  | Raise e => (Raise e, log1)
  | Ok all_retrieved_chunks =>
      let final_retrieved_chunks := deduplicate all_retrieved_chunks in
      let '(final_answer, reasoning, sources, log2) :=
        _synthesize_answer query final_retrieved_chunks sub_queries log1 in
      (Ok {| query := query; answer := final_answer; reasoning := reasoning;
             sub_queries := sub_queries; sources := sources |}, log2)
  end.

End WithCapabilities.

Arguments source_of {Distance} _.
Arguments context_entry {Distance} _ _.
Arguments prepare_context {Distance} _ _ _ _.
Arguments _synthesize_answer {Distance} _ _ _ _ _.
Arguments chunk_key {Distance} _.
Arguments dict_contains {Distance} _ _.
Arguments dedup_step {Distance} _ _.
Arguments deduplicate {Distance} _.
Arguments retrieve_all {Model Index Embedding Distance} _ _ _ _ _.
Arguments answer_query {Model Index Embedding Distance} _ _ _ _ _ _.

End Agent.

(** ** parse_and_chunk.py: the metadata of a filing *)

Module Filings.
Import Py.

(** [file_name.replace('.htm', '').split('_')] *)
Definition name_parts (file_name : string) : list string :=
  split "_" (replace ".htm" EmptyString file_name).

(** [parts[0] if len(parts) > 0 else "UNKNOWN"] *)
Definition company_code_of (file_name : string) : string :=
  let parts := name_parts file_name in
  if len parts >? 0 then nth 0 parts EmptyString else "UNKNOWN".

(** [parts[1] if len(parts) > 1 else "UNKNOWN"] *)
Definition year_of (file_name : string) : string :=
  let parts := name_parts file_name in
  if len parts >? 1 then nth 1 parts EmptyString else "UNKNOWN".

(** [f"{company_code}_{year}_chunk_{i:04d}"] *)
Definition chunk_id_of (company_code year : string) (i : nat) : string :=
  (company_code ++ "_" ++ year ++ "_chunk_" ++ format_04d i)%string.

(** The entry appended for the [i]-th chunk of a file. *)
Definition chunk_record (file_name company_code year : string) (i : nat)
  (chunk_text : string) : Chunk :=
  {| text := chunk_text;
     company := company_code;
     year := year;
     source_doc := file_name;
     chunk_id := Some (chunk_id_of company_code year i);
     page := Z.of_nat i + 1 |}.

(** [for i, chunk_text in enumerate(chunks)]: the entries of one file. *)
Definition file_records (file_name : string) (chunks : list string)
  : list Chunk :=
  let company_code := company_code_of file_name in
  let year := year_of file_name in
  imap (chunk_record file_name company_code year) chunks.

End Filings.

(** ** downloader.py *)

Module Downloader.
Import Py.

(** The keys of [COMPANIES], in order. *)
Definition COMPANIES : list (string * string) :=
  [("GOOGL", "1652044"); ("MSFT", "789019"); ("NVDA", "1045810")].

Definition TARGET_YEARS : list string := ["2022"; "2023"; "2024"].

(** One [tr] of the EDGAR listing as the code reads it: the texts of its
    [td] cells and the [href] of its first link, if any. *)
Record FilingRow := {
  cells : list string;
  first_href : option string
}.

(** [year in TARGET_YEARS] *)
Definition in_target_years (year : string) : bool :=
  existsb (String.eqb year) TARGET_YEARS.

(** The [for row in rows] loop of [get_10k_filing_links], on the rows of
    the page fetched. *)
Fixpoint get_10k_filing_links (rows : list FilingRow)
  : list (string * string) :=
  match rows with
  | [] => []
  | row :: rows' =>
      let links := get_10k_filing_links rows' in
      if (len (cells row) >=? 4) && contains "10-K" (nth 0 (cells row) EmptyString)
      then
        let filing_date := strip (nth 3 (cells row) EmptyString) in
        let year := nth 0 (split "-" filing_date) EmptyString in
        if in_target_years year then
          match first_href row with
          | Some href => (year, ("https://www.sec.gov" ++ href)%string) :: links
          | None => links
          end
        else links
      else links
  end.

(** [f"{company}_{year}.htm"], the name [main] saves a filing under. *)
Definition filing_file_name (company year : string) : string :=
  (company ++ "_" ++ year ++ ".htm")%string.

End Downloader.

(** ** parse_and_chunk.py: extraction and the processing of all filings *)

Module Extract.
Import Py Chunker.

(** The keys of [item_patterns], in the order of the dictionary, which is
    also [item_order]. *)
Inductive Item := Item_1A | Item_7 | Item_8.

Definition item_order : list Item := [Item_1A; Item_7; Item_8].

Definition section_friendly_names (item : Item) : string :=
  match item with
  | Item_1A => "Risk Factors"
  | Item_7 => "Management's Discussion and Analysis"
  | Item_8 => "Financial Statements and Supplementary Data"
  end.

(** A dictionary from section names to texts. *)
Definition Sections := string -> option string.

Definition no_sections : Sections := fun _ => None.

(** [d[key] = value] *)
Definition set_section (d : Sections) (key value : string) : Sections :=
  fun k => if String.eqb k key then Some value else d k.

Record ExtractState := {
  extracted_sections : Sections;
  current_section_title : option string;
  current_section_content : list string;
  capturing_content : bool
}.

Definition extract_init : ExtractState :=
  {| extracted_sections := no_sections; current_section_title := None;
     current_section_content := []; capturing_content := false |}.

Section WithPatterns.

(** The regular expressions of the source, as the tests they make:
    [item_patterns[item].search(text)] and the search for the marker that
    ends Item 8. *)
Variable search_item : Item -> string -> bool.
Variable search_end_marker : string -> bool.

(** [len(text_content.split()) < 150] *)
Definition short_enough (text_content : string) : bool :=
  len (split_whitespace text_content) <? 150.

(** The first item of [item_patterns] whose pattern is found in a text
    short enough for a title. *)
Definition matching_item (text_content : string) : option Item :=
  List.find (fun item => search_item item text_content
                         && short_enough text_content) item_order.

Definition title_truthy (title : option string) : bool :=
  match title with Some t => str_truthy t | None => false end.

(** [extracted_sections[current_section_title] =
     "\n".join(current_section_content).strip()] *)
Definition store_section (st : ExtractState) : Sections :=
  match current_section_title st with
  | Some title =>
      set_section (extracted_sections st) title
        (strip (join nl (current_section_content st)))
  | None => extracted_sections st
  end.

(** The body of the loop over the elements: the state after it, and
    whether the loop is left with [break]. *)
Definition element_step (st : ExtractState) (element_text : string)
  : ExtractState * bool :=
  let text_content := clean_text element_text in
  if negb (str_truthy text_content) then (st, false)
  else
    let st1 :=
      match matching_item text_content with
      | Some item =>
          {| extracted_sections :=
               if capturing_content st && title_truthy (current_section_title st)
               then store_section st else extracted_sections st;
             current_section_title := Some (section_friendly_names item);
             current_section_content := [text_content];
             capturing_content := true |}
      | None =>
          if capturing_content st then
            {| extracted_sections := extracted_sections st;
               current_section_title := current_section_title st;
               current_section_content :=
                 current_section_content st ++ [text_content];
               capturing_content := capturing_content st |}
          else st
      end in
    let stop :=
      match current_section_title st1 with
      | Some title =>
          String.eqb title (section_friendly_names Item_8)
          && (search_end_marker text_content && short_enough text_content)
      | None => false
      end in
    (st1, stop).

Fixpoint extract_loop (elements : list string) (st : ExtractState)
  : ExtractState :=
  match elements with
  | [] => st
  | element_text :: rest =>
      let '(st1, stop) := element_step st element_text in
      if stop then st1 else extract_loop rest st1
  end.

(** The code after the loop: the last section is stored, and the sections
    found are put together in [item_order]. *)
Definition assemble (st : ExtractState) : string :=
  let sections :=
    if title_truthy (current_section_title st)
       && negb (is_nil (current_section_content st))
    then store_section st else extracted_sections st in
  let full_document_text :=
    flat_map
      (fun item =>
         let friendly_name := section_friendly_names item in
         match sections friendly_name with
         | Some body =>
             if str_truthy body
             then [("--- " ++ friendly_name ++ " ---" ++ nl ++ body)%string]
             else []
         | None => []
         end)
      item_order in
  join (nl ++ nl) full_document_text.

(** [extract_text_from_html], on what reading and parsing the file gives:
    the text of each element found, in document order, or the error of
    opening the file. *)
Definition extract_text_from_html (elements : exc (list string)) : string :=
  match elements with
  | Raise _ => EmptyString
  | Ok elements => assemble (extract_loop elements extract_init)
  end.

End WithPatterns.

End Extract.

Module Process.
Import Py Chunker Filings Extract.

(** What [process_filings] leaves behind: the metadata written to
    processed_chunks_metadata.json, or nothing. *)
Inductive Outcome :=
| NothingWritten
| Written (metadata : list Chunk).

Section WithCapabilities.

Variable tk : Tokenizer.
Variable search_item : Item -> string -> bool.
Variable search_end_marker : string -> bool.
(** The elements of the file of that name in the data directory. *)
Variable read_elements : string -> exc (list string).
(** [json.dump] into the metadata file: does it succeed? *)
Variable json_dump_ok : list Chunk -> bool.

(** The entries one file adds; [None] when the chunking does not return. *)
Definition file_metadata (file_name : string) : option (list Chunk) :=
  let extracted_text :=
    extract_text_from_html search_item search_end_marker
      (read_elements file_name) in
  if negb (str_truthy extracted_text) then Some []
  else
    match split_text_into_chunks tk CHUNK_SIZE_TOKENS CHUNK_OVERLAP_TOKENS
            extracted_text with
    | Some chunks => Some (file_records file_name chunks)
    | None => None
    end.

(** [for file_name in html_files] *)
Fixpoint process_files (html_files : list string)
  (all_processed_chunks_metadata : list Chunk) : option (list Chunk) :=
  match html_files with
  | [] => Some all_processed_chunks_metadata
  | file_name :: rest =>
      match file_metadata file_name with
      | Some records =>
          process_files rest (all_processed_chunks_metadata ++ records)
      | None => None
      end
  end.

(** [process_filings], on the listing of the data directory ([None] when
    the directory is not found).  The text file saved for each filing has
    no part in the metadata and is left out. *)
Definition process_filings (listing : option (list string)) : option Outcome :=
  match listing with
  | None => Some NothingWritten
  | Some all_files_in_data_dir =>
      let html_files := List.filter (endswith ".htm") all_files_in_data_dir in
      if is_nil html_files then Some NothingWritten
      else
        let html_files := merge_sort String.le html_files in
        match process_files html_files [] with
        | Some metadata =>
            Some (if json_dump_ok metadata then Written metadata
                  else NothingWritten)
        | None => None
        end
  end.

End WithCapabilities.

End Process.

(** * The challenge run (main.py) *)

Module Main.
Import Py Store Agent.

(** [os.environ.get("GOOGLE_API_KEY", "YOUR_GEMINI_API_KEY_HERE")], on the
    value of the environment variable ([None] when it is not set). *)
Definition GOOGLE_API_KEY (env : option string) : string :=
  match env with
  | Some key => key
  | None => "YOUR_GEMINI_API_KEY_HERE"
  end.

Definition test_queries : list string :=
  ["What was NVIDIA's total revenue in fiscal year 2024?";
   "What percentage of Google's 2023 revenue came from advertising?";
   "How much did Microsoft's cloud revenue grow from 2022 to 2023?";
   "Which of the three companies had the highest gross margin in 2023?";
   "Compare the R&D spending as a percentage of revenue across all three companies in 2023";
   "How did each company's operating margin change from 2022 to 2024?";
   "What are the main AI risks mentioned by each company and how do they differ?"].

(** How [run_challenge] ends: at one of its two early returns, or with the
    list of results and whether challenge_results.json was written. *)
Inductive Outcome :=
| IndexFailed
| AgentFailed
| Results (all_results : list Output) (saved : bool).

Section WithCapabilities.

Variables Model Index Embedding Embeddings Distance FileData : Type.
(** [SentenceTransformer(EMBEDDING_MODEL_NAME)] *)
Variable load_model : exc Model.
Variable encode_query : Model -> string -> exc Embedding.
Variable encode_texts : Model -> list string -> exc Embeddings.
Variable index_search :
  Index -> Embedding -> Z -> exc (list (list Distance) * list (list Z)).
Variable build_flat_index : Embeddings -> exc Index.
Variable read_index : FileData -> exc Index.
Variable write_index : Index -> exc FileData.
Variable json_load : FileData -> exc (list Chunk).
Variable generate_content : string -> Temperature -> exc string.
(** [json.dump(all_results, f, indent=2)] into the opened results file *)
Variable json_dump : list Output -> exc unit.

(** [RAGPipeline._initialize_model] *)
Definition _initialize_model (self : RAGPipeline Model Index)
  : RAGPipeline Model Index :=
  match load_model with
  | Ok m =>
      {| model := Some m; index := index self;
         chunks_metadata := chunks_metadata self |}
  | Raise _ =>
      {| model := None; index := index self;
         chunks_metadata := chunks_metadata self |}
  end.

(** [RAGPipeline()] *)
Definition new_pipeline : RAGPipeline Model Index :=
  _initialize_model {| model := None; index := None; chunks_metadata := [] |}.

(** [FinancialAgent(google_api_key, rag_pipeline)]: the agent is the
    pipeline it keeps, the language model being the capability
    [generate_content]; configuring the client and naming the model are
    taken not to raise. *)
Definition new_agent (google_api_key : string)
  (rag_pipeline : RAGPipeline Model Index) : exc (RAGPipeline Model Index) :=
  if negb (Chunker.str_truthy google_api_key)
  then Raise "Google API Key must be provided for the LLM."
  else Ok rag_pipeline.

(** [for i, query in enumerate(test_queries)] *)
Fixpoint run_queries (agent : RAGPipeline Model Index) (queries : list string)
  (all_results : list Output) (log : CallLog) : exc (list Output) * CallLog :=
  match queries with
  | [] => (Ok all_results, log)
  | query :: rest =>
      match answer_query encode_query index_search generate_content agent
              query log with
      | (Ok result, log1) =>
          run_queries agent rest (all_results ++ [result]) log1
      | (Raise e, log1) => (Raise e, log1)
      end
  end.

(** [run_challenge], on the value of the environment variable and the
    files on disk: how it ends, the calls of the language model and the
    disk after it. *)
Definition run_challenge (env : option string) (disk : Disk FileData)
  : exc Outcome * CallLog * Disk FileData :=
  let '(loaded, rag_pipeline, disk1) :=
    load_or_create_index encode_texts build_flat_index read_index write_index
      json_load new_pipeline disk in
  if negb loaded then (Ok IndexFailed, [], disk1)
  else
    match new_agent (GOOGLE_API_KEY env) rag_pipeline with
    | Raise _ => (Ok AgentFailed, [], disk1)
    | Ok agent =>
        match run_queries agent test_queries [] [] with
        | (Raise e, log) => (Raise e, log, disk1)
        | (Ok all_results, log) =>
            (Ok (Results all_results
                   (match json_dump all_results with
                    | Ok _ => true
                    | Raise _ => false
                    end)), log, disk1)
        end
    end.

End WithCapabilities.

Arguments _initialize_model {Model Index} _ _.
Arguments new_pipeline {Model Index} _.
Arguments new_agent {Model Index} _ _.
Arguments run_queries {Model Index Embedding Distance} _ _ _ _ _ _ _.
Arguments run_challenge {Model Index Embedding Embeddings Distance FileData}
  _ _ _ _ _ _ _ _ _ _ _ _.

End Main.

(** * Specification predicates *)

Module Spec.
Import Py.

(** [R] holds of every two neighbours of [l]. *)
Definition adjacent {A} (R : A -> A -> Prop) (l : list A) : Prop :=
  forall i a b, l !! i = Some a -> l !! S i = Some b -> R a b.

(** The chunk has more tokens than the bound allows. *)
Definition over_bound (tk : Tokenizer) (chunk_size_tokens : Z)
  (chunk : string) : Prop :=
  chunk_size_tokens < len (Chunker.get_tokens tk chunk).

(** Overlap continuity as the specification words it: the decoded tail of
    [c] is a prefix of [c']. *)
Definition overlap_prefix (tk : Tokenizer) (chunk_overlap_tokens : Z)
  (c c' : string) : Prop :=
  is_prefix (Chunker.overlap_text_of tk chunk_overlap_tokens c) c'.

(** Overlap continuity up to the white space that [strip] removes. *)
Definition overlap_prefix_stripped (tk : Tokenizer) (chunk_overlap_tokens : Z)
  (c c' : string) : Prop :=
  is_prefix (strip (Chunker.overlap_text_of tk chunk_overlap_tokens c)) c'.

(** The bounds test of [retrieve_chunks]. *)
Definition in_range (metadata : list Chunk) (idx : Z) : bool :=
  (0 <=? idx) && (idx <? len metadata).

(** The search contract of the specification, written as a function: the
    positions of [row], from the [i]-th on, resolved through the metadata
    with their distances, those outside the metadata left out. *)
Fixpoint resolve_positions {Distance} (metadata : list Chunk)
  (drow : list Distance) (i : nat) (row : list Z)
  : list (Store.Retrieved Distance) :=
  match row with
  | [] => []
  | idx :: row' =>
      match (if in_range metadata idx then metadata !! Z.to_nat idx else None),
            drow !! i with
      | Some chunk, Some d =>
          Store.make_retrieved chunk d :: resolve_positions metadata drow (S i) row'
      | _, _ => resolve_positions metadata drow (S i) row'
      end
  end.

(** What faiss promises of one search for [k] neighbours: at most [k]
    positions, no stored vector twice (missing neighbours are -1), and
    distances in non-decreasing order. *)
Definition search_contract {Distance} (dle : Distance -> Distance -> Prop)
  (k : Z) (found : list (list Distance) * list (list Z)) : Prop :=
  forall drow row, fst found !! 0%nat = Some drow -> snd found !! 0%nat = Some row ->
    len row <= k
    /\ List.NoDup (List.filter (fun idx => 0 <=? idx) row)
    /\ Sorted dle drow.

(** Deduplication as the specification words it: the first occurrence of
    each key, in first-seen order.  [seen] holds the keys met so far. *)
Fixpoint first_occurrences {Distance} (seen : list string)
  (chunks : list (Store.Retrieved Distance))
  : list (Store.Retrieved Distance) :=
  match chunks with
  | [] => []
  | chunk :: rest =>
      let key := Agent.chunk_key chunk in
      if existsb (String.eqb key) seen then first_occurrences seen rest
      else chunk :: first_occurrences (seen ++ [key]) rest
  end.

(** The number of entries of [chunks] under the key [key]. *)
Definition entries_for {Distance} (key : string)
  (chunks : list (Store.Retrieved Distance)) : nat :=
  length (List.filter (fun c => String.eqb (Agent.chunk_key c) key) chunks).

(** The excerpt keeps some of the passage back: the passage text is not
    to be read off the start of the excerpt. *)
Definition withholds_text (passage_text excerpt : string) : Prop :=
  ~ is_prefix passage_text excerpt.

End Spec.

(** * Concrete scenarios *)

Module Scenario.
Import Py.

(** Five one-letter paragraphs: [a\n\nb\n\nc\n\nd\n\ne]. *)
Definition five_paragraphs : string :=
  ("a" ++ nl ++ nl ++ "b" ++ nl ++ nl ++ "c" ++ nl ++ nl ++ "d"
   ++ nl ++ nl ++ "e")%string.

(** Its first four paragraphs: [a\n\nb\n\nc\n\nd]. *)
Definition four_paragraphs : string :=
  ("a" ++ nl ++ nl ++ "b" ++ nl ++ nl ++ "c" ++ nl ++ nl ++ "d")%string.

(** Five one-letter words on one line. *)
Definition five_words : string := "a b c d e".

(** A stand-in for a flat faiss index over [n] vectors: the search returns
    the positions [0 .. n-1] at distances [0 .. n-1], filled up to [k]
    entries with position -1 at a large distance, and refuses [k <= 0]. *)
Definition flat_search (n : nat) (_ : unit) (k : Z)
  : exc (list (list Z) * list (list Z)) :=
  if k <=? 0 then Raise "k must be positive"
  else
    let found := Nat.min (Z.to_nat k) n in
    let missing := (Z.to_nat k - found)%nat in
    Ok ([(map Z.of_nat (seq 0 found) ++ repeat 1000000 missing)%list],
        [(map Z.of_nat (seq 0 found) ++ repeat (-1) missing)%list]).

(** An embedding model that accepts every text. *)
Definition embed_any (_ : unit) (_ : string) : exc unit := Ok tt.

Definition chunk_0007 : Chunk :=
  {| text := "Revenue grew."; company := "GOOGL"; year := "2023";
     source_doc := "GOOGL_2023.htm";
     chunk_id := Some "GOOGL_2023_chunk_0007"; page := 8 |}.

Definition chunk_0008 : Chunk :=
  {| text := "Costs fell."; company := "GOOGL"; year := "2023";
     source_doc := "GOOGL_2023.htm";
     chunk_id := Some "GOOGL_2023_chunk_0008"; page := 9 |}.

(** A pipeline over two passages, with its index loaded. *)
Definition pipeline : Store.RAGPipeline unit nat :=
  {| Store.model := Some tt; Store.index := Some 2%nat;
     Store.chunks_metadata := [chunk_0007; chunk_0008] |}.

(** A pipeline whose index holds three vectors for two metadata entries. *)
Definition mismatched_pipeline : Store.RAGPipeline unit nat :=
  {| Store.model := Some tt; Store.index := Some 3%nat;
     Store.chunks_metadata := [chunk_0007; chunk_0008] |}.

(** Files as their text.  The index file is readable when it holds
    [faiss:2], the metadata file when it holds [chunks]. *)
Definition read_index (f : string) : exc nat :=
  if String.eqb f "faiss:2" then Ok 2%nat
  else Raise "not a faiss index file".

Definition json_load (f : string) : exc (list Chunk) :=
  if String.eqb f "chunks" then Ok [chunk_0007; chunk_0008]
  else Raise "Expecting value: line 1 column 1 (char 0)".

Definition encode_texts (_ : unit) (texts : list string) : exc nat :=
  Ok (length texts).

Definition build_flat_index (embeddings : nat) : exc nat := Ok embeddings.

Definition write_index (_ : nat) : exc string := Ok "faiss:2".

(** A pipeline just constructed: the model loaded, nothing else. *)
Definition fresh_pipeline : Store.RAGPipeline unit nat :=
  {| Store.model := Some tt; Store.index := None;
     Store.chunks_metadata := [] |}.

(** A good index file next to a metadata file cut short in writing. *)
Definition disk_truncated_metadata : Store.Disk string :=
  {| Store.FAISS_INDEX_PATH := Some "faiss:2";
     Store.CHUNK_METADATA_PATH := Some "[{" |}.

(** A language model with two fixed replies, one for the decomposition
    (temperature 0.0) and one for the synthesis. *)
Definition generate_content (_ : string) (t : Agent.Temperature) : exc string :=
  match t with
  | Agent.temperature_0_0 => Ok "- GOOGL revenue 2023, - GOOGL costs 2023"
  | Agent.temperature_0_1 => Ok "Revenue grew. Reasoning: stated in the filing."
  end.

End Scenario.

(** * Further predicates *)

Module Shape.
Import Py.

(** Every white space character of [s] is a space, and no two of them are
    neighbours.  [after_space] tells that the character before was one. *)
Fixpoint single_spaced (after_space : bool) (s : string) : bool :=
  match s with
  | EmptyString => true
  | String c s' =>
      if is_space c
      then Ascii.eqb c " " && negb after_space && single_spaced true s'
      else single_spaced false s'
  end.

(** [s] has no white space at either end. *)
Definition trimmed (s : string) : Prop := strip s = s.

(** [s] holds white space only. *)
Fixpoint all_space (s : string) : bool :=
  match s with
  | EmptyString => true
  | String c s' => is_space c && all_space s'
  end.

(** The character [x] does not occur in [s]: [x in s] is false. *)
Definition lacks (x : ascii) (s : string) : Prop :=
  contains (String x EmptyString) s = false.

(** Some element of the file is taken for a section heading. *)
Definition has_heading (search_item : Extract.Item -> string -> bool)
  (elements : exc (list string)) : bool :=
  match elements with
  | Ok elements =>
      existsb
        (fun element_text =>
           match Extract.matching_item search_item
                   (Chunker.clean_text element_text) with
           | Some _ => true
           | None => false
           end)
        elements
  | Raise _ => false
  end.

(** The number written in decimal in [s], leading zeros allowed. *)
Definition decimal_value (s : string) : option Z :=
  option_map Z.of_uint (NilEmpty.uint_of_string s).

(** The decomposition calls of a log: those made at temperature 0.0. *)
Definition decomposition_calls (log : Agent.CallLog) : nat :=
  length
    (List.filter
       (fun call =>
          match snd call with
          | Agent.temperature_0_0 => true
          | Agent.temperature_0_1 => false
          end) log).

End Shape.

(** * Further scenarios *)

Module Cases.
Import Py.

(** Stand-ins for the heading patterns: the item number in capitals. *)
Definition search_item (item : Extract.Item) (text_content : string) : bool :=
  contains
    (match item with
     | Extract.Item_1A => "ITEM 1A."
     | Extract.Item_7 => "ITEM 7."
     | Extract.Item_8 => "ITEM 8."
     end) text_content.

Definition search_end_marker (text_content : string) : bool :=
  contains "ITEM 9." text_content.

(** A data directory with a note and two filings, of which only the first
    has a heading. *)
Definition listing : list string :=
  ["notes.txt"; "MSFT_2023.htm"; "GOOGL_2023.htm"].

Definition read_elements (file_name : string) : exc (list string) :=
  if String.eqb file_name "GOOGL_2023.htm" then
    Ok ["Table of contents";
        "ITEM 7.  MANAGEMENT'S DISCUSSION AND ANALYSIS";
        "Revenue grew."]
  else if String.eqb file_name "MSFT_2023.htm" then
    Ok ["Nothing to see."]
  else Raise "No such file or directory".

Definition googl_record : Chunk :=
  {| text := ("--- Management's Discussion and Analysis ---" ++ nl
              ++ "ITEM 7. MANAGEMENT'S DISCUSSION AND ANALYSIS" ++ nl
              ++ "Revenue grew.")%string;
     company := "GOOGL"; year := "2023"; source_doc := "GOOGL_2023.htm";
     chunk_id := Some "GOOGL_2023_chunk_0000"; page := 1 |}.

(** A data directory with a filing and its amended version, both with a
    heading. *)
Definition amended_listing : list string :=
  ["GOOGL_2023_amended.htm"; "GOOGL_2023.htm"].

Definition read_amended (file_name : string) : exc (list string) :=
  if String.eqb file_name "GOOGL_2023_amended.htm" then
    Ok ["ITEM 7.  MANAGEMENT'S DISCUSSION AND ANALYSIS"; "Revenue fell."]
  else read_elements file_name.

Definition amended_record : Chunk :=
  {| text := ("--- Management's Discussion and Analysis ---" ++ nl
              ++ "ITEM 7. MANAGEMENT'S DISCUSSION AND ANALYSIS" ++ nl
              ++ "Revenue fell.")%string;
     company := "GOOGL"; year := "2023";
     source_doc := "GOOGL_2023_amended.htm";
     chunk_id := Some "GOOGL_2023_chunk_0000"; page := 1 |}.

(** The metadata file alone, and both files. *)
Definition disk_metadata_only : Store.Disk string :=
  {| Store.FAISS_INDEX_PATH := None;
     Store.CHUNK_METADATA_PATH := Some "chunks" |}.

Definition disk_complete : Store.Disk string :=
  {| Store.FAISS_INDEX_PATH := Some "faiss:2";
     Store.CHUNK_METADATA_PATH := Some "chunks" |}.

(** A pipeline whose embedding model could not be loaded. *)
Definition pipeline_without_model : Store.RAGPipeline unit nat :=
  {| Store.model := None; Store.index := None;
     Store.chunks_metadata := [] |}.

(** A language model out of quota: every call raises. *)
Definition failing_generate_content (_ : string) (_ : Agent.Temperature)
  : exc string :=
  Raise "429 quota exceeded, retry later".

(** A passage as retrieved, at distance 0. *)
Definition retrieved_0007 : Store.Retrieved Z :=
  Store.make_retrieved Scenario.chunk_0007 0.

(** The embedding model loads, or the package is missing. *)
Definition load_model : exc unit := Ok tt.

Definition load_model_fails : exc unit :=
  Raise "No module named 'sentence_transformers'".

(** A results file that can always be written. *)
Definition json_dump (_ : list Agent.Output) : exc unit := Ok tt.

End Cases.

(** * Properties *)

(** ** Strings *)

Module PyFacts.
Import Py.

Lemma append_cons (c : ascii) (s t : string) :
  (String c s ++ t)%string = String c (s ++ t)%string.
Proof. reflexivity. Qed.

Lemma append_nil_r (s : string) : (s ++ "")%string = s.
Proof.
  induction s as [|c s IH]; [reflexivity |].
  rewrite append_cons. f_equal. exact IH.
Qed.

Lemma append_assoc (a b c : string) :
  ((a ++ b) ++ c)%string = (a ++ (b ++ c))%string.
Proof.
  induction a as [|x a IH]; [reflexivity |].
  rewrite !append_cons. f_equal. exact IH.
Qed.

Lemma is_prefix_refl (s : string) : is_prefix s s.
Proof. exists EmptyString. now rewrite append_nil_r. Qed.

Lemma is_prefix_nil (s : string) : is_prefix EmptyString s.
Proof. now exists s. Qed.

Lemma is_prefix_cons (c : ascii) (p s : string) :
  is_prefix p s -> is_prefix (String c p) (String c s).
Proof. intros [t ->]. exists t. reflexivity. Qed.

Lemma is_prefix_cons_inv (c d : ascii) (p s : string) :
  is_prefix (String c p) (String d s) -> c = d /\ is_prefix p s.
Proof.
  intros [t H]. rewrite append_cons in H. injection H as -> ->.
  split; [reflexivity | now exists t].
Qed.

(** Stripping on the right commutes with extension, up to a prefix. *)
Lemma rstrip_app_prefix (a b : string) :
  is_prefix (rstrip a) (rstrip (a ++ b)).
Proof.
  induction a as [|c a IH].
  - apply is_prefix_nil.
  - rewrite append_cons. simpl. destruct IH as [t Ht]. rewrite Ht.
    destruct (rstrip a) as [|x r].
    + change ("" ++ t)%string with t.
      destruct (is_space c).
      * destruct t; apply is_prefix_nil.
      * destruct t; apply is_prefix_cons, is_prefix_nil.
    + rewrite append_cons. apply is_prefix_cons. now exists t.
Qed.

Lemma lstrip_prefix_mono (p : string) :
  forall q, is_prefix p q -> is_prefix (lstrip p) (lstrip q).
Proof.
  induction p as [|c p IH]; intros q Hq.
  - apply is_prefix_nil.
  - destruct q as [|d q].
    + destruct Hq as [t Ht]. discriminate Ht.
    + apply is_prefix_cons_inv in Hq as [<- Hq]. simpl.
      destruct (is_space c).
      * now apply IH.
      * now apply is_prefix_cons.
Qed.

(** What [strip] keeps of a text is kept when the text is extended. *)
Lemma strip_app_prefix (a b : string) :
  is_prefix (strip a) (strip (a ++ b)).
Proof. unfold strip. apply lstrip_prefix_mono, rstrip_app_prefix. Qed.

Lemma join_cons_prefix (sep x : string) (rest : list string) :
  is_prefix x (join sep (x :: rest)).
Proof.
  unfold join. destruct rest as [|y rest].
  - apply is_prefix_refl.
  - now exists (sep ++ String.concat sep (y :: rest))%string.
Qed.

Lemma strip_join_prefix (sep x : string) (rest : list string) :
  is_prefix (strip x) (strip (join sep (x :: rest))).
Proof.
  destruct (join_cons_prefix sep x rest) as [t ->]. apply strip_app_prefix.
Qed.

End PyFacts.

(** ** The chunker *)

Module ChunkerFacts.
Import Py Chunker Spec PyFacts.

Lemma last_default {A} (l : list A) (d : A) :
  l <> [] -> last l = Some (List.last l d).
Proof.
  induction l as [|x l IH]; [congruence |].
  intros _. destruct l as [|y l]; [reflexivity |].
  change (last (y :: l) = Some (List.last (y :: l) d)).
  apply IH. congruence.
Qed.

Lemma adjacent_nil {A} (R : A -> A -> Prop) : adjacent R [].
Proof. intros i a b H. discriminate H. Qed.

Lemma adjacent_singleton {A} (R : A -> A -> Prop) (x : A) : adjacent R [x].
Proof. intros i a b _ H. discriminate H. Qed.

Lemma adjacent_snoc {A} (R : A -> A -> Prop) (l : list A) (x : A) :
  adjacent R l -> (forall a, last l = Some a -> R a x) ->
  adjacent R (l ++ [x]).
Proof.
  intros Hl Hx i a b Ha Hb.
  destruct (decide (S i < length l)%nat) as [Hlt | Hge].
  - rewrite lookup_app_l in Ha by lia. rewrite lookup_app_l in Hb by lia.
    eapply Hl; eassumption.
  - destruct (decide (S i = length l)) as [Heq | Hne].
    + rewrite lookup_app_l in Ha by lia.
      rewrite lookup_app_r in Hb by lia.
      rewrite Heq, Nat.sub_diag in Hb. injection Hb as <-.
      apply Hx. rewrite last_lookup, <- Heq. exact Ha.
    + apply lookup_lt_Some in Hb. rewrite length_app in Hb. simpl in Hb. lia.
Qed.

Section WithTokenizer.

Variable tk : Tokenizer.
Variables chunk_size_tokens chunk_overlap_tokens : Z.

Local Abbreviation hard_split_loop := (hard_split_loop tk chunk_size_tokens chunk_overlap_tokens).
Local Abbreviation hard_split := (hard_split tk chunk_size_tokens chunk_overlap_tokens).
Local Abbreviation add_sub_part := (add_sub_part tk chunk_size_tokens chunk_overlap_tokens).
Local Abbreviation recursive_split_from := (recursive_split_from tk chunk_size_tokens chunk_overlap_tokens).
Local Abbreviation overlap_text_of := (overlap_text_of tk chunk_overlap_tokens).

(** *** Termination of the hard split *)

Lemma hard_split_loop_total (fuel : nat) (tokens : list Z) :
  0 < chunk_size_tokens - chunk_overlap_tokens ->
  forall start, len tokens - start <= Z.of_nat fuel ->
  is_Some (hard_split_loop fuel tokens start).
Proof.
  intros Hstep. induction fuel as [|fuel IH]; intros start Hfuel; simpl.
  - destruct (start <? len tokens) eqn:E; [| eexists; reflexivity].
    apply Z.ltb_lt in E. lia.
  - destruct (start <? len tokens) eqn:E; [| eexists; reflexivity].
    destruct (IH (start + (chunk_size_tokens - chunk_overlap_tokens))) as [r Hr];
      [lia |].
    rewrite Hr. eexists; reflexivity.
Qed.

Lemma hard_split_total (tokens : list Z) :
  chunk_overlap_tokens < chunk_size_tokens -> is_Some (hard_split tokens).
Proof.
  intros H. apply hard_split_loop_total; [lia |]. unfold len. lia.
Qed.

(** The pieces of the hard split: the [j]-th one decodes the tokens from
    index [j * (S - O)] on, at most [S] of them. *)
Lemma slice_bounded {A} (l : list A) (a n : Z) :
  0 <= a -> 0 <= n -> len (slice l a (Z.min (a + n) (len l))) <= n.
Proof.
  intros Ha Hn. unfold slice, norm_index, len.
  assert ((a <? 0) = false) as -> by now apply Z.ltb_ge.
  assert ((Z.min (a + n) (Z.of_nat (length l)) <? 0) = false) as ->
    by (apply Z.ltb_ge; lia).
  rewrite length_take, length_drop. lia.
Qed.

Lemma hard_split_loop_pieces (tokens : list Z) :
  0 <= chunk_overlap_tokens < chunk_size_tokens ->
  forall fuel start pieces, 0 <= start ->
  hard_split_loop fuel tokens start = Some pieces ->
  forall j piece, pieces !! j = Some piece ->
  let a := start + Z.of_nat j * (chunk_size_tokens - chunk_overlap_tokens) in
  piece = decode tk (slice tokens a (Z.min (a + chunk_size_tokens) (len tokens)))
  /\ len (slice tokens a (Z.min (a + chunk_size_tokens) (len tokens)))
     <= chunk_size_tokens.
Proof.
  intros HSO. induction fuel as [|fuel IH]; intros start pieces Hstart H j piece Hj;
    simpl in H.
  - destruct (start <? len tokens); [discriminate H |].
    injection H as <-. discriminate Hj.
  - destruct (start <? len tokens); [| injection H as <-; discriminate Hj].
    destruct (hard_split_loop fuel tokens
                (start + (chunk_size_tokens - chunk_overlap_tokens)))
      as [rest|] eqn:Erest; [| discriminate H].
    injection H as <-. destruct j as [|j].
    + injection Hj as <-. cbv zeta. rewrite Z.mul_0_l, Z.add_0_r.
      split; [reflexivity | apply slice_bounded; lia].
    + simpl in Hj.
      assert (0 <= start + (chunk_size_tokens - chunk_overlap_tokens)) as Hnext
        by lia.
      specialize (IH _ _ Hnext Erest j piece Hj). cbv zeta in IH |- *.
      replace (start + Z.of_nat (S j) * (chunk_size_tokens - chunk_overlap_tokens))
        with (start + (chunk_size_tokens - chunk_overlap_tokens)
              + Z.of_nat j * (chunk_size_tokens - chunk_overlap_tokens)) by lia.
      exact IH.
Qed.

Lemma foldlM_total {A B} (f : A -> B -> option A) (l : list B) :
  (forall a x, is_Some (f a x)) -> forall a, is_Some (foldlM f l a).
Proof.
  intros Hf. induction l as [|x l IH]; intros a; simpl.
  - eexists; reflexivity.
  - destruct (Hf a x) as [a' ->]. apply IH.
Qed.

(** With an overlap below the chunk size, [_recursive_split] returns. *)
Lemma recursive_split_from_total (seps : list string) :
  chunk_overlap_tokens < chunk_size_tokens ->
  forall current_text, is_Some (recursive_split_from seps current_text).
Proof.
  intros H. induction seps as [|sep seps IH]; intros current_text; simpl.
  - destruct (Z.gtb _ _); [now apply hard_split_total | eexists; reflexivity].
  - destruct (Z.leb _ _).
    + destruct (Z.gtb _ _); [now apply hard_split_total | eexists; reflexivity].
    + match goal with
      | |- is_Some (match foldlM ?f ?l ?a0 with _ => _ end) =>
          assert (Hf : forall a x, is_Some (f a x));
          [| destruct (foldlM_total f l Hf a0) as [st ->]; eexists; reflexivity]
      end.
      intros a x. cbv beta. destruct (IH x) as [r ->]. eexists; reflexivity.
Qed.

(** *** The reassembly loop keeps the overlap at the head of each chunk *)

(** While chunks are being assembled, the parts collected for the next
    chunk start with the overlap drawn from the chunk sealed last. *)
Definition seeded (temp parts : list string) : Prop :=
  temp = [] \/
  exists c rest, last temp = Some c /\ parts = overlap_text_of c :: rest.

Definition loop_inv (st : LoopState) : Prop :=
  adjacent (overlap_prefix_stripped tk chunk_overlap_tokens) (temp_chunks st)
  /\ seeded (temp_chunks st) (current_chunk_parts st).

Lemma loop_inv_init : loop_inv init_state.
Proof. split; [apply adjacent_nil | now left]. Qed.

Lemma seal_adjacent (sep : string) (temp parts : list string) :
  adjacent (overlap_prefix_stripped tk chunk_overlap_tokens) temp ->
  seeded temp parts ->
  adjacent (overlap_prefix_stripped tk chunk_overlap_tokens)
    (seal sep temp parts).
Proof.
  intros Hadj Hseed. unfold seal.
  destruct (is_nil parts); [exact Hadj |].
  apply adjacent_snoc; [exact Hadj |].
  intros a Ha. destruct Hseed as [-> | (c & rest & Hc & ->)].
  - discriminate Ha.
  - rewrite Hc in Ha. injection Ha as <-. apply strip_join_prefix.
Qed.

Lemma add_sub_part_inv (sep : string) (st : LoopState) (sub_part : string) :
  0 < chunk_overlap_tokens ->
  loop_inv st -> loop_inv (add_sub_part sep st sub_part).
Proof.
  intros HO [Hadj Hseed]. unfold Chunker.add_sub_part.
  destruct (Z.gtb _ chunk_size_tokens).
  - pose proof (seal_adjacent sep _ _ Hadj Hseed) as Hadj'.
    remember (seal sep (temp_chunks st) (current_chunk_parts st)) as temp1.
    assert ((chunk_overlap_tokens >? 0) = true) as -> by now apply Z.gtb_lt.
    destruct (len temp1 >? 0) eqn:Elen; simpl.
    + split; [exact Hadj' |]. right.
      exists (List.last temp1 EmptyString), [sub_part]. split; [| reflexivity].
      apply last_default. intros ->. discriminate Elen.
    + split; [exact Hadj' |]. left.
      destruct temp1; [reflexivity |].
      rewrite Z.gtb_ltb in Elen. apply Z.ltb_ge in Elen.
      unfold len in Elen. simpl in Elen. lia.
  - split; [exact Hadj |]. simpl.
    destruct Hseed as [-> | (c & rest & Hc & Hparts)]; [now left |].
    right. exists c, (rest ++ [sub_part])%list. split; [exact Hc |].
    rewrite Hparts. reflexivity.
Qed.

Lemma fold_add_sub_part_inv (sep : string) (sub_parts : list string) :
  0 < chunk_overlap_tokens ->
  forall st, loop_inv st ->
  loop_inv (fold_left (add_sub_part sep) sub_parts st).
Proof.
  intros HO. induction sub_parts as [|x l IH]; intros st Hst; simpl.
  - exact Hst.
  - apply IH. now apply add_sub_part_inv.
Qed.

Lemma foldlM_inv {A B} (P : A -> Prop) (f : A -> B -> option A) (l : list B) :
  (forall a x a', P a -> f a x = Some a' -> P a') ->
  forall a a', P a -> foldlM f l a = Some a' -> P a'.
Proof.
  intros Hf. induction l as [|x l IH]; intros a a' Ha H; simpl in H.
  - now injection H as <-.
  - destruct (f a x) as [a1|] eqn:E; [| discriminate H].
    eapply IH; [| exact H]. eapply Hf; eassumption.
Qed.

(** Every two neighbouring chunks returned by one call of
    [_recursive_split] at a separator level overlap, up to [strip]. *)
Lemma recursive_split_from_overlap (sep : string) (seps : list string)
  (current_text : string) (chunks : list string) :
  0 < chunk_overlap_tokens ->
  recursive_split_from (sep :: seps) current_text = Some chunks ->
  adjacent (overlap_prefix_stripped tk chunk_overlap_tokens) chunks.
Proof.
  intros HO. simpl.
  destruct (Z.leb _ chunk_size_tokens) eqn:Esmall.
  - assert ((len (get_tokens tk current_text) >? chunk_size_tokens) = false)
      as ->.
    { rewrite Z.gtb_ltb. apply Z.ltb_ge. now apply Z.leb_le. }
    intros H. injection H as <-. apply adjacent_singleton.
  - match goal with
    | |- match foldlM ?f ?l ?a0 with _ => _ end = _ -> _ =>
        destruct (foldlM f l a0) as [st|] eqn:Eloop; [| discriminate]
    end.
    intros H. injection H as <-.
    assert (loop_inv st) as [Hadj Hseed].
    { eapply foldlM_inv; [| apply loop_inv_init | exact Eloop].
      intros a x a' Ha Hx. cbv beta in Hx.
      destruct (recursive_split_from seps x); [| discriminate Hx].
      injection Hx as <-. now apply fold_add_sub_part_inv. }
    now apply seal_adjacent.
Qed.

(** *** One step of the reassembly loop *)

(** The token count the loop tests against the bound. *)
Definition tested_count (sep : string) (st : LoopState) (sub_part : string) : Z :=
  current_chunk_token_count st + len (get_tokens tk sub_part)
  + (if str_truthy sep && negb (is_nil (current_chunk_parts st))
     then len (get_tokens tk sep) else 0).

(** The part fits: it joins the current chunk, and the count grows by the
    tokens of the part alone. *)
Lemma add_sub_part_fits (sep : string) (st : LoopState) (sub_part : string) :
  tested_count sep st sub_part <= chunk_size_tokens ->
  add_sub_part sep st sub_part =
  {| temp_chunks := temp_chunks st;
     current_chunk_parts := current_chunk_parts st ++ [sub_part];
     current_chunk_token_count :=
       current_chunk_token_count st + len (get_tokens tk sub_part) |}.
Proof.
  unfold tested_count, Chunker.add_sub_part. intros H.
  match goal with
  | |- context [Z.gtb ?x ?y] =>
      assert ((x >? y) = false) as -> by (rewrite Z.gtb_ltb; now apply Z.ltb_ge)
  end.
  reflexivity.
Qed.

(** The part does not fit and there is no overlap: the current chunk is
    sealed and the part opens the next one. *)
Lemma add_sub_part_seals (sep : string) (st : LoopState) (sub_part : string) :
  chunk_size_tokens < tested_count sep st sub_part ->
  chunk_overlap_tokens <= 0 ->
  add_sub_part sep st sub_part =
  {| temp_chunks := seal sep (temp_chunks st) (current_chunk_parts st);
     current_chunk_parts := [sub_part];
     current_chunk_token_count := 0 + len (get_tokens tk sub_part) |}.
Proof.
  unfold tested_count, Chunker.add_sub_part. intros H HO.
  match goal with
  | |- context [Z.gtb ?x ?y] =>
      assert ((x >? y) = true) as -> by now apply Z.gtb_lt
  end.
  assert ((chunk_overlap_tokens >? 0) = false) as ->
    by (rewrite Z.gtb_ltb; now apply Z.ltb_ge).
  reflexivity.
Qed.

(** *** Texts within the bound *)

Lemma recursive_split_from_small (seps : list string) (current_text : string) :
  len (get_tokens tk current_text) <= chunk_size_tokens ->
  recursive_split_from seps current_text = Some [current_text].
Proof.
  intros H.
  assert ((len (get_tokens tk current_text) >? chunk_size_tokens) = false)
    as Hgt by (rewrite Z.gtb_ltb; now apply Z.ltb_ge).
  assert ((len (get_tokens tk current_text) <=? chunk_size_tokens) = true)
    as Hle by now apply Z.leb_le.
  destruct seps as [|sep seps]; simpl; rewrite Hgt; [reflexivity |].
  now rewrite Hle.
Qed.

Lemma recursive_split_from_large (sep : string) (seps : list string)
  (current_text : string) :
  chunk_size_tokens < len (get_tokens tk current_text) ->
  recursive_split_from (sep :: seps) current_text =
  match
    foldlM (fun st part =>
              match recursive_split_from seps part with
              | Some sub_parts => Some (fold_left (add_sub_part sep) sub_parts st)
              | None => None
              end)
           (split sep current_text) init_state
  with
  | Some st => Some (seal sep (temp_chunks st) (current_chunk_parts st))
  | None => None
  end.
Proof.
  intros H. simpl.
  assert ((len (get_tokens tk current_text) <=? chunk_size_tokens) = false)
    as -> by now apply Z.leb_gt.
  reflexivity.
Qed.

End WithTokenizer.

(** *** The properties of the specification *)

(** C5, as the code has it.  The empty document is within every bound, so
    [split_text_into_chunks] returns it as its single chunk: the result is
    the one-element sequence holding the empty string, for every chunk size
    and overlap with [0 <= O < S] and every tokenizer that gives the empty
    text no tokens. *)
Theorem split_empty_document (tk : Tokenizer)
  (chunk_size_tokens chunk_overlap_tokens : Z) :
  encode tk EmptyString = [] ->
  0 <= chunk_overlap_tokens < chunk_size_tokens ->
  split_text_into_chunks tk chunk_size_tokens chunk_overlap_tokens EmptyString
  = Some [EmptyString].
Proof.
  intros Hempty Hbound. unfold split_text_into_chunks, _recursive_split.
  apply recursive_split_from_small.
  unfold get_tokens. rewrite Hempty. unfold len. simpl. lia.
Qed.

Lemma split_empty_document_witness :
  split_text_into_chunks PieceTokenizer.tokenizer 500 50 EmptyString
  = Some [EmptyString].
Proof.
  apply (split_empty_document PieceTokenizer.tokenizer 500 50);
    [reflexivity | lia].
Defined.

(** C5 as stated fails: the empty document does not yield the empty
    sequence of chunks. *)
Lemma split_empty_document_not_empty :
  split_text_into_chunks PieceTokenizer.tokenizer
    CHUNK_SIZE_TOKENS CHUNK_OVERLAP_TOKENS EmptyString <> Some [].
Proof. vm_compute. discriminate. Qed.

(** C4, as the code has it.  With [0 < O < S], every call of
    [_recursive_split] at a separator level returns, and for every two
    neighbouring chunks [c], [c'] of its result the last [O] tokens of [c]
    (all of them when [c] has fewer), decoded and stripped of surrounding
    white space, form a prefix of [c'].  Separator index 0 is the result of
    [split_text_into_chunks]. *)
Theorem overlap_continuity_up_to_strip (tk : Tokenizer)
  (chunk_size_tokens chunk_overlap_tokens : Z) (text : string)
  (separator_index : nat) :
  0 < chunk_overlap_tokens < chunk_size_tokens ->
  (separator_index < length separators)%nat ->
  exists chunks,
    _recursive_split tk chunk_size_tokens chunk_overlap_tokens text
      separator_index = Some chunks
    /\ adjacent (overlap_prefix_stripped tk chunk_overlap_tokens) chunks.
Proof.
  intros [HO HS] Hidx. unfold _recursive_split.
  destruct (recursive_split_from_total tk chunk_size_tokens
              chunk_overlap_tokens (drop separator_index separators) HS text)
    as [chunks Hchunks].
  exists chunks. split; [exact Hchunks |].
  destruct (drop separator_index separators) as [|sep seps] eqn:Edrop.
  - apply (f_equal length) in Edrop. rewrite length_drop in Edrop.
    simpl in Edrop, Hidx. lia.
  - eapply recursive_split_from_overlap; eassumption.
Qed.

Lemma overlap_continuity_up_to_strip_witness :
  exists chunks,
    _recursive_split PieceTokenizer.tokenizer 3 1 Scenario.five_words 0
    = Some chunks
    /\ adjacent (overlap_prefix_stripped PieceTokenizer.tokenizer 1) chunks.
Proof.
  apply (overlap_continuity_up_to_strip PieceTokenizer.tokenizer 3 1
           Scenario.five_words 0); [lia | simpl; lia].
Defined.

(** C4 as stated fails.  For [a b c d e] with [S = 3] and [O = 1] the
    first chunk is [a b]; its last token decodes to [ b], with the space in
    front, and the second chunk starts with [b]. *)
Lemma overlap_prefix_fails :
  exists chunks,
    split_text_into_chunks PieceTokenizer.tokenizer 3 1 Scenario.five_words
    = Some chunks
    /\ ~ adjacent (overlap_prefix PieceTokenizer.tokenizer 1) chunks.
Proof.
  eexists. split; [vm_compute; reflexivity |].
  intros H. specialize (H 0%nat _ _ eq_refl eq_refl).
  destruct H as [t Ht]. vm_compute in Ht. discriminate Ht.
Qed.

(** C1 fails on the code.  The reassembly loop adds the separator's tokens
    to its test but never to its running count.  For every tokenizer that
    gives one token to a one-letter paragraph and one to the paragraph
    break, the text [a\n\nb\n\nc\n\nd\n\ne] with [S = 5] and [O = 0]
    is split into [a\n\nb\n\nc\n\nd] and [e]; the first chunk has seven
    tokens, four letters and three breaks, and it is not an indivisible
    run. *)
Theorem chunk_bound_violated (tk : Tokenizer) :
  len (get_tokens tk "a") = 1 -> len (get_tokens tk "b") = 1 ->
  len (get_tokens tk "c") = 1 -> len (get_tokens tk "d") = 1 ->
  len (get_tokens tk "e") = 1 -> len (get_tokens tk (nl ++ nl)) = 1 ->
  len (get_tokens tk Scenario.five_paragraphs) = 9 ->
  len (get_tokens tk Scenario.four_paragraphs) = 7 ->
  split_text_into_chunks tk 5 0 Scenario.five_paragraphs
  = Some [Scenario.four_paragraphs; "e"]
  /\ over_bound tk 5 Scenario.four_paragraphs
  /\ split (nl ++ nl) Scenario.four_paragraphs = ["a"; "b"; "c"; "d"].
Proof.
  intros Ha Hb Hc Hd He Hsep Hfive Hfour.
  split; [| split; [unfold over_bound; lia | reflexivity]].
  unfold split_text_into_chunks, _recursive_split.
  change (drop 0 separators) with separators. unfold separators.
  rewrite recursive_split_from_large by lia.
  change (split (nl ++ nl) Scenario.five_paragraphs)
    with ["a"; "b"; "c"; "d"; "e"].
  cbn [foldlM].
  rewrite !recursive_split_from_small by lia.
  cbn [fold_left].
  assert (Htruthy : str_truthy (nl ++ nl) = true) by reflexivity.
  rewrite (add_sub_part_fits tk 5 0 _ _ "a")
    by (unfold tested_count; rewrite Htruthy, Ha; simpl; lia).
  rewrite (add_sub_part_fits tk 5 0 _ _ "b")
    by (unfold tested_count; rewrite Htruthy, Ha, Hb, Hsep; simpl; lia).
  rewrite (add_sub_part_fits tk 5 0 _ _ "c")
    by (unfold tested_count; rewrite Htruthy, Ha, Hb, Hc, Hsep; simpl; lia).
  rewrite (add_sub_part_fits tk 5 0 _ _ "d")
    by (unfold tested_count; rewrite Htruthy, Ha, Hb, Hc, Hd, Hsep; simpl; lia).
  rewrite (add_sub_part_seals tk 5 0 _ _ "e")
    by (unfold tested_count; rewrite ?Htruthy, ?Ha, ?Hb, ?Hc, ?Hd, ?He, ?Hsep;
        simpl; lia).
  reflexivity.
Qed.

Lemma chunk_bound_violated_witness :
  split_text_into_chunks PieceTokenizer.tokenizer 5 0 Scenario.five_paragraphs
  = Some [Scenario.four_paragraphs; "e"]
  /\ over_bound PieceTokenizer.tokenizer 5 Scenario.four_paragraphs
  /\ split (nl ++ nl) Scenario.four_paragraphs = ["a"; "b"; "c"; "d"].
Proof.
  apply (chunk_bound_violated PieceTokenizer.tokenizer); reflexivity.
Defined.

End ChunkerFacts.

(** ** The retrieval store *)

Module StoreFacts.
Import Py Store Spec.

Lemma strongly_sorted_sublist {A} (R : A -> A -> Prop) (l1 l2 : list A) :
  sublist l1 l2 -> StronglySorted R l2 -> StronglySorted R l1.
Proof.
  induction 1 as [| x l1 l2 Hsub IH | x l1 l2 Hsub IH]; intros Hs.
  - constructor.
  - apply StronglySorted_inv in Hs as [Hs Hall]. constructor; [now apply IH |].
    rewrite List.Forall_forall in *. intros y Hy. apply Hall.
    apply list_elem_of_In. eapply elem_of_sublist; [| exact Hsub].
    now apply list_elem_of_In.
  - apply StronglySorted_inv in Hs as [Hs _]. now apply IH.
Qed.

(** Distinct numbers of [[0, n)] are at most [n]. *)
Lemma nodup_in_range_length (n : nat) (l : list Z) :
  List.NoDup l -> (forall x, In x l -> 0 <= x < Z.of_nat n) ->
  (length l <= n)%nat.
Proof.
  intros Hnd Hin.
  rewrite <- (length_seq n 0), <- (length_map Z.of_nat).
  apply NoDup_incl_length; [exact Hnd |].
  intros x Hx. apply in_map_iff. exists (Z.to_nat x).
  split; [apply Z2Nat.id; apply Hin, Hx |].
  apply in_seq. specialize (Hin x Hx). lia.
Qed.

Section WithCapabilities.

Variables Model Index Embedding Distance : Type.
Variable encode_query : Model -> string -> exc Embedding.
Variable index_search :
  Index -> Embedding -> Z -> exc (list (list Distance) * list (list Z)).

Local Abbreviation retrieve_chunks := (Store.retrieve_chunks encode_query index_search).

(** *** The retrieval loop *)

Lemma retrieve_loop_resolves (metadata : list Chunk)
  (distances : list (list Distance)) (drow : list Distance) (row : list Z) :
  distances !! 0%nat = Some drow ->
  forall i, (i + length row <= length drow)%nat ->
  retrieve_loop metadata distances i row
  = Ok (resolve_positions metadata drow i row).
Proof.
  intros Hd. induction row as [|idx row IH]; intros i Hlen; simpl.
  - reflexivity.
  - simpl in Hlen. fold (in_range metadata idx).
    destruct (in_range metadata idx) eqn:Hin.
    + unfold in_range in Hin. apply andb_prop in Hin as [H0 Hn].
      apply Z.leb_le in H0. apply Z.ltb_lt in Hn. unfold len in Hn.
      destruct (lookup_lt_is_Some_2 metadata (Z.to_nat idx)) as [chunk Hc];
        [lia |].
      destruct (lookup_lt_is_Some_2 drow i) as [d Hdi]; [lia |].
      unfold getitem. rewrite Hc, Hd. simpl. rewrite Hdi. simpl.
      rewrite IH by lia. reflexivity.
    + destruct (drow !! i); apply IH; lia.
Qed.

Lemma retrieve_loop_cons_inv (metadata : list Chunk)
  (distances : list (list Distance)) (i : nat) (idx : Z) (row : list Z)
  (res : list (Retrieved Distance)) :
  retrieve_loop metadata distances i (idx :: row) = Ok res ->
  (in_range metadata idx = true /\
   exists chunk drow d rest,
     metadata !! Z.to_nat idx = Some chunk /\ distances !! 0%nat = Some drow
     /\ drow !! i = Some d
     /\ retrieve_loop metadata distances (S i) row = Ok rest
     /\ res = make_retrieved chunk d :: rest)
  \/ (in_range metadata idx = false
      /\ retrieve_loop metadata distances (S i) row = Ok res).
Proof.
  simpl. fold (in_range metadata idx).
  destruct (in_range metadata idx); [| now right].
  unfold getitem.
  destruct (metadata !! Z.to_nat idx) as [chunk|] eqn:Hc; [| discriminate].
  simpl.
  destruct (distances !! 0%nat) as [drow|] eqn:Hd; [| discriminate]. simpl.
  destruct (drow !! i) as [d|] eqn:Hdi; [| discriminate]. simpl.
  destruct (retrieve_loop metadata distances (S i) row) as [rest|] eqn:Hrest;
    [| discriminate]. simpl.
  intros H. injection H as <-. left. split; [reflexivity |].
  exists chunk, drow, d, rest. repeat split; assumption.
Qed.

(** Every result of the loop is a metadata entry at a position inside the
    metadata. *)
Lemma retrieve_loop_in_range (metadata : list Chunk)
  (distances : list (list Distance)) (row : list Z) :
  forall i res, retrieve_loop metadata distances i row = Ok res ->
  forall r, In r res ->
  exists idx chunk,
    In idx row /\ 0 <= idx < len metadata
    /\ metadata !! Z.to_nat idx = Some chunk
    /\ r = make_retrieved chunk (r_distance r).
Proof.
  induction row as [|idx row IH]; intros i res Hres r Hr.
  - simpl in Hres. injection Hres as <-. destruct Hr.
  - apply retrieve_loop_cons_inv in Hres
      as [(Hin & chunk & drow & d & rest & Hc & _ & _ & Hrest & ->) | (_ & Hrest)].
    + destruct Hr as [<- | Hr].
      * exists idx, chunk. split; [now left |]. split; [| now split].
        unfold in_range in Hin. apply andb_prop in Hin as [H0 Hn].
        apply Z.leb_le in H0. apply Z.ltb_lt in Hn. lia.
      * destruct (IH _ _ Hrest r Hr) as (idx' & chunk' & Hi & H).
        exists idx', chunk'. split; [now right | exact H].
    + destruct (IH _ _ Hrest r Hr) as (idx' & chunk' & Hi & H).
      exists idx', chunk'. split; [now right | exact H].
Qed.

(** The loop returns one result for each position inside the metadata. *)
Lemma retrieve_loop_length (metadata : list Chunk)
  (distances : list (list Distance)) (row : list Z) :
  forall i res, retrieve_loop metadata distances i row = Ok res ->
  length res = length (List.filter (in_range metadata) row).
Proof.
  induction row as [|idx row IH]; intros i res Hres.
  - simpl in Hres. now injection Hres as <-.
  - apply retrieve_loop_cons_inv in Hres
      as [(Hin & chunk & drow & d & rest & _ & _ & _ & Hrest & ->) | (Hin & Hrest)];
      simpl; rewrite Hin; simpl; erewrite IH; eauto.
Qed.

(** The distances of the results are read off the distance row in order. *)
Lemma retrieve_loop_distances (metadata : list Chunk)
  (distances : list (list Distance)) (drow : list Distance) (row : list Z) :
  distances !! 0%nat = Some drow ->
  forall i res, retrieve_loop metadata distances i row = Ok res ->
  sublist (map r_distance res) (drop i drow).
Proof.
  intros Hd. induction row as [|idx row IH]; intros i res Hres.
  - simpl in Hres. injection Hres as <-. apply sublist_nil_l.
  - apply retrieve_loop_cons_inv in Hres
      as [(_ & chunk & drow' & d & rest & _ & Hd' & Hdi & Hrest & ->) | (_ & Hrest)].
    + rewrite Hd in Hd'. injection Hd' as <-.
      rewrite (drop_S _ _ _ Hdi). simpl. apply sublist_skip. now apply IH.
    + specialize (IH _ _ Hrest).
      etransitivity; [exact IH |].
      destruct (drow !! i) as [d|] eqn:Hdi.
      * rewrite (drop_S _ _ _ Hdi). now apply sublist_cons.
      * rewrite !drop_ge; [reflexivity | |];
          apply lookup_ge_None in Hdi; lia.
Qed.

Lemma retrieve_loop_no_distances (metadata : list Chunk)
  (distances : list (list Distance)) (row : list Z) :
  distances !! 0%nat = None ->
  forall i res, retrieve_loop metadata distances i row = Ok res -> res = [].
Proof.
  intros Hd. induction row as [|idx row IH]; intros i res Hres.
  - simpl in Hres. now injection Hres as <-.
  - apply retrieve_loop_cons_inv in Hres
      as [(_ & chunk & drow' & d & rest & _ & Hd' & _) | (_ & Hrest)].
    + rewrite Hd in Hd'. discriminate Hd'.
    + eapply IH; eassumption.
Qed.

(** *** [retrieve_chunks] *)

(** Every exception of the body is caught: the function returns. *)
Lemma retrieve_chunks_returns (self : RAGPipeline Model Index)
  (query : string) (k : Z) :
  exists res, retrieve_chunks self query k = Ok res.
Proof.
  unfold Store.retrieve_chunks.
  destruct (model self) as [m|]; [| now exists []].
  destruct (index self) as [ix|]; [| now exists []].
  destruct (Chunker.is_nil (chunks_metadata self)); [now exists [] |].
  unfold try_except.
  match goal with |- exists res, match ?b with _ => _ end = _ => destruct b as [res|e] end;
    eexists; reflexivity.
Qed.

(** A result other than the empty list comes out of the loop. *)
Lemma retrieve_chunks_inv (self : RAGPipeline Model Index)
  (query : string) (k : Z) (res : list (Retrieved Distance)) :
  retrieve_chunks self query k = Ok res ->
  res = [] \/
  exists m ix emb distances indices row,
    model self = Some m /\ index self = Some ix
    /\ encode_query m query = Ok emb
    /\ index_search ix emb k = Ok (distances, indices)
    /\ indices !! 0%nat = Some row
    /\ retrieve_loop (chunks_metadata self) distances 0 row = Ok res.
Proof.
  unfold Store.retrieve_chunks.
  destruct (model self) as [m|]; [| intros H; injection H as <-; now left].
  destruct (index self) as [ix|]; [| intros H; injection H as <-; now left].
  destruct (Chunker.is_nil (chunks_metadata self));
    [intros H; injection H as <-; now left |].
  unfold try_except, exc_bind, getitem.
  destruct (encode_query m query) as [emb|] eqn:Eemb;
    [| intros H; injection H as <-; now left].
  destruct (index_search ix emb k) as [[distances indices]|] eqn:Esearch;
    [| intros H; injection H as <-; now left].
  destruct (indices !! 0%nat) as [row|] eqn:Erow;
    [| intros H; injection H as <-; now left].
  destruct (retrieve_loop (chunks_metadata self) distances 0 row) as [res'|] eqn:E;
    intros H; injection H as <-; [right | now left].
  exists m, ix, emb, distances, indices, row. repeat split; assumption.
Qed.

Lemma filter_in_range (metadata : list Chunk) (row : list Z) :
  List.filter (in_range metadata) row
  = List.filter (fun idx => idx <? len metadata)
      (List.filter (fun idx => 0 <=? idx) row).
Proof.
  induction row as [|idx row IH]; [reflexivity |]. simpl. unfold in_range at 1.
  destruct (0 <=? idx); simpl; [| exact IH].
  destruct (idx <? len metadata); [now rewrite IH | exact IH].
Qed.

(** *** The properties of the specification *)

(** C3.  [retrieve_chunks] returns, and each of its results is the
    metadata entry at a position inside [[0, len(metadata))].  When the
    search has a distance for each position it returns, the result is the
    positions resolved in order with those outside the metadata left out:
    such a position costs its own result and nothing else. *)
Theorem retrieve_chunks_positions_in_range (self : RAGPipeline Model Index)
  (query : string) (k : Z) :
  exists res,
    retrieve_chunks self query k = Ok res
    /\ (forall r, In r res ->
        exists idx chunk,
          0 <= idx < len (chunks_metadata self)
          /\ chunks_metadata self !! Z.to_nat idx = Some chunk
          /\ r = make_retrieved chunk (r_distance r))
    /\ (forall m ix emb distances indices drow row,
        model self = Some m -> index self = Some ix ->
        chunks_metadata self <> [] ->
        encode_query m query = Ok emb ->
        index_search ix emb k = Ok (distances, indices) ->
        distances !! 0%nat = Some drow -> indices !! 0%nat = Some row ->
        (length row <= length drow)%nat ->
        res = resolve_positions (chunks_metadata self) drow 0 row
        /\ length res
           = length (List.filter (in_range (chunks_metadata self)) row)).
Proof.
  destruct (retrieve_chunks_returns self query k) as [res Hres].
  exists res. split; [exact Hres |]. split.
  - intros r Hr.
    destruct (retrieve_chunks_inv _ _ _ _ Hres)
      as [-> | (m & ix & emb & ds & ixs & row & _ & _ & _ & _ & _ & Hloop)];
      [destruct Hr |].
    destruct (retrieve_loop_in_range _ _ _ _ _ Hloop r Hr)
      as (idx & chunk & _ & H).
    now exists idx, chunk.
  - intros m ix emb ds ixs drow row Hm Hix Hne Hemb Hsearch Hd Hrow Hlen.
    assert (retrieve_loop (chunks_metadata self) ds 0 row = Ok res) as Hloop.
    { revert Hres. unfold Store.retrieve_chunks. rewrite Hm, Hix.
      destruct (chunks_metadata self); [congruence |]. simpl.
      rewrite Hemb. simpl. rewrite Hsearch. simpl. unfold getitem.
      rewrite Hrow. simpl. rewrite (retrieve_loop_resolves _ _ _ _ Hd) by (simpl; lia).
      simpl. intros H. injection H as <-. reflexivity. }
    split; [| eapply retrieve_loop_length; exact Hloop].
    rewrite (retrieve_loop_resolves _ _ _ _ Hd) in Hloop by (simpl; lia).
    now injection Hloop as <-.
Qed.

(** C2.  Under the contract of the faiss search (at most [k] positions,
    no stored vector twice, distances in non-decreasing order), for every
    query and every [k >= 1] [retrieve_chunks] returns at most
    [min(k, len(metadata))] results, in non-decreasing order of distance. *)
Theorem retrieve_chunks_bounded_sorted (dle : Distance -> Distance -> Prop)
  (self : RAGPipeline Model Index) (query : string) (k : Z) :
  (forall x y z, dle x y -> dle y z -> dle x z) ->
  1 <= k ->
  (forall m ix emb found,
     model self = Some m -> index self = Some ix ->
     encode_query m query = Ok emb -> index_search ix emb k = Ok found ->
     search_contract dle k found) ->
  exists res,
    retrieve_chunks self query k = Ok res
    /\ len res <= Z.min k (len (chunks_metadata self))
    /\ Sorted dle (map r_distance res).
Proof.
  intros Htrans Hk Hcontract.
  destruct (retrieve_chunks_returns self query k) as [res Hres].
  exists res. split; [exact Hres |].
  destruct (retrieve_chunks_inv _ _ _ _ Hres)
    as [-> | (m & ix & emb & ds & ixs & row & Hm & Hix & Hemb & Hsearch & Hrow & Hloop)].
  { split; [unfold len; simpl; lia | constructor]. }
  destruct (ds !! 0%nat) as [drow|] eqn:Hd.
  2:{ rewrite (retrieve_loop_no_distances _ _ _ Hd _ _ Hloop).
      split; [unfold len; simpl; lia | constructor]. }
  destruct (Hcontract m ix emb (ds, ixs) Hm Hix Hemb Hsearch drow row Hd Hrow)
    as (Hlen & Hnodup & Hsorted).
  pose proof (retrieve_loop_length _ _ _ _ _ Hloop) as Hcount.
  split.
  - unfold len in *. rewrite Hcount. apply Z.min_glb.
    + pose proof (filter_length_le (in_range (chunks_metadata self)) row). lia.
    + apply inj_le. apply nodup_in_range_length.
      * rewrite filter_in_range. now apply List.NoDup_filter.
      * intros x Hx. apply filter_In in Hx as [_ Hx].
        unfold in_range, len in Hx. apply andb_prop in Hx as [H0 Hn].
        apply Z.leb_le in H0. apply Z.ltb_lt in Hn. lia.
  - apply StronglySorted_Sorted.
    eapply strongly_sorted_sublist.
    + exact (retrieve_loop_distances _ _ _ _ Hd _ _ Hloop).
    + rewrite drop_0. apply Sorted_StronglySorted; [exact Htrans | exact Hsorted].
Qed.

(** C6, as the code has it.  [retrieve_chunks] never raises: it returns a
    list, and the list is empty when the pipeline is not fully initialised,
    when embedding the query raises, and when the index search raises, which
    is what an invalid [k] comes to.  (An empty query is embedded and
    searched like any other.) *)
Theorem retrieve_chunks_never_raises (self : RAGPipeline Model Index)
  (query : string) (k : Z) :
  exists res,
    retrieve_chunks self query k = Ok res
    /\ (model self = None \/ index self = None \/ chunks_metadata self = [] ->
        res = [])
    /\ (forall m e,
        model self = Some m -> encode_query m query = Raise e -> res = [])
    /\ (forall m ix emb e,
        model self = Some m -> index self = Some ix ->
        encode_query m query = Ok emb -> index_search ix emb k = Raise e ->
        res = []).
Proof.
  destruct (retrieve_chunks_returns self query k) as [res Hres].
  exists res. split; [exact Hres |].
  unfold Store.retrieve_chunks in Hres. repeat split.
  - intros [H | [H | H]]; rewrite H in Hres.
    + now injection Hres as <-.
    + destruct (model self); now injection Hres as <-.
    + destruct (model self), (index self); now injection Hres as <-.
  - intros m e Hm He. rewrite Hm, He in Hres.
    destruct (index self), (chunks_metadata self); now injection Hres as <-.
  - intros m ix emb e Hm Hix Hemb He. rewrite Hm, Hix, Hemb in Hres.
    simpl in Hres. rewrite He in Hres.
    destruct (chunks_metadata self); now injection Hres as <-.
Qed.

End WithCapabilities.

Lemma retrieve_chunks_positions_in_range_witness :
  exists res,
    Store.retrieve_chunks Scenario.embed_any Scenario.flat_search
      Scenario.mismatched_pipeline "revenue" 5 = Ok res
    /\ res = resolve_positions [Scenario.chunk_0007; Scenario.chunk_0008]
               [0; 1; 2; 1000000; 1000000] 0 [0; 1; 2; -1; -1]
    /\ length res = 2%nat.
Proof.
  destruct (retrieve_chunks_positions_in_range unit nat unit Z
              Scenario.embed_any Scenario.flat_search
              Scenario.mismatched_pipeline "revenue" 5)
    as (res & Hres & _ & Hspec).
  exists res. split; [exact Hres |].
  apply (Hspec tt 3%nat tt [[0; 1; 2; 1000000; 1000000]] [[0; 1; 2; -1; -1]]);
    [reflexivity | reflexivity | discriminate | reflexivity | reflexivity
    | reflexivity | reflexivity | simpl; lia].
Defined.

Lemma retrieve_chunks_bounded_sorted_witness :
  exists res,
    Store.retrieve_chunks Scenario.embed_any Scenario.flat_search
      Scenario.mismatched_pipeline "revenue" 5 = Ok res
    /\ len res <= Z.min 5 2
    /\ Sorted Z.le (map r_distance res).
Proof.
  apply (retrieve_chunks_bounded_sorted unit nat unit Z
           Scenario.embed_any Scenario.flat_search Z.le
           Scenario.mismatched_pipeline "revenue" 5).
  - intros x y z Hxy Hyz. exact (Z.le_trans x y z Hxy Hyz).
  - lia.
  - intros m ix emb found _ Hix _ Hsearch. injection Hix as <-.
    vm_compute in Hsearch. injection Hsearch as <-.
    intros drow row Hd Hrow. injection Hd as <-. injection Hrow as <-.
    split; [vm_compute; discriminate |]. split.
    + simpl. repeat constructor; simpl; intuition discriminate.
    + repeat constructor; lia.
Defined.

Lemma retrieve_chunks_never_raises_witness :
  Store.retrieve_chunks Scenario.embed_any Scenario.flat_search
    Scenario.pipeline "revenue" 0 = Ok [].
Proof.
  destruct (retrieve_chunks_never_raises unit nat unit Z
              Scenario.embed_any Scenario.flat_search
              Scenario.pipeline "revenue" 0)
    as (res & Hres & _ & _ & Hsearch).
  rewrite Hres. f_equal.
  apply (Hsearch tt 2%nat tt "k must be positive"); reflexivity.
Defined.

(** C6 as stated fails: the empty query is answered like any other. *)
Lemma retrieve_chunks_empty_query :
  Store.retrieve_chunks Scenario.embed_any Scenario.flat_search
    Scenario.pipeline EmptyString 5
  = Ok [make_retrieved Scenario.chunk_0007 0;
        make_retrieved Scenario.chunk_0008 1]
  /\ Store.retrieve_chunks Scenario.embed_any Scenario.flat_search
       Scenario.pipeline EmptyString 5 <> Ok [].
Proof. split; [reflexivity | discriminate]. Qed.

(** *** Loading the persisted index *)

Section Loading.

Variables Model Index Embeddings FileData : Type.
Variable encode_texts : Model -> list string -> exc Embeddings.
Variable build_flat_index : Embeddings -> exc Index.
Variable read_index : FileData -> exc Index.
Variable write_index : Index -> exc FileData.
Variable json_load : FileData -> exc (list Chunk).

Local Abbreviation load_or_create_index :=
  (Store.load_or_create_index encode_texts build_flat_index read_index
     write_index json_load).
Local Abbreviation rebuild :=
  (Store._create_and_save_embeddings_and_index encode_texts build_flat_index
     write_index json_load).

(** A missing file sends the load to the rebuild. *)
Lemma load_rebuilds_when_file_missing (self : RAGPipeline Model Index)
  (disk : Disk FileData) :
  FAISS_INDEX_PATH disk = None \/ CHUNK_METADATA_PATH disk = None ->
  load_or_create_index self disk = rebuild self disk.
Proof.
  unfold Store.load_or_create_index. intros [H | H]; rewrite H; simpl.
  - reflexivity.
  - now rewrite andb_false_r.
Qed.

(** So does an index file that cannot be read. *)
Lemma load_rebuilds_when_index_unreadable (self : RAGPipeline Model Index)
  (disk : Disk FileData) (f_index f_meta : FileData) (e : string) :
  FAISS_INDEX_PATH disk = Some f_index ->
  CHUNK_METADATA_PATH disk = Some f_meta ->
  read_index f_index = Raise e ->
  load_or_create_index self disk = rebuild self disk.
Proof.
  unfold Store.load_or_create_index. intros -> -> H. simpl. now rewrite H.
Qed.

(** The rebuild reports failure when the metadata cannot be loaded. *)
Lemma rebuild_fails_without_metadata (self : RAGPipeline Model Index)
  (disk : Disk FileData) (f_meta : FileData) (e : string) :
  CHUNK_METADATA_PATH disk = Some f_meta ->
  json_load f_meta = Raise e ->
  fst (fst (rebuild self disk)) = false.
Proof.
  unfold Store._create_and_save_embeddings_and_index, Store._load_chunks_metadata.
  intros -> ->. now destruct (model self).
Qed.

(** C7 fails on the code.  When both files exist and the index file loads
    but loading the metadata raises, [load_or_create_index] drops the flag
    of [_load_chunks_metadata]: it reports success, keeps the loaded index
    with the metadata the pipeline had before, and does not rebuild. *)
Theorem load_reports_success_without_metadata (self : RAGPipeline Model Index)
  (disk : Disk FileData) (f_index f_meta : FileData) (ix : Index)
  (e : string) :
  FAISS_INDEX_PATH disk = Some f_index ->
  CHUNK_METADATA_PATH disk = Some f_meta ->
  read_index f_index = Ok ix ->
  json_load f_meta = Raise e ->
  load_or_create_index self disk = (true, set_index self ix, disk)
  /\ fst (fst (rebuild self disk)) = false.
Proof.
  intros Hindex Hmeta Hread Hload. split.
  - unfold Store.load_or_create_index, Store._load_chunks_metadata.
    rewrite Hindex, Hmeta. simpl. rewrite Hread, Hload. reflexivity.
  - eapply rebuild_fails_without_metadata; eassumption.
Qed.

End Loading.

Lemma load_reports_success_without_metadata_witness :
  Store.load_or_create_index Scenario.encode_texts Scenario.build_flat_index
    Scenario.read_index Scenario.write_index Scenario.json_load
    Scenario.fresh_pipeline Scenario.disk_truncated_metadata
  = (true,
     {| model := Some tt; index := Some 2%nat; chunks_metadata := [] |},
     Scenario.disk_truncated_metadata)
  /\ fst (fst (Store._create_and_save_embeddings_and_index
                 Scenario.encode_texts Scenario.build_flat_index
                 Scenario.write_index Scenario.json_load
                 Scenario.fresh_pipeline Scenario.disk_truncated_metadata))
     = false.
Proof.
  apply (load_reports_success_without_metadata unit nat nat string
           Scenario.encode_texts Scenario.build_flat_index Scenario.read_index
           Scenario.write_index Scenario.json_load Scenario.fresh_pipeline
           Scenario.disk_truncated_metadata "faiss:2" "[{" 2%nat
           "Expecting value: line 1 column 1 (char 0)");
    reflexivity.
Defined.

End StoreFacts.

(** ** The query orchestrator *)

Module AgentFacts.
Import Py Store Agent Spec PyFacts.

(** *** Prefixes of strings *)

Lemma length_append (a b : string) :
  String.length (a ++ b) = (String.length a + String.length b)%nat.
Proof.
  induction a as [|c a IH]; [reflexivity |].
  rewrite append_cons. simpl. now rewrite IH.
Qed.

Lemma str_prefix_length (n : nat) (s : string) :
  (String.length (str_prefix n s) <= n)%nat.
Proof.
  unfold str_prefix. revert s. induction n as [|n IH]; intros [|c s]; simpl;
    try lia.
  specialize (IH s). lia.
Qed.

Lemma str_prefix_is_prefix (n : nat) (s : string) :
  is_prefix (str_prefix n s) s.
Proof.
  unfold str_prefix. revert s. induction n as [|n IH]; intros [|c s]; simpl;
    try apply is_prefix_nil.
  apply is_prefix_cons, IH.
Qed.

Lemma str_prefix_short (n : nat) (s : string) :
  (String.length s <= n)%nat -> str_prefix n s = s.
Proof.
  unfold str_prefix. revert s. induction n as [|n IH]; intros [|c s] H;
    simpl in *; try reflexivity; try lia.
  f_equal. apply IH. lia.
Qed.

(** *** Deduplication *)

Section Dedup.

Variable Distance : Type.
Implicit Types (chunk c : Retrieved Distance) (seen : list string).
Implicit Types (chunks all : list (Retrieved Distance)).

Lemma seen_spec (key : string) seen :
  existsb (String.eqb key) seen = true <-> In key seen.
Proof.
  rewrite existsb_exists. split.
  - intros (k & Hk & E). apply String.eqb_eq in E. now subst.
  - intros H. exists key. split; [exact H | apply String.eqb_refl].
Qed.

Lemma dict_contains_seen (key : string) (d : list (string * Retrieved Distance)) :
  dict_contains key d = existsb (String.eqb key) (map fst d).
Proof.
  unfold dict_contains. induction d as [|[k c] d IH]; [reflexivity |].
  simpl. now rewrite IH, String.eqb_sym.
Qed.

(** The dictionary loop computes the first occurrences. *)
Lemma fold_dedup_step all :
  forall d : list (string * Retrieved Distance),
  map snd (fold_left dedup_step all d)
  = (map snd d ++ first_occurrences (map fst d) all)%list.
Proof.
  induction all as [|c all IH]; intros d; simpl.
  - now rewrite app_nil_r.
  - unfold dedup_step at 2. rewrite dict_contains_seen.
    destruct (existsb (String.eqb (chunk_key c)) (map fst d)); simpl.
    + apply IH.
    + rewrite IH, !map_app, <- app_assoc. reflexivity.
Qed.

Lemma deduplicate_first_occurrences all :
  deduplicate all = first_occurrences [] all.
Proof. unfold deduplicate. now rewrite fold_dedup_step. Qed.

Lemma first_occurrences_keys seen all (key : string) :
  In key (map chunk_key (first_occurrences seen all))
  <-> In key (map chunk_key all) /\ ~ In key seen.
Proof.
  revert seen. induction all as [|c all IH]; intros seen; simpl.
  - tauto.
  - destruct (existsb (String.eqb (chunk_key c)) seen) eqn:E.
    + apply seen_spec in E. rewrite IH. split.
      * intros [H1 H2]. tauto.
      * intros [[<- | H1] H2]; tauto.
    + assert (~ In (chunk_key c) seen) as Hc.
      { intros H. apply seen_spec in H. congruence. }
      simpl. rewrite IH, in_app_iff. simpl.
      destruct (String.string_dec (chunk_key c) key) as [<- | Hne]; tauto.
Qed.

Lemma first_occurrences_nodup seen all :
  List.NoDup (map chunk_key (first_occurrences seen all)).
Proof.
  revert seen. induction all as [|c all IH]; intros seen; simpl.
  - constructor.
  - destruct (existsb (String.eqb (chunk_key c)) seen); [apply IH |].
    simpl. constructor; [| apply IH].
    rewrite first_occurrences_keys, in_app_iff. simpl. tauto.
Qed.

Lemma first_occurrences_all_seen seen chunks :
  (forall c, In c chunks -> In (chunk_key c) seen) ->
  first_occurrences seen chunks = [].
Proof.
  induction chunks as [|c chunks IH]; intros H; simpl; [reflexivity |].
  assert (existsb (String.eqb (chunk_key c)) seen = true) as ->
    by (apply seen_spec, H; now left).
  apply IH. intros c' Hc'. apply H. now right.
Qed.

Lemma first_occurrences_app seen all chunks :
  first_occurrences seen (all ++ chunks)
  = (first_occurrences seen all
     ++ first_occurrences
          (seen ++ map chunk_key (first_occurrences seen all)) chunks)%list.
Proof.
  revert seen. induction all as [|c all IH]; intros seen; simpl.
  - now rewrite app_nil_r.
  - destruct (existsb (String.eqb (chunk_key c)) seen); [apply IH |].
    simpl. rewrite IH, <- app_assoc. reflexivity.
Qed.

(** In a list with distinct keys, a key that occurs has one entry. *)
Lemma entries_for_nodup (key : string) chunks :
  List.NoDup (map chunk_key chunks) -> In key (map chunk_key chunks) ->
  entries_for key chunks = 1%nat.
Proof.
  unfold entries_for. induction chunks as [|c chunks IH]; simpl;
    intros Hnd Hin; [destruct Hin |].
  apply List.NoDup_cons_iff in Hnd as [Hc Hnd].
  destruct (String.eqb_spec (chunk_key c) key) as [E | E]; simpl.
  - subst key. f_equal.
    assert (forall l, ~ In (chunk_key c) (map chunk_key l) ->
            List.filter (fun c0 => String.eqb (chunk_key c0) (chunk_key c)) l = [])
      as Hnone.
    { induction l as [|x l IHl]; simpl; intros Hx; [reflexivity |].
      destruct (String.eqb_spec (chunk_key x) (chunk_key c)) as [E | E];
        [exfalso; apply Hx; now left |].
      apply IHl. intros H. apply Hx. now right. }
    now rewrite Hnone.
  - apply IH; [exact Hnd |]. destruct Hin as [H | H]; [contradiction | exact H].
Qed.

End Dedup.

(** C9.  Deduplication keeps the first occurrence of each key, in
    first-seen order, and no key twice.  Results whose keys were all seen
    before change nothing when merged in, so running the same sub-query
    twice leaves the deduplicated set as it was; and a passage retrieved by
    several sub-queries has exactly one entry under its key. *)
Theorem deduplicate_first_seen_idempotent {Distance : Type}
  (all : list (Retrieved Distance)) :
  deduplicate all = first_occurrences [] all
  /\ List.NoDup (map chunk_key (deduplicate all))
  /\ (forall again : list (Retrieved Distance),
      (forall c, In c again -> In (chunk_key c) (map chunk_key all)) ->
      deduplicate (all ++ again) = deduplicate all)
  /\ length (deduplicate (all ++ all)) = length (deduplicate all)
  /\ (forall c, In c all -> entries_for (chunk_key c) (deduplicate all) = 1%nat).
Proof.
  assert (forall again : list (Retrieved Distance),
           (forall c, In c again -> In (chunk_key c) (map chunk_key all)) ->
           deduplicate (all ++ again) = deduplicate all) as Hagain.
  { intros again H. rewrite !deduplicate_first_occurrences.
    rewrite (first_occurrences_app _ [] all again).
    rewrite (first_occurrences_all_seen _ _ again); [apply app_nil_r |].
    intros c Hc. simpl. apply first_occurrences_keys. split; [now apply H | tauto]. }
  split; [apply deduplicate_first_occurrences |].
  split; [rewrite deduplicate_first_occurrences; apply first_occurrences_nodup |].
  split; [exact Hagain |].
  split.
  - rewrite Hagain; [reflexivity |]. intros c Hc. now apply in_map.
  - intros c Hc. apply entries_for_nodup.
    + rewrite deduplicate_first_occurrences. apply first_occurrences_nodup.
    + rewrite deduplicate_first_occurrences. apply first_occurrences_keys.
      split; [now apply in_map | tauto].
Qed.

Lemma deduplicate_first_seen_idempotent_witness :
  entries_for "GOOGL_2023_chunk_0007"
    (deduplicate [make_retrieved Scenario.chunk_0007 0;
                  make_retrieved Scenario.chunk_0008 1;
                  make_retrieved Scenario.chunk_0007 3]) = 1%nat
  /\ deduplicate ([make_retrieved Scenario.chunk_0007 0;
                   make_retrieved Scenario.chunk_0008 1]
                  ++ [make_retrieved Scenario.chunk_0007 3])
     = deduplicate [make_retrieved Scenario.chunk_0007 0;
                    make_retrieved Scenario.chunk_0008 1].
Proof.
  split.
  - destruct (deduplicate_first_seen_idempotent
                [make_retrieved Scenario.chunk_0007 0;
                 make_retrieved Scenario.chunk_0008 1;
                 make_retrieved Scenario.chunk_0007 3])
      as (_ & _ & _ & _ & Hone).
    apply (Hone (make_retrieved Scenario.chunk_0007 3)). simpl. tauto.
  - destruct (deduplicate_first_seen_idempotent
                [make_retrieved Scenario.chunk_0007 0;
                 make_retrieved Scenario.chunk_0008 1])
      as (_ & _ & Hagain & _).
    apply Hagain. intros c [<- | []]. simpl. tauto.
Defined.

(** *** Synthesis and packaging *)

Lemma is_prefix_length (p t : string) :
  is_prefix p t -> (String.length p <= String.length t)%nat.
Proof. intros [r ->]. rewrite length_append. lia. Qed.

Section WithCapabilities.

Variables Model Index Embedding Distance : Type.
Variable encode_query : Model -> string -> exc Embedding.
Variable index_search :
  Index -> Embedding -> Z -> exc (list (list Distance) * list (list Z)).
Variable generate_content : string -> Temperature -> exc string.
Variable rag_pipeline : RAGPipeline Model Index.

Local Abbreviation retrieve_chunks :=
  (Store.retrieve_chunks encode_query index_search rag_pipeline).
Local Abbreviation retrieve_all :=
  (Agent.retrieve_all encode_query index_search rag_pipeline).
Local Abbreviation plan_sub_queries := (Agent.plan_sub_queries generate_content).
Local Abbreviation _synthesize_answer := (Agent._synthesize_answer generate_content).
Local Abbreviation answer_query :=
  (Agent.answer_query encode_query index_search generate_content rag_pipeline).

Lemma prepare_context_sources (data : list (Retrieved Distance)) :
  forall i context_str sources_for_output,
  snd (prepare_context i data context_str sources_for_output)
  = (sources_for_output ++ map source_of data)%list.
Proof.
  induction data as [|d data IH]; intros i ctx srcs; simpl.
  - now rewrite app_nil_r.
  - rewrite IH, <- app_assoc. reflexivity.
Qed.

(** Without retrieved data the synthesis answers at once and leaves the
    generation capability alone. *)
Lemma synthesize_nothing_retrieved (original_query : string)
  (sub_queries : list string) (log : CallLog) :
  _synthesize_answer original_query ([] : list (Retrieved Distance))
    sub_queries log
  = (("Could not find relevant information to answer the query.",
      "No relevant data retrieved.", []), log).
Proof. reflexivity. Qed.

(** The sources of the synthesis are the retrieved data, entry by entry. *)
Lemma synthesize_sources (original_query : string)
  (data : list (Retrieved Distance)) (sub_queries : list string)
  (log : CallLog) :
  snd (fst (_synthesize_answer original_query data sub_queries log))
  = map source_of data.
Proof.
  unfold Agent._synthesize_answer.
  destruct data as [|d data]; [reflexivity |].
  cbn [Chunker.is_nil].
  pose proof (prepare_context_sources (d :: data) 0 EmptyString []) as H.
  destruct (prepare_context 0 (d :: data) EmptyString []) as [ctx srcs].
  simpl in H. subst srcs.
  destruct (_call_llm _ _ _ _) as [raw log1]. reflexivity.
Qed.

Lemma retrieve_all_nothing (sub_queries : list string) :
  (forall sub_q, In sub_q sub_queries -> retrieve_chunks sub_q 5 = Ok []) ->
  forall all_retrieved_chunks,
  retrieve_all sub_queries all_retrieved_chunks = Ok all_retrieved_chunks.
Proof.
  induction sub_queries as [|q qs IH]; intros H acc; simpl; [reflexivity |].
  rewrite H by now left. simpl. rewrite app_nil_r.
  apply IH. intros sub_q Hq. apply H. now right.
Qed.

(** Planning calls the generation capability once for a complex query,
    with the decomposition prompt, and not at all otherwise. *)
Lemma plan_sub_queries_log (query : string) (log : CallLog) :
  snd (plan_sub_queries query log)
  = (log ++ (if is_complex query
             then [(decomposition_prompt query, temperature_0_0)]
             else []))%list.
Proof.
  unfold Agent.plan_sub_queries.
  destruct (is_complex query); [| now rewrite app_nil_r].
  unfold _decompose_query, _call_llm.
  match goal with |- context [negb (Chunker.is_nil ?l)] =>
    destruct (negb (Chunker.is_nil l)) end; reflexivity.
Qed.

(** *** The properties of the specification *)

(** C8.  When retrieval returns no passage for every sub-query,
    [answer_query] gives the fixed answer with no sources, and the
    synthesis makes no call to the generation capability: the calls made
    are those of the planning, one decomposition call for a complex query
    and none otherwise. *)
Theorem empty_retrieval_short_circuit (query : string) (log : CallLog) :
  (forall sub_q, In sub_q (fst (plan_sub_queries query log)) ->
     retrieve_chunks sub_q 5 = Ok []) ->
  answer_query query log
  = (Ok {| Agent.query := query;
           answer := "Could not find relevant information to answer the query.";
           reasoning := "No relevant data retrieved.";
           sub_queries := fst (plan_sub_queries query log);
           sources := [] |},
     (log ++ (if is_complex query
              then [(decomposition_prompt query, temperature_0_0)]
              else []))%list).
Proof.
  intros Hnone. rewrite <- plan_sub_queries_log.
  unfold Agent.answer_query.
  destruct (Agent.plan_sub_queries generate_content query log)
    as [subs log1] eqn:Eplan.
  simpl in Hnone |- *.
  rewrite (retrieve_all_nothing subs Hnone []). reflexivity.
Qed.

(** C10, as the code has it.  Each entry of [sources] belongs to one
    deduplicated passage, and its excerpt is the first 200 characters of the
    passage text followed by three dots: at most 203 characters.  A passage
    of more than 203 characters is never carried in full; a passage of at
    most 200 characters is. *)
Theorem sources_carry_bounded_excerpts (query : string) (log log' : CallLog)
  (out : Output) :
  answer_query query log = (Ok out, log') ->
  exists all_retrieved_chunks,
    retrieve_all (fst (plan_sub_queries query log)) [] = Ok all_retrieved_chunks
    /\ Forall2
         (fun data s =>
            s = source_of data
            /\ excerpt s = (str_prefix 200 (r_text data) ++ "...")%string
            /\ (String.length (excerpt s) <= 203)%nat
            /\ is_prefix (str_prefix 200 (r_text data)) (r_text data)
            /\ ((203 < String.length (r_text data))%nat ->
                withholds_text (r_text data) (excerpt s))
            /\ ((String.length (r_text data) <= 200)%nat ->
                excerpt s = (r_text data ++ "...")%string))
         (deduplicate all_retrieved_chunks) (sources out).
Proof.
  unfold Agent.answer_query.
  destruct (Agent.plan_sub_queries generate_content query log)
    as [subs log1] eqn:Eplan.
  simpl.
  destruct (Agent.retrieve_all encode_query index_search rag_pipeline subs [])
    as [all|e]; [| discriminate].
  pose proof (synthesize_sources query (deduplicate all) subs log1) as Hsrc.
  destruct (Agent._synthesize_answer generate_content query (deduplicate all)
              subs log1) as [[[final_answer reasoning] srcs] log2].
  simpl in Hsrc. subst srcs.
  intros H. injection H as <- <-. exists all. split; [reflexivity |].
  cbn [sources].
  induction (deduplicate all) as [|d data IH]; constructor; [| exact IH].
  assert (String.length (excerpt (source_of d)) <= 203)%nat as Hlen.
  { cbn [excerpt source_of]. rewrite length_append. simpl.
    pose proof (str_prefix_length 200 (r_text d)). lia. }
  repeat split.
  - exact Hlen.
  - apply str_prefix_is_prefix.
  - intros Hlong Hfull. apply is_prefix_length in Hfull. lia.
  - intros Hshort. cbn [excerpt source_of].
    now rewrite str_prefix_short.
Qed.

End WithCapabilities.

Lemma empty_retrieval_short_circuit_witness :
  Agent.answer_query Scenario.embed_any Scenario.flat_search
    Scenario.generate_content Scenario.fresh_pipeline
    "Compare GOOGL revenue and costs" []
  = (Ok {| Agent.query := "Compare GOOGL revenue and costs";
           answer := "Could not find relevant information to answer the query.";
           reasoning := "No relevant data retrieved.";
           sub_queries := ["GOOGL revenue 2023"; "GOOGL costs 2023"];
           sources := [] |},
     [(decomposition_prompt "Compare GOOGL revenue and costs",
       temperature_0_0)]).
Proof.
  apply (empty_retrieval_short_circuit unit nat unit Z Scenario.embed_any
           Scenario.flat_search Scenario.generate_content
           Scenario.fresh_pipeline "Compare GOOGL revenue and costs" []).
  intros sub_q _. reflexivity.
Defined.

Lemma sources_carry_bounded_excerpts_witness :
  exists all_retrieved_chunks,
    Agent.retrieve_all Scenario.embed_any Scenario.flat_search Scenario.pipeline
      ["GOOGL revenue"] [] = Ok all_retrieved_chunks
    /\ Forall2
         (fun data s =>
            s = source_of data
            /\ excerpt s = (str_prefix 200 (r_text data) ++ "...")%string
            /\ (String.length (excerpt s) <= 203)%nat
            /\ is_prefix (str_prefix 200 (r_text data)) (r_text data)
            /\ ((203 < String.length (r_text data))%nat ->
                withholds_text (r_text data) (excerpt s))
            /\ ((String.length (r_text data) <= 200)%nat ->
                excerpt s = (r_text data ++ "...")%string))
         (deduplicate all_retrieved_chunks)
         [source_of (make_retrieved Scenario.chunk_0007 0);
          source_of (make_retrieved Scenario.chunk_0008 1)].
Proof.
  apply (sources_carry_bounded_excerpts unit nat unit Z Scenario.embed_any
           Scenario.flat_search Scenario.generate_content Scenario.pipeline
           "GOOGL revenue" []
           [(synthesis_prompt "GOOGL revenue" ["GOOGL revenue"]
               (context_entry 0 (make_retrieved Scenario.chunk_0007 0)
                ++ context_entry 1 (make_retrieved Scenario.chunk_0008 1))%string,
             temperature_0_1)]
           {| Agent.query := "GOOGL revenue";
              answer := "Revenue grew.";
              reasoning :=
                ("Retrieved relevant information and synthesized the answer."
                 ++ nl ++ "stated in the filing.")%string;
              sub_queries := ["GOOGL revenue"];
              sources := [source_of (make_retrieved Scenario.chunk_0007 0);
                          source_of (make_retrieved Scenario.chunk_0008 1)] |}).
  vm_compute. reflexivity.
Defined.

(** C10 as stated fails: the excerpt of a short passage is the passage in
    full, with three dots after it. *)
Lemma excerpt_carries_short_passage :
  exists out log',
    Agent.answer_query Scenario.embed_any Scenario.flat_search
      Scenario.generate_content Scenario.pipeline "GOOGL revenue" []
    = (Ok out, log')
    /\ exists s,
         In s (sources out)
         /\ excerpt s = (text Scenario.chunk_0007 ++ "...")%string
         /\ ~ withholds_text (text Scenario.chunk_0007) (excerpt s).
Proof.
  eexists. eexists. split; [vm_compute; reflexivity |].
  eexists. split; [left; reflexivity |]. split; [reflexivity |].
  intros H. apply H. exists "...". reflexivity.
Qed.

End AgentFacts.

(** ** Text cleaning *)

Module CleanFacts.
Import Py Chunker PyFacts.

Import Shape.

Lemma lstrip_idem (s : string) : lstrip (lstrip s) = lstrip s.
Proof.
  induction s as [|c s IH]; [reflexivity |]. simpl.
  destruct (is_space c) eqn:E; [exact IH |]. simpl. now rewrite E.
Qed.

Lemma rstrip_idem (s : string) : rstrip (rstrip s) = rstrip s.
Proof.
  induction s as [|c s IH]; [reflexivity |]. simpl.
  destruct (rstrip s) as [|x r] eqn:Er.
  - destruct (is_space c) eqn:E; [reflexivity |]. simpl. now rewrite E.
  - change (rstrip (String c (String x r))) with
      (match rstrip (String x r) with
       | EmptyString => if is_space c then EmptyString else String c EmptyString
       | r' => String c r'
       end).
    now rewrite IH.
Qed.

Lemma strip_comm (s : string) : rstrip (lstrip s) = lstrip (rstrip s).
Proof.
  induction s as [|c s IH]; [reflexivity |]. simpl.
  destruct (is_space c) eqn:E.
  - rewrite IH. destruct (rstrip s) as [|x r]; [reflexivity |].
    simpl. now rewrite E.
  - change (rstrip (String c s)) with
      (match rstrip s with
       | EmptyString => if is_space c then EmptyString else String c EmptyString
       | r' => String c r'
       end).
    rewrite E. destruct (rstrip s); simpl; now rewrite E.
Qed.

Lemma strip_idem (s : string) : strip (strip s) = strip s.
Proof.
  unfold strip. rewrite (strip_comm (rstrip s)), rstrip_idem, lstrip_idem.
  reflexivity.
Qed.

Lemma single_spaced_weaken (s : string) :
  single_spaced true s = true -> single_spaced false s = true.
Proof.
  destruct s as [|c s]; [reflexivity |]. simpl.
  destruct (is_space c); [| trivial].
  rewrite andb_false_r. discriminate.
Qed.

Lemma sub_whitespace_single_spaced (s : string) :
  forall b, single_spaced b (sub_whitespace b s) = true.
Proof.
  induction s as [|c s IH]; intros b; [reflexivity |]. simpl.
  destruct (is_space c) eqn:E.
  - destruct b; [apply IH |]. simpl. apply IH.
  - simpl. rewrite E. apply IH.
Qed.

Lemma sub_whitespace_fixed (s : string) :
  forall b, single_spaced b s = true -> sub_whitespace b s = s.
Proof.
  induction s as [|c s IH]; intros b H; [reflexivity |]. simpl in *.
  destruct (is_space c) eqn:E.
  - apply andb_prop in H as [H Hs]. apply andb_prop in H as [Hc Hb].
    apply Ascii.eqb_eq in Hc. subst c.
    destruct b; [discriminate Hb |]. f_equal. now apply IH.
  - f_equal. now apply IH.
Qed.

Lemma lstrip_single_spaced (s : string) :
  forall b, single_spaced b s = true -> single_spaced false (lstrip s) = true.
Proof.
  induction s as [|c s IH]; intros b H; [reflexivity |]. simpl in *.
  destruct (is_space c) eqn:E.
  - apply andb_prop in H as [_ Hs]. now apply (IH true).
  - simpl. now rewrite E.
Qed.

Lemma rstrip_single_spaced (s : string) :
  forall b, single_spaced b s = true -> single_spaced b (rstrip s) = true.
Proof.
  induction s as [|c s IH]; intros b H; [reflexivity |]. simpl in *.
  destruct (is_space c) eqn:E.
  - apply andb_prop in H as [H Hs]. specialize (IH true Hs).
    destruct (rstrip s) as [|x r]; [reflexivity |].
    cbn [single_spaced]. rewrite E, H. exact IH.
  - specialize (IH false H).
    destruct (rstrip s) as [|x r]; cbn [single_spaced]; rewrite E;
      [reflexivity | exact IH].
Qed.

Lemma strip_single_spaced (s : string) :
  single_spaced false s = true -> single_spaced false (strip s) = true.
Proof.
  intros H. unfold strip.
  now apply (lstrip_single_spaced _ false), rstrip_single_spaced.
Qed.

(** X1.  The text [clean_text] returns has no white space at either end,
    and inside it every white space character is a single space standing
    alone: tabs, line breaks and runs of blanks are gone. *)
Theorem clean_text_normal_form (text : string) :
  single_spaced false (clean_text text) = true /\ trimmed (clean_text text).
Proof.
  unfold clean_text, trimmed. split.
  - apply strip_single_spaced, sub_whitespace_single_spaced.
  - apply strip_idem.
Qed.

(** X2.  [clean_text] leaves a text alone exactly when the text is already
    in that form; so cleaning twice is cleaning once. *)
Theorem clean_text_fixed_points (text : string) :
  (clean_text text = text <->
   single_spaced false text = true /\ trimmed text)
  /\ clean_text (clean_text text) = clean_text text.
Proof.
  assert (forall t, single_spaced false t = true -> trimmed t ->
                    clean_text t = t) as Hfix.
  { intros t Hs Ht. unfold clean_text. now rewrite sub_whitespace_fixed. }
  assert (forall t, single_spaced false (clean_text t) = true
                    /\ trimmed (clean_text t)) as Htidy.
  { intros t. unfold clean_text, trimmed.
    split; [apply strip_single_spaced, sub_whitespace_single_spaced
           | apply strip_idem]. }
  split.
  - split.
    + intros <-. apply Htidy.
    + intros [Hs Ht]. now apply Hfix.
  - apply Hfix; apply Htidy.
Qed.

Lemma clean_text_fixed_points_witness :
  clean_text "Item 7. Management's Discussion"
  = "Item 7. Management's Discussion".
Proof.
  destruct (clean_text_fixed_points "Item 7. Management's Discussion")
    as [[_ Hfix] _].
  apply Hfix. split; reflexivity.
Defined.

End CleanFacts.

(** ** More on the chunker *)

Module ChunkerMore.
Import Py Chunker Spec PyFacts.

(** A text without the first character of [sep] is not split by [sep]. *)
Lemma prefix_nil (s : string) : String.prefix EmptyString s = true.
Proof. now destruct s. Qed.

Lemma contains_char_cons (c d : ascii) (s : string) :
  contains (String c EmptyString) (String d s) = false ->
  c <> d /\ contains (String c EmptyString) s = false.
Proof.
  simpl. destruct (ascii_dec c d) as [-> | Hne].
  - rewrite prefix_nil. discriminate.
  - intros H. now split.
Qed.

Lemma split_without_separator (c : ascii) (sep' s : string) :
  contains (String c EmptyString) s = false ->
  split (String c sep') s = [s].
Proof.
  unfold split. induction s as [|d s IH]; intros H; [reflexivity |].
  apply contains_char_cons in H as [Hne H]. simpl.
  destruct (ascii_dec c d) as [E | _]; [contradiction |].
  now rewrite IH.
Qed.

Section WithTokenizer.

Variable tk : Tokenizer.
Variables chunk_size_tokens chunk_overlap_tokens : Z.

Local Abbreviation hard_split_loop :=
  (hard_split_loop tk chunk_size_tokens chunk_overlap_tokens).
Local Abbreviation hard_split :=
  (hard_split tk chunk_size_tokens chunk_overlap_tokens).
Local Abbreviation recursive_split_from :=
  (recursive_split_from tk chunk_size_tokens chunk_overlap_tokens).
Local Abbreviation _recursive_split :=
  (_recursive_split tk chunk_size_tokens chunk_overlap_tokens).
Local Abbreviation split_text_into_chunks :=
  (split_text_into_chunks tk chunk_size_tokens chunk_overlap_tokens).

(** With a step that is not positive the hard split loop never ends,
    whatever the fuel. *)
Lemma hard_split_loop_diverges (tokens : list Z) :
  chunk_size_tokens - chunk_overlap_tokens <= 0 ->
  forall fuel start, start < len tokens ->
  hard_split_loop fuel tokens start = None.
Proof.
  intros Hstep. induction fuel as [|fuel IH]; intros start Hstart; simpl;
    (assert ((start <? len tokens) = true) as -> by now apply Z.ltb_lt).
  - reflexivity.
  - rewrite IH by lia. reflexivity.
Qed.

(** The number of pieces of the hard split. *)
Lemma hard_split_loop_count (tokens : list Z) :
  0 < chunk_size_tokens - chunk_overlap_tokens ->
  forall fuel start pieces, 0 <= start ->
  hard_split_loop fuel tokens start = Some pieces ->
  len pieces
  = Z.max 0 ((len tokens - start
              + (chunk_size_tokens - chunk_overlap_tokens) - 1)
             / (chunk_size_tokens - chunk_overlap_tokens)).
Proof.
  intros Hstep. set (step := chunk_size_tokens - chunk_overlap_tokens) in *.
  assert (forall start, len tokens <= start ->
            Z.max 0 ((len tokens - start + step - 1) / step) = 0) as Hdone.
  { intros start Hs. apply Z.max_l.
    assert ((len tokens - start + step - 1) / step < 1); [| lia].
    apply Z.div_lt_upper_bound; lia. }
  induction fuel as [|fuel IH]; intros start pieces Hstart H; simpl in H.
  - destruct (start <? len tokens) eqn:E; [discriminate H |].
    injection H as <-. apply Z.ltb_ge in E. now rewrite Hdone.
  - destruct (start <? len tokens) eqn:E.
    + fold step in H.
      destruct (Chunker.hard_split_loop tk chunk_size_tokens
                  chunk_overlap_tokens fuel tokens (start + step))
        as [rest|] eqn:Erest; [| discriminate H].
      injection H as <-. apply Z.ltb_lt in E.
      apply IH in Erest; [| lia].
      unfold len in *. cbn [length]. rewrite Nat2Z.inj_succ, Erest.
      replace (Z.of_nat (length tokens) - start + step - 1)
        with (Z.of_nat (length tokens) - (start + step) + step - 1 + 1 * step)
        by lia.
      rewrite Z.div_add by lia.
      assert (0 <= (Z.of_nat (length tokens) - (start + step) + step - 1) / step)
        by (apply Z.div_pos; lia).
      lia.
    + injection H as <-. apply Z.ltb_ge in E. now rewrite Hdone.
Qed.

End WithTokenizer.

(** X3.  A text of at most [S] tokens comes back as one chunk, the text
    itself, untouched and whatever the overlap. *)
Theorem text_within_bound_is_one_chunk (tk : Tokenizer)
  (chunk_size_tokens chunk_overlap_tokens : Z) (text : string) :
  len (get_tokens tk text) <= chunk_size_tokens ->
  split_text_into_chunks tk chunk_size_tokens chunk_overlap_tokens text
  = Some [text].
Proof.
  intros H. unfold split_text_into_chunks, _recursive_split.
  now apply ChunkerFacts.recursive_split_from_small.
Qed.

Lemma text_within_bound_is_one_chunk_witness :
  split_text_into_chunks PieceTokenizer.tokenizer CHUNK_SIZE_TOKENS
    CHUNK_OVERLAP_TOKENS "  Total revenue grew 12%.  "
  = Some ["  Total revenue grew 12%.  "].
Proof.
  apply (text_within_bound_is_one_chunk PieceTokenizer.tokenizer).
  vm_compute. discriminate.
Defined.



(** X5.  With an overlap that is not below the chunk size the hard split
    never ends: for a text of more than [S] tokens with no line break and
    no blank in it, [split_text_into_chunks] does not return, and no amount
    of fuel lets the loop finish. *)
Theorem overlap_not_below_size_diverges (tk : Tokenizer)
  (chunk_size_tokens chunk_overlap_tokens : Z) (text : string) :
  0 <= chunk_size_tokens <= chunk_overlap_tokens ->
  chunk_size_tokens < len (get_tokens tk text) ->
  contains nl text = false ->
  contains " " text = false ->
  split_text_into_chunks tk chunk_size_tokens chunk_overlap_tokens text = None
  /\ forall fuel,
       hard_split_loop tk chunk_size_tokens chunk_overlap_tokens fuel
         (get_tokens tk text) 0 = None.
Proof.
  intros HO Hlen Hnl Hsp.
  assert (forall fuel,
            hard_split_loop tk chunk_size_tokens chunk_overlap_tokens fuel
              (get_tokens tk text) 0 = None) as Hloop.
  { intros fuel. apply hard_split_loop_diverges; lia. }
  split; [| exact Hloop].
  assert (recursive_split_from tk chunk_size_tokens chunk_overlap_tokens []
            text = None) as H3.
  { simpl.
    assert ((len (get_tokens tk text) >? chunk_size_tokens) = true) as ->
      by now apply Z.gtb_lt.
    apply Hloop. }
  unfold split_text_into_chunks, _recursive_split.
  change (drop 0 separators) with [String "010"%char nl; nl; " "].
  rewrite (ChunkerFacts.recursive_split_from_large tk _ _
             (String "010"%char nl) [nl; " "] text Hlen).
  rewrite (split_without_separator "010"%char nl text Hnl). cbn [foldlM].
  rewrite (ChunkerFacts.recursive_split_from_large tk _ _ nl [" "] text Hlen).
  pose proof (split_without_separator "010"%char EmptyString text Hnl) as Hline.
  change (String "010"%char EmptyString) with nl in Hline. rewrite Hline.
  cbn [foldlM].
  rewrite (ChunkerFacts.recursive_split_from_large tk _ _ " " [] text Hlen).
  rewrite (split_without_separator " "%char EmptyString text Hsp).
  cbn [foldlM]. now rewrite H3.
Qed.

Lemma overlap_not_below_size_diverges_witness :
  split_text_into_chunks PieceTokenizer.tokenizer 2 2 "a,b,c" = None
  /\ forall fuel,
       hard_split_loop PieceTokenizer.tokenizer 2 2 fuel
         (get_tokens PieceTokenizer.tokenizer "a,b,c") 0 = None.
Proof.
  apply (overlap_not_below_size_diverges PieceTokenizer.tokenizer 2 2 "a,b,c");
    [lia | vm_compute; reflexivity | reflexivity | reflexivity].
Defined.

(** X6.  The hard token split, reached when the separators are used up:
    for [0 <= O < S] and a text of [n > S] tokens it returns
    [ceil(n / (S - O))] pieces, and the [j]-th piece decodes the tokens
    from index [j * (S - O)] up to [j * (S - O) + S], at most [S] of them. *)
Theorem hard_split_pieces (tk : Tokenizer)
  (chunk_size_tokens chunk_overlap_tokens : Z) (text : string) :
  0 <= chunk_overlap_tokens < chunk_size_tokens ->
  chunk_size_tokens < len (get_tokens tk text) ->
  let tokens := get_tokens tk text in
  let step := chunk_size_tokens - chunk_overlap_tokens in
  exists pieces,
    _recursive_split tk chunk_size_tokens chunk_overlap_tokens text
      (length separators) = Some pieces
    /\ len pieces = (len tokens + step - 1) / step
    /\ forall j piece, pieces !! j = Some piece ->
       let a := Z.of_nat j * step in
       piece = decode tk (slice tokens a (Z.min (a + chunk_size_tokens) (len tokens)))
       /\ len (slice tokens a (Z.min (a + chunk_size_tokens) (len tokens)))
          <= chunk_size_tokens.
Proof.
  intros HSO Hlen tokens step.
  unfold _recursive_split. change (drop (length separators) separators) with (@nil string).
  simpl recursive_split_from. fold tokens.
  assert ((len tokens >? chunk_size_tokens) = true) as -> by now apply Z.gtb_lt.
  destruct (ChunkerFacts.hard_split_total tk chunk_size_tokens
              chunk_overlap_tokens tokens) as [pieces Hpieces]; [lia |].
  exists pieces. split; [exact Hpieces |]. unfold hard_split in Hpieces. split.
  - assert (0 < chunk_size_tokens - chunk_overlap_tokens) as Hstep by lia.
    rewrite (hard_split_loop_count tk chunk_size_tokens chunk_overlap_tokens
               tokens Hstep _ _ _ (Z.le_refl 0) Hpieces).
    fold step. rewrite Z.sub_0_r. apply Z.max_r.
    apply Z.div_pos; unfold len in *; lia.
  - intros j piece Hj.
    pose proof (ChunkerFacts.hard_split_loop_pieces tk _ _ tokens HSO _ _ _
                  (Z.le_refl 0) Hpieces j piece Hj) as H.
    cbv zeta in H |- *. rewrite Z.add_0_l in H. exact H.
Qed.

Lemma hard_split_pieces_witness :
  exists pieces,
    _recursive_split PieceTokenizer.tokenizer 2 1 "a,b,c" 3 = Some pieces
    /\ len pieces = (5 + 1 - 1) / 1
    /\ forall j piece, pieces !! j = Some piece ->
       piece = decode PieceTokenizer.tokenizer
                 (slice (get_tokens PieceTokenizer.tokenizer "a,b,c")
                    (Z.of_nat j * 1) (Z.min (Z.of_nat j * 1 + 2) 5))
       /\ len (slice (get_tokens PieceTokenizer.tokenizer "a,b,c")
                 (Z.of_nat j * 1) (Z.min (Z.of_nat j * 1 + 2) 5)) <= 2.
Proof.
  apply (hard_split_pieces PieceTokenizer.tokenizer 2 1 "a,b,c");
    [lia | vm_compute; reflexivity].
Defined.

End ChunkerMore.

(** ** The metadata of a filing *)

Module FilingsFacts.
Import Py Filings PyFacts Shape.

(** *** Characters that do not occur *)

Lemma lacks_cons (x d : ascii) (s : string) :
  lacks x (String d s) <-> x <> d /\ lacks x s.
Proof.
  unfold lacks. simpl. destruct (ascii_dec x d) as [-> | Hne].
  - rewrite ChunkerMore.prefix_nil. simpl. split; [discriminate | tauto].
  - simpl. tauto.
Qed.

Lemma lacks_nil (x : ascii) : lacks x EmptyString.
Proof. reflexivity. Qed.

Lemma lacks_app (x : ascii) (a b : string) :
  lacks x (a ++ b) <-> lacks x a /\ lacks x b.
Proof.
  induction a as [|d a IH].
  - change (EmptyString ++ b)%string with b. split; [| tauto].
    intros H. split; [apply lacks_nil | exact H].
  - rewrite append_cons, !lacks_cons, IH. tauto.
Qed.

(** The pieces of a split at one character lack that character. *)
Lemma split_go_pieces_lack (x : ascii) (s : string) :
  Forall (lacks x) (split_go (String x EmptyString) s 0).
Proof.
  induction s as [|d s IH]; simpl.
  - constructor; [apply lacks_nil | constructor].
  - destruct (ascii_dec x d) as [-> | Hne].
    + rewrite ChunkerMore.prefix_nil. constructor; [apply lacks_nil | exact IH].
    + destruct (split_go (String x EmptyString) s 0) as [|p ps].
      * constructor; [| constructor]. apply lacks_cons. split; [exact Hne | apply lacks_nil].
      * apply Forall_cons in IH as [Hp Hps]. constructor; [| exact Hps].
        apply lacks_cons. now split.
Qed.

Lemma split_pieces_lack (x : ascii) (s : string) :
  Forall (lacks x) (split (String x EmptyString) s).
Proof. apply split_go_pieces_lack. Qed.

(** Splitting at a character: the text before its first occurrence is the
    first piece. *)
Lemma split_app_sep (x : ascii) (a rest : string) :
  lacks x a ->
  split (String x EmptyString) (a ++ String x rest)
  = a :: split (String x EmptyString) rest.
Proof.
  unfold split. induction a as [|d a IH]; intros Ha.
  - change (EmptyString ++ String x rest)%string with (String x rest). simpl.
    destruct (ascii_dec x x) as [_ | Hne]; [| contradiction].
    now rewrite ChunkerMore.prefix_nil.
  - apply lacks_cons in Ha as [Hne Ha]. rewrite append_cons. simpl.
    destruct (ascii_dec x d) as [E | _]; [contradiction |].
    now rewrite IH.
Qed.

(** Two texts cut at the first occurrence of a character agree part by
    part. *)
Lemma app_sep_inj (x : ascii) (a a' r r' : string) :
  lacks x a -> lacks x a' ->
  (a ++ String x r)%string = (a' ++ String x r')%string ->
  a = a' /\ r = r'.
Proof.
  revert a'. induction a as [|d a IH]; intros [|d' a'] Ha Ha' H.
  - injection H as <-. now split.
  - rewrite append_cons in H. injection H as <- _.
    apply lacks_cons in Ha' as [Hne _]. contradiction.
  - rewrite append_cons in H. injection H as -> _.
    apply lacks_cons in Ha as [Hne _]. contradiction.
  - rewrite !append_cons in H. injection H as <- H.
    apply lacks_cons in Ha as [_ Ha]. apply lacks_cons in Ha' as [_ Ha'].
    destruct (IH a' Ha Ha' H) as [-> ->]. now split.
Qed.

(** *** The chunk number in a chunk id *)

Lemma decimal_value_zero (s : string) :
  decimal_value (String "0" s) = decimal_value s.
Proof.
  unfold decimal_value. simpl.
  destruct (NilEmpty.uint_of_string s); reflexivity.
Qed.

Lemma zeros_cons (n : nat) (s : string) :
  (String.concat EmptyString (repeat "0" (S n)) ++ s)%string
  = String "0" (String.concat EmptyString (repeat "0" n) ++ s)%string.
Proof. destruct n; reflexivity. Qed.

Lemma decimal_value_zeros (n : nat) (s : string) :
  decimal_value (String.concat EmptyString (repeat "0" n) ++ s)
  = decimal_value s.
Proof.
  induction n as [|n IH]; [reflexivity |].
  now rewrite zeros_cons, decimal_value_zero.
Qed.

Lemma decimal_value_str_of_int (i : nat) :
  decimal_value (str_of_int (Z.of_nat i)) = Some (Z.of_nat i).
Proof.
  unfold decimal_value, str_of_int.
  pose proof (DecimalZ.of_to (Z.of_nat i)) as Hz.
  destruct (Z.to_int (Z.of_nat i)) as [u | u] eqn:E.
  - simpl in Hz. unfold NilZero.string_of_int, NilZero.string_of_uint.
    destruct u; [simpl; simpl in Hz; now rewrite <- Hz | ..];
      rewrite NilEmpty.usu; simpl; now rewrite <- Hz.
  - exfalso. destruct (Z.of_nat i) eqn:Ei; simpl in E; try discriminate.
    lia.
Qed.

(** The chunk number is read back from its four-digit form. *)
Lemma decimal_value_format_04d (i : nat) :
  decimal_value (format_04d i) = Some (Z.of_nat i).
Proof.
  unfold format_04d. now rewrite decimal_value_zeros, decimal_value_str_of_int.
Qed.

Lemma format_04d_inj (i j : nat) : format_04d i = format_04d j -> i = j.
Proof.
  intros H. apply (f_equal decimal_value) in H.
  rewrite !decimal_value_format_04d in H. injection H as H. lia.
Qed.

(** *** Company and year *)

Lemma nth_lacks (x : ascii) (parts : list string) (n : nat) :
  Forall (lacks x) parts -> lacks x (nth n parts EmptyString).
Proof.
  intros H. destruct (nth_in_or_default n parts EmptyString) as [Hin | ->].
  - rewrite List.Forall_forall in H. now apply H.
  - apply lacks_nil.
Qed.

Lemma company_code_lacks_underscore (file_name : string) :
  lacks "_" (company_code_of file_name).
Proof.
  unfold company_code_of. destruct (Z.gtb _ 0); [| reflexivity].
  apply nth_lacks, split_pieces_lack.
Qed.

Lemma year_lacks_underscore (file_name : string) :
  lacks "_" (year_of file_name).
Proof.
  unfold year_of. destruct (Z.gtb _ 1); [| reflexivity].
  apply nth_lacks, split_pieces_lack.
Qed.

(** A chunk id tells its company, year and chunk number. *)
Lemma chunk_id_of_inj (c y c' y' : string) (i i' : nat) :
  lacks "_" c -> lacks "_" y -> lacks "_" c' -> lacks "_" y' ->
  chunk_id_of c y i = chunk_id_of c' y' i' ->
  c = c' /\ y = y' /\ i = i'.
Proof.
  intros Hc Hy Hc' Hy' H. unfold chunk_id_of in H.
  change ("_" ++ y ++ "_chunk_" ++ format_04d i)%string
    with (String "_" (y ++ String "_" ("chunk_" ++ format_04d i)))%string in H.
  change ("_" ++ y' ++ "_chunk_" ++ format_04d i')%string
    with (String "_" (y' ++ String "_" ("chunk_" ++ format_04d i')))%string in H.
  apply app_sep_inj in H as [-> H]; [| assumption..].
  apply app_sep_inj in H as [-> H]; [| assumption..].
  apply String.app_inj in H. apply format_04d_inj in H. now subst.
Qed.

(** *** The entries of one file *)

Lemma file_records_lookup (file_name : string) (chunks : list string)
  (i : nat) (r : Chunk) :
  file_records file_name chunks !! i = Some r <->
  exists chunk_text,
    chunks !! i = Some chunk_text
    /\ r = chunk_record file_name (company_code_of file_name)
             (year_of file_name) i chunk_text.
Proof.
  unfold file_records. rewrite list_lookup_imap.
  destruct (chunks !! i) as [t|]; simpl.
  - split.
    + intros H. injection H as <-. now exists t.
    + intros (t' & H & ->). now injection H as <-.
  - split; [discriminate |]. now intros (t' & H & _).
Qed.

Lemma file_records_elem (file_name : string) (chunks : list string) (r : Chunk) :
  In r (file_records file_name chunks) ->
  exists i chunk_text,
    chunks !! i = Some chunk_text
    /\ r = chunk_record file_name (company_code_of file_name)
             (year_of file_name) i chunk_text.
Proof.
  intros H. apply list_elem_of_In, list_elem_of_lookup in H as [i H].
  apply file_records_lookup in H as (t & Ht & ->). now exists i, t.
Qed.

(** X7.  The entries written for one file: one per chunk and in order,
    the [i]-th (from 0) holding the [i]-th chunk with page [i + 1] and the
    file as its source, and no two with the same chunk id. *)
Theorem file_records_numbered (file_name : string) (chunks : list string) :
  let records := file_records file_name chunks in
  length records = length chunks
  /\ (forall i r, records !! i = Some r ->
        chunks !! i = Some (text r) /\ page r = Z.of_nat i + 1
        /\ source_doc r = file_name
        /\ chunk_id r
           = Some (chunk_id_of (company r) (year r) i))
  /\ (forall i j r r', records !! i = Some r -> records !! j = Some r' ->
        chunk_id r = chunk_id r' -> i = j).
Proof.
  cbv zeta. split; [unfold file_records; apply length_imap |]. split.
  - intros i r H. apply file_records_lookup in H as (t & Ht & ->).
    now repeat split.
  - intros i j r r' Hi Hj Hid.
    apply file_records_lookup in Hi as (t & _ & ->).
    apply file_records_lookup in Hj as (t' & _ & ->).
    simpl in Hid. injection Hid as Hid.
    apply chunk_id_of_inj in Hid as (_ & _ & Hij);
      auto using company_code_lacks_underscore, year_lacks_underscore.
Qed.

Lemma file_records_numbered_witness :
  page (chunk_record "MSFT_2022.htm" "MSFT" "2022" 1 "second") = 2
  /\ chunk_id (chunk_record "MSFT_2022.htm" "MSFT" "2022" 1 "second")
     = Some "MSFT_2022_chunk_0001".
Proof.
  destruct (file_records_numbered "MSFT_2022.htm" ["first"; "second"])
    as (_ & Hrec & _).
  destruct (Hrec 1%nat (chunk_record "MSFT_2022.htm" "MSFT" "2022" 1 "second")
              eq_refl) as (_ & Hp & _ & Hid).
  split; [exact Hp | exact Hid].
Defined.

(** *** The names the downloader gives *)

Lemma replace_htm_suffix (s : string) :
  lacks "." s -> replace ".htm" EmptyString (s ++ ".htm") = s.
Proof.
  unfold replace. induction s as [|d s IH]; intros H; [reflexivity |].
  apply lacks_cons in H as [Hne H]. rewrite append_cons.
  cbn [replace_go String.prefix].
  destruct (ascii_dec "." d) as [E | _]; [contradiction |].
  now rewrite IH.
Qed.

Lemma name_parts_filing_file_name (company year : string) :
  lacks "_" company -> lacks "." company ->
  lacks "_" year -> lacks "." year ->
  name_parts (Downloader.filing_file_name company year) = [company; year].
Proof.
  intros Hc Hcd Hy Hyd. unfold name_parts, Downloader.filing_file_name.
  change (company ++ "_" ++ year ++ ".htm")%string
    with (company ++ (String "_" year ++ ".htm"))%string.
  rewrite <- append_assoc, replace_htm_suffix.
  - rewrite split_app_sep by exact Hc.
    now rewrite ChunkerMore.split_without_separator.
  - apply lacks_app. split; [exact Hcd |]. apply lacks_cons. now split.
Qed.

(** X8.  A filing saved by the downloader as [company_year.htm] is read
    back by [process_filings] with that company and that year, when neither
    holds an underscore or a dot. *)
Theorem file_name_round_trip (company year : string) :
  lacks "_" company -> lacks "." company ->
  lacks "_" year -> lacks "." year ->
  company_code_of (Downloader.filing_file_name company year) = company
  /\ year_of (Downloader.filing_file_name company year) = year.
Proof.
  intros Hc Hcd Hy Hyd. unfold company_code_of, year_of.
  now rewrite name_parts_filing_file_name.
Qed.

Lemma file_name_round_trip_witness :
  company_code_of (Downloader.filing_file_name "GOOGL" "2023") = "GOOGL"
  /\ year_of (Downloader.filing_file_name "GOOGL" "2023") = "2023".
Proof.
  apply (file_name_round_trip "GOOGL" "2023"); reflexivity.
Defined.

End FilingsFacts.

(** ** The downloader *)

Module DownloaderFacts.
Import Py Downloader Filings PyFacts Shape.

(** X9.  The links [get_10k_filing_links] returns: each comes from a row
    of at least four cells whose first cell mentions 10-K and which has a
    link, its year is the part of the trimmed fourth cell before the first
    dash and is one of the target years, and its address is the row's link
    under https://www.sec.gov. *)
Theorem filing_links_in_target_years (rows : list FilingRow)
  (year url : string) :
  In (year, url) (get_10k_filing_links rows) ->
  In year TARGET_YEARS
  /\ exists row href,
       In row rows /\ first_href row = Some href
       /\ url = ("https://www.sec.gov" ++ href)%string
       /\ 4 <= len (cells row)
       /\ contains "10-K" (nth 0 (cells row) EmptyString) = true
       /\ year = nth 0 (split "-" (strip (nth 3 (cells row) EmptyString)))
                   EmptyString.
Proof.
  induction rows as [|row rows IH]; simpl; [tauto |].
  assert (In (year, url) (get_10k_filing_links rows) ->
          In year TARGET_YEARS /\
          exists row0 href,
            (row = row0 \/ In row0 rows) /\ first_href row0 = Some href
            /\ url = ("https://www.sec.gov" ++ href)%string
            /\ 4 <= len (cells row0)
            /\ contains "10-K" (nth 0 (cells row0) EmptyString) = true
            /\ year = nth 0 (split "-" (strip (nth 3 (cells row0) EmptyString)))
                        EmptyString) as Hrest.
  { intros H. destruct (IH H) as (Hy & row0 & href & Hin & Hrow).
    split; [exact Hy |]. exists row0, href. split; [now right | exact Hrow]. }
  destruct (len (cells row) >=? 4) eqn:Hlen; [| exact Hrest]. simpl.
  destruct (contains "10-K" (nth 0 (cells row) EmptyString)) eqn:Hk;
    [| exact Hrest].
  destruct (in_target_years _) eqn:Hyear; [| exact Hrest].
  destruct (first_href row) as [href|] eqn:Hhref; [| exact Hrest].
  intros [H | H]; [| now apply Hrest].
  injection H as <- <-. split.
  - unfold in_target_years in Hyear. apply existsb_exists in Hyear as (y & Hy & E).
    apply String.eqb_eq in E. now subst.
  - exists row, href. repeat split; try assumption; [now left |].
    apply Z.geb_le in Hlen. lia.
Qed.

Lemma filing_links_in_target_years_witness :
  In "2023" TARGET_YEARS
  /\ exists row href,
       In row [{| cells := ["10-K"; "Annual report"; "x"; " 2023-02-03 "];
                  first_href := Some "/Archives/a-index.htm" |}]
       /\ first_href row = Some href
       /\ "https://www.sec.gov/Archives/a-index.htm"
          = ("https://www.sec.gov" ++ href)%string
       /\ 4 <= len (cells row)
       /\ contains "10-K" (nth 0 (cells row) EmptyString) = true
       /\ "2023" = nth 0 (split "-" (strip (nth 3 (cells row) EmptyString)))
                     EmptyString.
Proof.
  apply (filing_links_in_target_years
           [{| cells := ["10-K"; "Annual report"; "x"; " 2023-02-03 "];
               first_href := Some "/Archives/a-index.htm" |}]
           "2023" "https://www.sec.gov/Archives/a-index.htm").
  left. reflexivity.
Defined.

(** X10.  Every filing the downloader saves for one of its companies is
    read back by [process_filings] under that company and the year of the
    link. *)
Theorem downloaded_names_read_back (rows : list FilingRow)
  (company cik year url : string) :
  In (company, cik) COMPANIES ->
  In (year, url) (get_10k_filing_links rows) ->
  company_code_of (filing_file_name company year) = company
  /\ year_of (filing_file_name company year) = year
  /\ endswith ".htm" (filing_file_name company year) = true.
Proof.
  intros Hc Hl.
  assert (In year TARGET_YEARS) as Hy.
  { clear Hc. induction rows as [|row rows IH]; simpl in Hl; [destruct Hl |].
    destruct (_ && _); [| now apply IH].
    destruct (in_target_years _) eqn:Hyear; [| now apply IH].
    destruct (first_href row); [| now apply IH].
    destruct Hl as [H | H]; [| now apply IH]. injection H as <- _.
    unfold in_target_years in Hyear.
    apply existsb_exists in Hyear as (y & Hy & E).
    apply String.eqb_eq in E. now subst. }
  unfold company_code_of, year_of.
  simpl in Hc, Hy.
  destruct Hc as [Hc | [Hc | [Hc | []]]]; injection Hc as <- _;
    destruct Hy as [<- | [<- | [<- | []]]];
    repeat split; reflexivity.
Qed.

Lemma downloaded_names_read_back_witness :
  company_code_of (filing_file_name "NVDA" "2024") = "NVDA"
  /\ year_of (filing_file_name "NVDA" "2024") = "2024"
  /\ endswith ".htm" (filing_file_name "NVDA" "2024") = true.
Proof.
  apply (downloaded_names_read_back
           [{| cells := ["10-K"; "Annual report"; "x"; "2024-02-21"];
               first_href := Some "/Archives/n-index.htm" |}]
           "NVDA" "1045810" "2024" "https://www.sec.gov/Archives/n-index.htm").
  - simpl. tauto.
  - left. reflexivity.
Defined.

End DownloaderFacts.

(** ** Extraction and the processing of all filings *)

Module ProcessFacts.
Import Py Chunker Filings Extract Process PyFacts Shape.

Section WithPatterns.

Variable search_item : Item -> string -> bool.
Variable search_end_marker : string -> bool.

Local Abbreviation matching_item := (Extract.matching_item search_item).
Local Abbreviation element_step :=
  (Extract.element_step search_item search_end_marker).
Local Abbreviation extract_loop :=
  (Extract.extract_loop search_item search_end_marker).
Local Abbreviation extract_text_from_html :=
  (Extract.extract_text_from_html search_item search_end_marker).

(** Before the first heading an element changes nothing. *)
Lemma element_step_before_heading (element_text : string) :
  matching_item (clean_text element_text) = None ->
  element_step extract_init element_text = (extract_init, false).
Proof.
  intros H. unfold Extract.element_step. rewrite H.
  now destruct (negb (str_truthy (clean_text element_text))).
Qed.

Lemma extract_loop_before_heading (junk rest : list string) :
  (forall element_text, In element_text junk ->
     matching_item (clean_text element_text) = None) ->
  extract_loop (junk ++ rest)%list extract_init = extract_loop rest extract_init.
Proof.
  induction junk as [|x junk IH]; intros H; [reflexivity |].
  simpl. rewrite element_step_before_heading by (apply H; now left).
  apply IH. intros y Hy. apply H. now right.
Qed.

Lemma extract_without_heading (elements : exc (list string)) :
  has_heading search_item elements = false ->
  extract_text_from_html elements = EmptyString.
Proof.
  destruct elements as [elements|e]; [| reflexivity]. simpl. intros H.
  rewrite <- (app_nil_r elements), extract_loop_before_heading; [reflexivity |].
  intros x Hx.
  destruct (Extract.matching_item search_item (clean_text x)) eqn:E;
    [| reflexivity].
  exfalso. rewrite <- Bool.not_true_iff_false in H. apply H.
  apply existsb_exists. exists x. split; [exact Hx |]. now rewrite E.
Qed.

(** X11.  Nothing is extracted before the first heading: the elements
    that come before the first one taken for a heading leave no trace in
    the text returned, and a file with no heading at all, or one that
    cannot be read, gives the empty text. *)
Theorem extraction_starts_at_first_heading (junk rest : list string) :
  (forall element_text, In element_text junk ->
     matching_item (clean_text element_text) = None) ->
  extract_text_from_html (Ok (junk ++ rest)%list) = extract_text_from_html (Ok rest)
  /\ extract_text_from_html (Ok junk) = EmptyString
  /\ forall e, extract_text_from_html (Raise e) = EmptyString.
Proof.
  intros H. split; [| split].
  - simpl. now rewrite extract_loop_before_heading.
  - simpl. rewrite <- (app_nil_r junk), extract_loop_before_heading;
      [reflexivity | exact H].
  - reflexivity.
Qed.

End WithPatterns.

(** *** [process_filings] *)

Section WithCapabilities.

Variable tk : Tokenizer.
Variable search_item : Item -> string -> bool.
Variable search_end_marker : string -> bool.
Variable read_elements : string -> exc (list string).
Variable json_dump_ok : list Chunk -> bool.

Local Abbreviation file_metadata :=
  (Process.file_metadata tk search_item search_end_marker read_elements).
Local Abbreviation process_files :=
  (Process.process_files tk search_item search_end_marker read_elements).
Local Abbreviation process_filings :=
  (Process.process_filings tk search_item search_end_marker read_elements
     json_dump_ok).

(** The chunk of a file that has entries. *)
Definition chunked (file_name : string) (chunks : list string) : Prop :=
  split_text_into_chunks tk CHUNK_SIZE_TOKENS CHUNK_OVERLAP_TOKENS
    (Extract.extract_text_from_html search_item search_end_marker
       (read_elements file_name)) = Some chunks.


Lemma file_metadata_elem (file_name : string) (records : list Chunk) (r : Chunk) :
  file_metadata file_name = Some records -> In r records ->
  has_heading search_item (read_elements file_name) = true
  /\ exists chunks,
       chunked file_name chunks /\ In r (file_records file_name chunks).
Proof.
  unfold Process.file_metadata, chunked.
  destruct (negb _) eqn:Etext.
  { intros H. injection H as <-. intros []. }
  destruct (split_text_into_chunks _ _ _ _) as [chunks|]; [| discriminate].
  intros H Hr. injection H as <-. split; [| now exists chunks].
  destruct (has_heading search_item (read_elements file_name)) eqn:Eh;
    [reflexivity |].
  rewrite (extract_without_heading _ _ _ Eh) in Etext. discriminate Etext.
Qed.


Lemma process_files_elem (html_files : list string) :
  forall all metadata r,
  process_files html_files all = Some metadata -> In r metadata ->
  In r all
  \/ exists file_name records,
       In file_name html_files /\ file_metadata file_name = Some records
       /\ In r records.
Proof.
  induction html_files as [|f fs IH]; intros all metadata r H Hr; simpl in H.
  - injection H as <-. now left.
  - destruct (Process.file_metadata tk search_item search_end_marker
                read_elements f) as [records|] eqn:Ef; [| discriminate].
    destruct (IH _ _ _ H Hr) as [Hin | (f' & recs & Hf' & Hrecs & Hin)].
    + apply in_app_or in Hin as [Hin | Hin]; [now left |].
      right. exists f, records. split; [now left | now split].
    + right. exists f', recs. split; [now right | now split].
Qed.

(** Every entry written belongs to a file of the listing that passed the
    filters. *)
Lemma written_entry (listing : list string) (metadata : list Chunk) (r : Chunk) :
  process_filings (Some listing) = Some (Written metadata) -> In r metadata ->
  exists file_name chunks,
    In file_name listing /\ endswith ".htm" file_name = true
    /\ has_heading search_item (read_elements file_name) = true
    /\ chunked file_name chunks /\ In r (file_records file_name chunks).
Proof.
  unfold Process.process_filings.
  destruct (is_nil _); [discriminate |].
  destruct (Process.process_files _ _ _ _ _ _) as [out|] eqn:Eout;
    [| discriminate].
  destruct (json_dump_ok out); [| discriminate].
  intros H Hr. injection H as <-.
  destruct (process_files_elem _ _ _ _ Eout Hr)
    as [[] | (f & recs & Hf & Hrecs & Hin)].
  destruct (file_metadata_elem _ _ _ Hrecs Hin) as (Hh & chunks & Hc & Hrc).
  exists f, chunks.
  apply list_elem_of_In in Hf. rewrite merge_sort_Permutation in Hf.
  apply list_elem_of_In, filter_In in Hf as [Hl He].
  repeat split; assumption.
Qed.



(** X13.  In the metadata [process_filings] writes, a chunk id tells
    where a chunk comes from: two entries with the same chunk id have the
    same company, year and page. *)
Theorem written_chunk_ids (listing : list string) (metadata : list Chunk)
  (r r' : Chunk) :
  process_filings (Some listing) = Some (Written metadata) ->
  In r metadata -> In r' metadata ->
  chunk_id r = chunk_id r' ->
  company r = company r' /\ year r = year r' /\ page r = page r'.
Proof.
  intros H Hr Hr' Hid.
  destruct (written_entry _ _ _ H Hr) as (f & chunks & _ & _ & _ & _ & Hrc).
  destruct (written_entry _ _ _ H Hr') as (f' & chunks' & _ & _ & _ & _ & Hrc').
  apply FilingsFacts.file_records_elem in Hrc as (i & t & _ & ->).
  apply FilingsFacts.file_records_elem in Hrc' as (i' & t' & _ & ->).
  simpl in Hid |- *. injection Hid as Hid.
  apply FilingsFacts.chunk_id_of_inj in Hid as (-> & -> & ->);
    auto using FilingsFacts.company_code_lacks_underscore,
               FilingsFacts.year_lacks_underscore.
Qed.

End WithCapabilities.

Lemma extraction_starts_at_first_heading_witness :
  Extract.extract_text_from_html Cases.search_item Cases.search_end_marker
    (Ok (["Table of contents"; "   "]
         ++ ["ITEM 7.  MANAGEMENT'S DISCUSSION AND ANALYSIS"; "Revenue grew."])%list)
  = Extract.extract_text_from_html Cases.search_item Cases.search_end_marker
      (Ok ["ITEM 7.  MANAGEMENT'S DISCUSSION AND ANALYSIS"; "Revenue grew."]).
Proof.
  destruct (extraction_starts_at_first_heading Cases.search_item
              Cases.search_end_marker ["Table of contents"; "   "]
              ["ITEM 7.  MANAGEMENT'S DISCUSSION AND ANALYSIS"; "Revenue grew."])
    as [Hstart _]; [| exact Hstart].
  intros x [<- | [<- | []]]; reflexivity.
Defined.


Lemma written_chunk_ids_witness :
  company Cases.googl_record = company Cases.amended_record
  /\ year Cases.googl_record = year Cases.amended_record
  /\ page Cases.googl_record = page Cases.amended_record.
Proof.
  apply (written_chunk_ids PieceTokenizer.tokenizer Cases.search_item
           Cases.search_end_marker Cases.read_amended (fun _ => true)
           Cases.amended_listing [Cases.googl_record; Cases.amended_record]
           Cases.googl_record Cases.amended_record);
    [vm_compute; reflexivity | now left | now right; left | reflexivity].
Defined.

End ProcessFacts.

(** ** More on the retrieval store *)

Module StoreMore.
Import Py Store Spec.

Section Loading.

Variables Model Index Embedding Embeddings Distance FileData : Type.
Variable encode_query : Model -> string -> exc Embedding.
Variable index_search :
  Index -> Embedding -> Z -> exc (list (list Distance) * list (list Z)).
Variable encode_texts : Model -> list string -> exc Embeddings.
Variable build_flat_index : Embeddings -> exc Index.
Variable read_index : FileData -> exc Index.
Variable write_index : Index -> exc FileData.
Variable json_load : FileData -> exc (list Chunk).

Local Abbreviation load_or_create_index :=
  (Store.load_or_create_index encode_texts build_flat_index read_index
     write_index json_load).
Local Abbreviation rebuild :=
  (Store._create_and_save_embeddings_and_index encode_texts build_flat_index
     write_index json_load).
Local Abbreviation retrieve_chunks :=
  (Store.retrieve_chunks encode_query index_search).

(** What a successful rebuild has done. *)
Lemma rebuild_true (self self' : RAGPipeline Model Index)
  (disk disk' : Disk FileData) :
  rebuild self disk = (true, self', disk') ->
  exists m f_meta metadata embeddings ix data,
    model self = Some m
    /\ CHUNK_METADATA_PATH disk = Some f_meta
    /\ json_load f_meta = Ok metadata
    /\ metadata <> []
    /\ encode_texts m (map text metadata) = Ok embeddings
    /\ build_flat_index embeddings = Ok ix
    /\ write_index ix = Ok data
    /\ self' = {| model := Some m; index := Some ix;
                  chunks_metadata := metadata |}
    /\ disk' = {| FAISS_INDEX_PATH := Some data;
                  CHUNK_METADATA_PATH := Some f_meta |}.
Proof.
  unfold Store._create_and_save_embeddings_and_index, Store._load_chunks_metadata.
  destruct (model self) as [m|] eqn:Hm; [| discriminate].
  destruct (CHUNK_METADATA_PATH disk) as [f_meta|] eqn:Hf; [| discriminate].
  destruct (json_load f_meta) as [metadata|] eqn:Hj; [| discriminate].
  simpl. destruct metadata as [|c metadata]; [discriminate |]. simpl.
  destruct (encode_texts m _) as [embeddings|] eqn:He; [| discriminate].
  destruct (build_flat_index embeddings) as [ix|] eqn:Hb; [| discriminate].
  destruct (write_index ix) as [data|] eqn:Hw; [| discriminate].
  intros H. injection H as <- <-.
  exists m, f_meta, (c :: metadata), embeddings, ix, data.
  unfold set_index, set_chunks_metadata. simpl. rewrite Hm.
  repeat split; try assumption; discriminate.
Qed.

(** X14.  A rebuild that reports success has loaded metadata that is not
    empty, has embedded the texts of exactly those entries, in their order,
    holds the index built from them, and has saved that index; the
    metadata file is as it was. *)
Theorem rebuild_success (self self' : RAGPipeline Model Index)
  (disk disk' : Disk FileData) :
  rebuild self disk = (true, self', disk') ->
  exists m embeddings ix data,
    model self = Some m /\ model self' = Some m
    /\ chunks_metadata self' <> []
    /\ (exists f_meta, CHUNK_METADATA_PATH disk = Some f_meta
                       /\ json_load f_meta = Ok (chunks_metadata self'))
    /\ encode_texts m (map text (chunks_metadata self')) = Ok embeddings
    /\ build_flat_index embeddings = Ok ix
    /\ index self' = Some ix
    /\ write_index ix = Ok data
    /\ FAISS_INDEX_PATH disk' = Some data
    /\ CHUNK_METADATA_PATH disk' = CHUNK_METADATA_PATH disk.
Proof.
  intros H. apply rebuild_true in H
    as (m & f & md & emb & ix & data & Hm & Hf & Hj & Hne & He & Hb & Hw & -> & ->).
  exists m, emb, ix, data. simpl. repeat split; try assumption.
  - now exists f.
  - now rewrite Hf.
Qed.

(** X15.  Saving and loading agree.  After a rebuild that reports
    success, and with an index file that reads back as the index written,
    [load_or_create_index] on the disk left behind reports success with the
    same index and the same metadata, for any pipeline, and leaves the disk
    alone. *)
Theorem load_after_rebuild (self self' self0 : RAGPipeline Model Index)
  (disk disk' : Disk FileData) :
  rebuild self disk = (true, self', disk') ->
  (forall ix data,
     index self' = Some ix -> FAISS_INDEX_PATH disk' = Some data ->
     read_index data = Ok ix) ->
  load_or_create_index self0 disk'
  = (true,
     {| model := model self0; index := index self';
        chunks_metadata := chunks_metadata self' |},
     disk').
Proof.
  intros H Hrw. apply rebuild_true in H
    as (m & f & md & emb & ix & data & Hm & Hf & Hj & Hne & He & Hb & Hw & -> & ->).
  unfold Store.load_or_create_index, Store._load_chunks_metadata. simpl.
  rewrite (Hrw ix data eq_refl eq_refl), Hj. reflexivity.
Qed.

(** X16.  [load_or_create_index] reports success only with an index in
    the pipeline, and reports failure only as the rebuild does: a load that
    fails is a rebuild that failed. *)
Theorem load_outcomes (self self' : RAGPipeline Model Index)
  (disk disk' : Disk FileData) (ok : bool) :
  load_or_create_index self disk = (ok, self', disk') ->
  (ok = true -> exists ix, index self' = Some ix)
  /\ (ok = false -> rebuild self disk = (false, self', disk')).
Proof.
  unfold Store.load_or_create_index.
  assert (rebuild self disk = (ok, self', disk') ->
          (ok = true -> exists ix, index self' = Some ix)
          /\ (ok = false -> rebuild self disk = (false, self', disk')))
    as Hrebuild.
  { intros H. split; intros ->; [| exact H].
    apply rebuild_true in H
      as (m & f & md & emb & ix & data & _ & _ & _ & _ & _ & _ & _ & -> & _).
    now exists ix. }
  destruct (exists_file (FAISS_INDEX_PATH disk)
            && exists_file (CHUNK_METADATA_PATH disk)); [| exact Hrebuild].
  destruct (match FAISS_INDEX_PATH disk with
            | Some f => read_index f
            | None => Raise "could not open index file"
            end) as [ix|e]; [| exact Hrebuild].
  destruct (Store._load_chunks_metadata json_load (set_index self ix) disk)
    as [flag self2] eqn:E.
  intros H. injection H as <- <- <-. split; [| discriminate].
  intros _. exists ix.
  unfold Store._load_chunks_metadata in E.
  destruct (CHUNK_METADATA_PATH disk) as [f|];
    [destruct (json_load f) |]; injection E as _ <-; reflexivity.
Qed.

(** X17.  The load does not look at the embedding model.  A pipeline
    whose model failed to load still loads a readable index with success,
    and then every retrieval returns the empty list. *)
Theorem load_without_model (self : RAGPipeline Model Index)
  (disk : Disk FileData) (f_index f_meta : FileData) (ix : Index) :
  model self = None ->
  FAISS_INDEX_PATH disk = Some f_index ->
  CHUNK_METADATA_PATH disk = Some f_meta ->
  read_index f_index = Ok ix ->
  exists self',
    load_or_create_index self disk = (true, self', disk)
    /\ index self' = Some ix
    /\ forall query k, retrieve_chunks self' query k = Ok [].
Proof.
  intros Hm Hi Hf Hr.
  unfold Store.load_or_create_index, Store._load_chunks_metadata.
  rewrite Hi, Hf. simpl. rewrite Hr.
  destruct (json_load f_meta) as [metadata|e]; eexists;
    (split; [reflexivity |]); (split; [reflexivity |]);
    intros query k; unfold Store.retrieve_chunks; simpl; now rewrite Hm.
Qed.

End Loading.

Lemma rebuild_success_witness :
  exists m embeddings ix data,
    model Scenario.fresh_pipeline = Some m
    /\ Scenario.encode_texts m (map text [Scenario.chunk_0007; Scenario.chunk_0008])
       = Ok embeddings
    /\ Scenario.build_flat_index embeddings = Ok ix
    /\ Scenario.write_index ix = Ok data
    /\ data = "faiss:2".
Proof.
  destruct (rebuild_success unit nat nat string Scenario.encode_texts
              Scenario.build_flat_index Scenario.write_index Scenario.json_load
              Scenario.fresh_pipeline
              {| model := Some tt; index := Some 2%nat;
                 chunks_metadata := [Scenario.chunk_0007; Scenario.chunk_0008] |}
              Cases.disk_metadata_only Cases.disk_complete eq_refl)
    as (m & emb & ix & data & Hm & _ & _ & _ & He & Hb & _ & Hw & Hd & _).
  exists m, emb, ix, data. repeat split; try assumption.
  simpl in Hd. now injection Hd as <-.
Defined.

Lemma load_after_rebuild_witness :
  Store.load_or_create_index Scenario.encode_texts Scenario.build_flat_index
    Scenario.read_index Scenario.write_index Scenario.json_load
    Scenario.fresh_pipeline Cases.disk_complete
  = (true,
     {| model := Some tt; index := Some 2%nat;
        chunks_metadata := [Scenario.chunk_0007; Scenario.chunk_0008] |},
     Cases.disk_complete).
Proof.
  apply (load_after_rebuild unit nat nat string Scenario.encode_texts
           Scenario.build_flat_index Scenario.read_index Scenario.write_index
           Scenario.json_load Scenario.fresh_pipeline
           {| model := Some tt; index := Some 2%nat;
              chunks_metadata := [Scenario.chunk_0007; Scenario.chunk_0008] |}
           Scenario.fresh_pipeline Cases.disk_metadata_only Cases.disk_complete
           eq_refl).
  intros ix data Hix Hdata. injection Hix as <-. injection Hdata as <-.
  reflexivity.
Defined.

Lemma load_outcomes_witness :
  Store._create_and_save_embeddings_and_index Scenario.encode_texts
    Scenario.build_flat_index Scenario.write_index Scenario.json_load
    Cases.pipeline_without_model Cases.disk_metadata_only
  = (false, Cases.pipeline_without_model, Cases.disk_metadata_only).
Proof.
  apply (load_outcomes unit nat nat string Scenario.encode_texts
           Scenario.build_flat_index Scenario.read_index Scenario.write_index
           Scenario.json_load Cases.pipeline_without_model
           Cases.pipeline_without_model Cases.disk_metadata_only
           Cases.disk_metadata_only false eq_refl).
  reflexivity.
Defined.

Lemma load_without_model_witness :
  exists self',
    Store.load_or_create_index Scenario.encode_texts Scenario.build_flat_index
      Scenario.read_index Scenario.write_index Scenario.json_load
      Cases.pipeline_without_model Cases.disk_complete
    = (true, self', Cases.disk_complete)
    /\ index self' = Some 2%nat
    /\ forall query k,
         Store.retrieve_chunks Scenario.embed_any Scenario.flat_search
           self' query k = Ok [].
Proof.
  apply (load_without_model unit nat unit nat Z string Scenario.embed_any
           Scenario.flat_search Scenario.encode_texts Scenario.build_flat_index
           Scenario.read_index Scenario.write_index Scenario.json_load
           Cases.pipeline_without_model Cases.disk_complete "faiss:2" "chunks"
           2%nat); reflexivity.
Defined.

End StoreMore.

(** ** More on the query orchestrator *)

Module AgentMore.
Import Py Store Agent Spec PyFacts Shape.

(** *** Blank texts *)

Lemma lstrip_empty (s : string) : lstrip s = EmptyString <-> all_space s = true.
Proof.
  induction s as [|c s IH]; simpl; [tauto |].
  destruct (is_space c); simpl; [exact IH |]. split; discriminate.
Qed.

Lemma rstrip_empty (s : string) : rstrip s = EmptyString <-> all_space s = true.
Proof.
  induction s as [|c s IH]; simpl; [tauto |].
  destruct (rstrip s) as [|x r].
  - assert (all_space s = true) as -> by now apply IH.
    rewrite andb_true_r. destruct (is_space c); split; trivial; discriminate.
  - assert (all_space s = false) as ->.
    { destruct (all_space s); [| reflexivity].
      destruct IH as [_ IH]. discriminate (IH eq_refl). }
    rewrite andb_false_r. split; discriminate.
Qed.

Lemma all_space_rstrip (s : string) : all_space (rstrip s) = all_space s.
Proof.
  induction s as [|c s IH]; [reflexivity |]. simpl.
  destruct (rstrip s) as [|x r] eqn:E.
  - assert (all_space s = true) as -> by now apply rstrip_empty.
    rewrite andb_true_r. destruct (is_space c) eqn:Ec; simpl; [reflexivity |].
    now rewrite Ec.
  - cbn [all_space] in IH |- *. now rewrite IH.
Qed.

Lemma strip_empty (s : string) : strip s = EmptyString <-> all_space s = true.
Proof.
  unfold strip. rewrite lstrip_empty, all_space_rstrip. tauto.
Qed.

Lemma str_truthy_spec (s : string) :
  Chunker.str_truthy s = true <-> s <> EmptyString.
Proof. destruct s; simpl; split; congruence. Qed.

(** *** Characters that do not occur *)

Lemma lacks_lstrip (x : ascii) (s : string) : lacks x s -> lacks x (lstrip s).
Proof.
  induction s as [|c s IH]; intros H; [exact H |]. simpl.
  destruct (is_space c); [| exact H].
  apply IH. now apply FilingsFacts.lacks_cons in H.
Qed.

Lemma lacks_rstrip (x : ascii) (s : string) : lacks x s -> lacks x (rstrip s).
Proof.
  induction s as [|c s IH]; intros H; [exact H |]. simpl.
  apply FilingsFacts.lacks_cons in H as [Hne H]. specialize (IH H).
  destruct (rstrip s) as [|y r].
  - destruct (is_space c); [reflexivity |].
    apply FilingsFacts.lacks_cons. split; [exact Hne | reflexivity].
  - apply FilingsFacts.lacks_cons. now split.
Qed.

Lemma lacks_strip (x : ascii) (s : string) : lacks x s -> lacks x (strip s).
Proof. intros H. now apply lacks_lstrip, lacks_rstrip. Qed.

Lemma lacks_substring (x : ascii) (s : string) :
  lacks x s -> forall a n, lacks x (String.substring a n s).
Proof.
  induction s as [|c s IH]; intros H a n.
  - destruct a, n; reflexivity.
  - apply FilingsFacts.lacks_cons in H as [Hne H].
    destruct a as [|a]; simpl.
    + destruct n as [|n]; [reflexivity |].
      apply FilingsFacts.lacks_cons. split; [exact Hne | now apply IH].
    + now apply IH.
Qed.

(** *** Bullets *)

Lemma substring_all (s : string) : String.substring 0 (String.length s) s = s.
Proof. induction s as [|c s IH]; simpl; [reflexivity | now rewrite IH]. Qed.

Lemma strip_bullet_cases (t : string) :
  strip_bullet t = t
  \/ t = String "-" (String " " (strip_bullet t)).
Proof.
  unfold strip_bullet. destruct (String.prefix "- " t) eqn:E; [| now left].
  right. apply String.prefix_correct in E.
  destruct t as [|a [|b rest]]; simpl in E; try discriminate.
  injection E as -> ->. simpl. rewrite Nat.sub_0_r, substring_all. reflexivity.
Qed.

Lemma strip_bullet_nonblank (t : string) :
  t <> EmptyString -> trimmed t -> strip (strip_bullet t) <> EmptyString.
Proof.
  intros Hne Ht. destruct (strip_bullet_cases t) as [-> | E].
  - now rewrite Ht.
  - intros Hblank. apply strip_empty in Hblank.
    assert (rstrip (String " " (strip_bullet t)) = EmptyString) as Hr.
    { apply rstrip_empty. simpl. exact Hblank. }
    unfold trimmed, strip in Ht. rewrite E in Ht at 1.
    cbn [rstrip] in Ht. cbn [rstrip] in Hr. rewrite Hr in Ht.
    rewrite E in Ht. discriminate Ht.
Qed.

Lemma lacks_strip_bullet (x : ascii) (t : string) :
  lacks x t -> lacks x (strip_bullet t).
Proof.
  intros H. unfold strip_bullet.
  destruct (String.prefix "- " t); [now apply lacks_substring | exact H].
Qed.

(** *** Splitting a text with a known start *)

Lemma split_nonempty (sep s : string) : split sep s <> [].
Proof.
  unfold split. generalize 0%nat.
  induction s as [|c s IH]; intros skip; cbn [split_go]; [congruence |].
  destruct skip; [| apply IH].
  destruct (String.prefix sep (String c s)); [congruence |].
  destruct (split_go sep s 0); congruence.
Qed.

Lemma split_app_head (x : ascii) (a s : string) :
  lacks x a ->
  split (String x EmptyString) (a ++ s)
  = match split (String x EmptyString) s with
    | p :: ps => (a ++ p)%string :: ps
    | [] => [a]
    end.
Proof.
  unfold split. induction a as [|d a IH]; intros Ha.
  - change (EmptyString ++ s)%string with s.
    destruct (split_go (String x EmptyString) s 0) eqn:E; [| reflexivity].
    now apply split_nonempty in E.
  - apply FilingsFacts.lacks_cons in Ha as [Hne Ha]. rewrite append_cons.
    cbn [split_go String.prefix].
    destruct (ascii_dec x d) as [E | _]; [contradiction |].
    rewrite IH by exact Ha.
    destruct (split_go (String x EmptyString) s 0); reflexivity.
Qed.

(** A text without the marker is not cut by [split(marker, 1)]. *)
Lemma split1_without_marker (sep s : string) :
  contains sep s = false -> split1 sep s = [s].
Proof.
  induction s as [|c s IH]; intros H; [reflexivity |].
  cbn [contains] in H. apply orb_false_elim in H as [Hp H].
  cbn [split1]. rewrite Hp, IH by exact H. reflexivity.
Qed.

(** *** Sub-queries *)

(** X18.  Whatever the language model replies, and also when the call
    fails, every sub-query [_decompose_query] returns is a text that is not
    empty, has no white space at either end and holds no comma. *)
Theorem decomposed_queries_are_clean
  (generate_content : string -> Temperature -> exc string)
  (query : string) (log : CallLog) :
  Forall (fun q => q <> EmptyString /\ trimmed q /\ lacks "," q)
    (fst (_decompose_query generate_content query log)).
Proof.
  unfold _decompose_query.
  destruct (_call_llm generate_content (decomposition_prompt query)
              temperature_0_0 log) as [response log1].
  cbn [fst]. rewrite List.Forall_forall. intros q Hq.
  apply in_map_iff in Hq as (t & <- & Ht).
  apply in_map_iff in Ht as (p & <- & Hp).
  apply filter_In in Hp as [Hp Htruthy].
  apply str_truthy_spec in Htruthy.
  assert (lacks "," p) as Hlacks.
  { pose proof (FilingsFacts.split_pieces_lack "," response) as Hall.
    rewrite List.Forall_forall in Hall. now apply Hall. }
  split; [| split].
  - apply strip_bullet_nonblank; [exact Htruthy | apply CleanFacts.strip_idem].
  - apply CleanFacts.strip_idem.
  - now apply lacks_strip, lacks_strip_bullet, lacks_strip.
Qed.

Section WithCapabilities.

Variables Model Index Embedding Distance : Type.
Variable encode_query : Model -> string -> exc Embedding.
Variable index_search :
  Index -> Embedding -> Z -> exc (list (list Distance) * list (list Z)).
Variable generate_content : string -> Temperature -> exc string.
Variable rag_pipeline : RAGPipeline Model Index.

Local Abbreviation retrieve_chunks :=
  (Store.retrieve_chunks encode_query index_search rag_pipeline).
Local Abbreviation retrieve_all :=
  (Agent.retrieve_all encode_query index_search rag_pipeline).
Local Abbreviation plan_sub_queries := (Agent.plan_sub_queries generate_content).
Local Abbreviation _synthesize_answer := (Agent._synthesize_answer generate_content).
Local Abbreviation answer_query :=
  (Agent.answer_query encode_query index_search generate_content rag_pipeline).

Lemma plan_sub_queries_nonempty (query : string) (log : CallLog) :
  fst (plan_sub_queries query log) <> [].
Proof.
  unfold Agent.plan_sub_queries. destruct (is_complex query); [| discriminate].
  destruct (_decompose_query generate_content query log) as [[|q qs] log1];
    discriminate.
Qed.

Lemma retrieve_all_returns (sub_queries : list string) :
  forall acc, exists all, retrieve_all sub_queries acc = Ok all.
Proof.
  induction sub_queries as [|q qs IH]; intros acc; simpl; [now eexists |].
  destruct (StoreFacts.retrieve_chunks_returns _ _ _ _ encode_query
              index_search rag_pipeline q 5) as [chunks ->].
  simpl. apply IH.
Qed.

(** The synthesis prompt sent for a list of retrieved passages. *)
Definition synthesis_call (query : string) (sub_queries : list string)
  (data : list (Retrieved Distance)) : list (string * Temperature) :=
  if Chunker.is_nil data then []
  else [(synthesis_prompt query sub_queries
           (fst (prepare_context 0 data EmptyString [])), temperature_0_1)].

Lemma synthesize_log (query : string) (data : list (Retrieved Distance))
  (sub_queries : list string) (log : CallLog) :
  snd (_synthesize_answer query data sub_queries log)
  = (log ++ synthesis_call query sub_queries data)%list.
Proof.
  unfold Agent._synthesize_answer, synthesis_call.
  destruct data as [|d data]; [simpl; now rewrite app_nil_r |].
  cbn [Chunker.is_nil].
  destruct (prepare_context 0 (d :: data) EmptyString []) as [ctx srcs].
  reflexivity.
Qed.

(** X19.  [answer_query] always returns its packaged output, never an
    exception.  The output repeats the query, its list of sub-queries is
    not empty, its sources are those of the deduplicated passages, and the
    generation capability is called at most twice: once for the
    decomposition when the query has a comparison keyword, then once for
    the synthesis when some passage was retrieved. *)
Theorem answer_query_returns (query : string) (log : CallLog) :
  exists out all,
    retrieve_all (fst (plan_sub_queries query log)) [] = Ok all
    /\ answer_query query log
       = (Ok out,
          (log
           ++ (if is_complex query
               then [(decomposition_prompt query, temperature_0_0)] else [])
           ++ synthesis_call query (sub_queries out) (deduplicate all))%list)
    /\ Agent.query out = query
    /\ sub_queries out = fst (plan_sub_queries query log)
    /\ sub_queries out <> []
    /\ (is_complex query = false -> sub_queries out = [query])
    /\ sources out = map source_of (deduplicate all).
Proof.
  pose proof (plan_sub_queries_nonempty query log) as Hne.
  pose proof (AgentFacts.plan_sub_queries_log generate_content query log) as Hlog.
  assert (is_complex query = false ->
          fst (plan_sub_queries query log) = [query]) as Hsimple.
  { intros H. unfold Agent.plan_sub_queries. now rewrite H. }
  unfold Agent.answer_query.
  destruct (Agent.plan_sub_queries generate_content query log)
    as [subs log1] eqn:Eplan.
  cbn [fst snd] in *.
  destruct (retrieve_all_returns subs []) as [all Hall]. rewrite Hall.
  pose proof (AgentFacts.synthesize_sources _ generate_content query
                (deduplicate all) subs log1) as Hsrc.
  pose proof (synthesize_log query (deduplicate all) subs log1) as Hcalls.
  destruct (Agent._synthesize_answer generate_content query (deduplicate all)
              subs log1) as [[[final_answer reasoning] srcs] log2].
  cbn [fst snd] in *. subst srcs log2 log1.
  exists {| Agent.query := query; answer := final_answer;
            reasoning := reasoning; sub_queries := subs;
            sources := map source_of (deduplicate all) |}, all.
  cbn [Agent.query sub_queries sources]. rewrite <- app_assoc.
  split; [reflexivity |]. split; [reflexivity |]. split; [reflexivity |].
  split; [reflexivity |]. split; [exact Hne |]. split; [exact Hsimple |].
  reflexivity.
Qed.

(** *** When the generation capability fails *)

(** X20.  When the decomposition call fails, the decomposition does not
    fall back on the query: the sub-queries are cut out of the error text,
    and the first of them starts with [LLM error:]. *)
Theorem decomposition_failure_sub_queries (query e : string) (log : CallLog) :
  is_complex query = true ->
  generate_content (decomposition_prompt query) temperature_0_0 = Raise e ->
  exists first rest,
    fst (plan_sub_queries query log) = first :: rest
    /\ first = strip ("LLM error: " ++ nth 0 (split "," e) EmptyString)
    /\ is_prefix "LLM error:" first.
Proof.
  intros Hcomplex Hraise.
  unfold Agent.plan_sub_queries, _decompose_query, _call_llm.
  rewrite Hcomplex, Hraise.
  rewrite (split_app_head "," "LLM error: " e) by reflexivity.
  destruct (split "," e) as [|p0 ps] eqn:Esplit; [now apply split_nonempty in Esplit |].
  cbn [nth].
  assert (is_prefix "LLM error:" (strip ("LLM error: " ++ p0))) as Hfirst
    by exact (strip_app_prefix "LLM error: " p0).
  destruct Hfirst as [t Ht].
  assert (Chunker.str_truthy (strip ("LLM error: " ++ p0)) = true) as Htruthy
    by now rewrite Ht.
  assert (strip (strip_bullet (strip ("LLM error: " ++ p0)))
          = strip ("LLM error: " ++ p0)) as Hbullet.
  { assert (String.prefix "- " (strip ("LLM error: " ++ p0)) = false) as Hdash.
    { rewrite Ht. cbn [String.prefix append].
      now destruct (ascii_dec "-" "L") as [E | _]; [discriminate E |]. }
    unfold strip_bullet. rewrite Hdash. apply CleanFacts.strip_idem. }
  cbn [List.filter]. rewrite Htruthy. cbn [map]. rewrite Hbullet.
  cbn [Chunker.is_nil negb fst].
  eexists. eexists. split; [reflexivity |]. split; [reflexivity |].
  now exists t.
Qed.

(** X21.  When the synthesis call fails with a message that does not
    hold the marker [Reasoning:], the answer is the error text, the
    reasoning is the default one, the sources of the passages are returned
    all the same, and the failed call is the only one made. *)
Theorem synthesis_failure_surfaces (query e : string)
  (data : list (Retrieved Distance)) (sub_queries : list string)
  (log : CallLog) :
  data <> [] ->
  generate_content
    (synthesis_prompt query sub_queries
       (fst (prepare_context 0 data EmptyString []))) temperature_0_1
  = Raise e ->
  contains "Reasoning:" e = false ->
  _synthesize_answer query data sub_queries log
  = ((strip ("LLM error: " ++ e),
      ((if len sub_queries >? 1
        then "Performed query decomposition, retrieved data for multiple sub-queries, and synthesized the results."
        else "Retrieved relevant information and synthesized the answer.")
       ++ nl
       ++ "No specific reasoning provided by LLM, relying on agent's default reasoning.")%string,
      map source_of data),
     (log ++ synthesis_call query sub_queries data)%list).
Proof.
  intros Hdata Hraise Hmarker.
  assert (contains "Reasoning:" ("LLM error: " ++ e) = false) as Hmarker'.
  { change ("LLM error: " ++ e)%string with
      (String "L" (String "L" (String "M" (String " " (String "e" (String "r"
        (String "r" (String "o" (String "r" (String ":" (String " " e))))))))))).
    cbn [contains]. rewrite Hmarker.
    repeat (match goal with
            | |- (String.prefix ?kw (String ?c ?s) || ?b)%bool = false =>
                replace (String.prefix kw (String c s)) with false
                  by (cbn [String.prefix]; now destruct (ascii_dec _ _));
                cbn [orb]
            end).
    reflexivity. }
  pose proof (synthesize_log query data sub_queries log) as Hlog.
  pose proof (AgentFacts.synthesize_sources _ generate_content query data
                sub_queries log) as Hsrc.
  unfold Agent._synthesize_answer, synthesis_call in *.
  destruct data as [|d data]; [congruence |]. cbn [Chunker.is_nil] in *.
  destruct (prepare_context 0 (d :: data) EmptyString []) as [ctx srcs].
  cbn [fst snd] in *. unfold _call_llm in *. rewrite Hraise in *.
  cbn [fst snd] in *.
  rewrite (split1_without_marker _ _ Hmarker') in *.
  cbn [nth len length Z.of_nat Z.gtb Z.compare] in *.
  now subst srcs.
Qed.

(** *** The number of sources *)

(** The index search returns at most five positions when asked for five. *)
Definition at_most_five : Prop :=
  forall ix emb ds ixs row,
    index rag_pipeline = Some ix ->
    index_search ix emb 5 = Ok (ds, ixs) ->
    ixs !! 0%nat = Some row ->
    (length row <= 5)%nat.

Lemma retrieve_chunks_at_most_five (sub_q : string)
  (chunks : list (Retrieved Distance)) :
  at_most_five -> retrieve_chunks sub_q 5 = Ok chunks ->
  (length chunks <= 5)%nat.
Proof.
  intros Hfive H.
  apply StoreFacts.retrieve_chunks_inv in H
    as [-> | (m & ix & emb & ds & ixs & row & _ & Hix & _ & Hs & Hrow & Hloop)];
    [simpl; lia |].
  rewrite (StoreFacts.retrieve_loop_length _ _ _ _ _ _ Hloop).
  pose proof (filter_length_le (in_range (chunks_metadata rag_pipeline)) row).
  specialize (Hfive ix emb ds ixs row Hix Hs Hrow). lia.
Qed.

Lemma retrieve_all_length (sub_queries : list string) :
  at_most_five ->
  forall acc all, retrieve_all sub_queries acc = Ok all ->
  (length all <= length acc + 5 * length sub_queries)%nat.
Proof.
  intros Hfive. induction sub_queries as [|q qs IH]; intros acc all H;
    simpl in H.
  - injection H as <-. simpl. lia.
  - destruct (Store.retrieve_chunks encode_query index_search rag_pipeline q 5)
      as [chunks|] eqn:Eq; [| discriminate]. simpl in H.
    apply IH in H. rewrite length_app in H.
    pose proof (retrieve_chunks_at_most_five q chunks Hfive Eq).
    simpl. lia.
Qed.

Lemma first_occurrences_length (chunks : list (Retrieved Distance)) :
  forall seen, (length (first_occurrences seen chunks) <= length chunks)%nat.
Proof.
  induction chunks as [|c chunks IH]; intros seen; simpl; [lia |].
  destruct (existsb _ seen); simpl.
  - specialize (IH seen). lia.
  - specialize (IH (seen ++ [chunk_key c])%list). lia.
Qed.

(** X22.  With an index that returns at most five positions when asked
    for five, an answer has at most five sources for each sub-query. *)
Theorem sources_within_fan_out (query : string) (log log' : CallLog)
  (out : Output) :
  at_most_five ->
  answer_query query log = (Ok out, log') ->
  (length (sources out) <= 5 * length (sub_queries out))%nat.
Proof.
  intros Hfive. unfold Agent.answer_query.
  destruct (Agent.plan_sub_queries generate_content query log)
    as [subs log1].
  destruct (Agent.retrieve_all encode_query index_search rag_pipeline subs [])
    as [all|e] eqn:Eall; [| discriminate].
  pose proof (AgentFacts.synthesize_sources _ generate_content query
                (deduplicate all) subs log1) as Hsrc.
  destruct (Agent._synthesize_answer generate_content query (deduplicate all)
              subs log1) as [[[final_answer reasoning] srcs] log2].
  cbn [fst snd] in Hsrc. subst srcs.
  intros H. injection H as <- _. cbn [sources sub_queries].
  rewrite length_map, AgentFacts.deduplicate_first_occurrences.
  pose proof (first_occurrences_length all []).
  pose proof (retrieve_all_length subs Hfive [] all Eall). simpl in *. lia.
Qed.

End WithCapabilities.

Lemma answer_query_returns_witness :
  exists out,
    fst (Agent.answer_query Scenario.embed_any Scenario.flat_search
           Scenario.generate_content Scenario.pipeline "GOOGL revenue" [])
    = Ok out
    /\ sub_queries out = ["GOOGL revenue"].
Proof.
  destruct (answer_query_returns unit nat unit Z Scenario.embed_any
              Scenario.flat_search Scenario.generate_content Scenario.pipeline
              "GOOGL revenue" [])
    as (out & all & _ & Hrun & _ & _ & _ & Hsimple & _).
  exists out. split; [now rewrite Hrun |].
  apply Hsimple. reflexivity.
Defined.

Lemma decomposition_failure_sub_queries_witness :
  exists rest,
    fst (Agent.plan_sub_queries Cases.failing_generate_content
           "Compare GOOGL revenue and costs" [])
    = "LLM error: 429 quota exceeded" :: rest.
Proof.
  destruct (decomposition_failure_sub_queries Cases.failing_generate_content
              "Compare GOOGL revenue and costs"
              "429 quota exceeded, retry later" [] eq_refl eq_refl)
    as (first & rest & Hplan & Hfirst & _).
  exists rest. rewrite Hplan, Hfirst. reflexivity.
Defined.

Lemma synthesis_failure_surfaces_witness :
  fst (fst (fst (Agent._synthesize_answer Cases.failing_generate_content
                   "GOOGL revenue" [Cases.retrieved_0007] ["GOOGL revenue"]
                   [])))
  = "LLM error: 429 quota exceeded, retry later".
Proof.
  rewrite (synthesis_failure_surfaces Z Cases.failing_generate_content
             "GOOGL revenue" "429 quota exceeded, retry later"
             [Cases.retrieved_0007] ["GOOGL revenue"] []);
    [reflexivity | discriminate | reflexivity | reflexivity].
Defined.

Lemma sources_within_fan_out_witness :
  exists out log',
    Agent.answer_query Scenario.embed_any Scenario.flat_search
      Scenario.generate_content Scenario.pipeline "GOOGL revenue" []
    = (Ok out, log')
    /\ (length (sources out) <= 5 * length (sub_queries out))%nat.
Proof.
  destruct (Agent.answer_query Scenario.embed_any Scenario.flat_search
              Scenario.generate_content Scenario.pipeline "GOOGL revenue" [])
    as [[out | e] log'] eqn:Erun.
  - exists out, log'. split; [reflexivity |].
    apply (sources_within_fan_out unit nat unit Z Scenario.embed_any
             Scenario.flat_search Scenario.generate_content Scenario.pipeline
             "GOOGL revenue" [] log' out); [| exact Erun].
    intros ix emb ds ixs row Hix Hsearch Hrow.
    injection Hix as <-. injection Hsearch as _ <-.
    injection Hrow as <-. simpl. lia.
  - vm_compute in Erun. discriminate Erun.
Defined.

End AgentMore.

(** ** The challenge run *)

Module MainFacts.
Import Py Store Agent Main Spec Shape.

Lemma decomposition_calls_app (log1 log2 : CallLog) :
  decomposition_calls (log1 ++ log2)%list
  = (decomposition_calls log1 + decomposition_calls log2)%nat.
Proof.
  unfold decomposition_calls. now rewrite List.filter_app, length_app.
Qed.

Lemma key_truthy (env : option string) :
  Chunker.str_truthy (GOOGLE_API_KEY env) = false <-> env = Some EmptyString.
Proof.
  destruct env as [[|c key]|]; simpl; split; intros H;
    try reflexivity; try discriminate H.
Qed.

Section WithCapabilities.

Variables Model Index Embedding Embeddings Distance FileData : Type.
Variable load_model : exc Model.
Variable encode_query : Model -> string -> exc Embedding.
Variable encode_texts : Model -> list string -> exc Embeddings.
Variable index_search :
  Index -> Embedding -> Z -> exc (list (list Distance) * list (list Z)).
Variable build_flat_index : Embeddings -> exc Index.
Variable read_index : FileData -> exc Index.
Variable write_index : Index -> exc FileData.
Variable json_load : FileData -> exc (list Chunk).
Variable generate_content : string -> Temperature -> exc string.
Variable json_dump : list Output -> exc unit.

Local Abbreviation load_or_create_index :=
  (Store.load_or_create_index encode_texts build_flat_index read_index
     write_index json_load).
Local Abbreviation answer_query :=
  (Agent.answer_query encode_query index_search generate_content).
Local Abbreviation run_queries :=
  (Main.run_queries encode_query index_search generate_content).
Local Abbreviation run_challenge :=
  (Main.run_challenge load_model encode_query encode_texts index_search
     build_flat_index read_index write_index json_load generate_content
     json_dump).

(** What one answered query adds to the results and to the log. *)
Lemma answer_query_step (agent : RAGPipeline Model Index) (query : string)
  (log : CallLog) :
  exists out log',
    answer_query agent query log = (Ok out, log')
    /\ Agent.query out = query
    /\ sub_queries out <> []
    /\ (is_complex query = false -> sub_queries out = [query])
    /\ decomposition_calls log'
       = (decomposition_calls log + (if is_complex query then 1 else 0))%nat
    /\ (length log' <= length log + (if is_complex query then 1 else 0) + 1)%nat.
Proof.
  pose proof (AgentMore.plan_sub_queries_nonempty generate_content query log)
    as Hne.
  pose proof (AgentFacts.plan_sub_queries_log generate_content query log)
    as Hlog.
  assert (is_complex query = false ->
          fst (Agent.plan_sub_queries generate_content query log) = [query])
    as Hsimple.
  { intros H. unfold Agent.plan_sub_queries. now rewrite H. }
  unfold Agent.answer_query.
  destruct (Agent.plan_sub_queries generate_content query log)
    as [subs log1].
  cbn [fst snd] in *.
  destruct (AgentMore.retrieve_all_returns _ _ _ _ encode_query index_search
              agent subs []) as [all Hall].
  rewrite Hall.
  pose proof (AgentMore.synthesize_log _ generate_content query
                (deduplicate all) subs log1) as Hcalls.
  destruct (Agent._synthesize_answer generate_content query (deduplicate all)
              subs log1) as [[[final_answer reasoning] srcs] log2].
  cbn [fst snd] in *. subst log2 log1.
  eexists _, _. split; [reflexivity |]. cbn [Agent.query sub_queries].
  split; [reflexivity |]. split; [exact Hne |]. split; [exact Hsimple |].
  rewrite !decomposition_calls_app, !length_app.
  unfold AgentMore.synthesis_call.
  destruct (Chunker.is_nil (deduplicate all)), (is_complex query);
    split; cbn [length decomposition_calls List.filter snd]; lia.
Qed.

Lemma run_queries_spec (agent : RAGPipeline Model Index)
  (queries : list string) :
  forall all_results log,
  exists outs log',
    run_queries agent queries all_results log
    = (Ok (all_results ++ outs)%list, log')
    /\ map Agent.query outs = queries
    /\ Forall (fun out =>
                 sub_queries out <> []
                 /\ (is_complex (Agent.query out) = false ->
                     sub_queries out = [Agent.query out])) outs
    /\ decomposition_calls log'
       = (decomposition_calls log
          + length (List.filter is_complex queries))%nat
    /\ (length log'
        <= length log + length (List.filter is_complex queries)
           + length queries)%nat.
Proof.
  induction queries as [|query rest IH]; intros acc log.
  - exists [], log. cbn [Main.run_queries]. rewrite app_nil_r.
    repeat split; cbn; try constructor; lia.
  - destruct (answer_query_step agent query log)
      as (out & log1 & Hrun & Hq & Hne & Hsimple & Hcalls & Hlen).
    cbn [Main.run_queries]. rewrite Hrun.
    destruct (IH (acc ++ [out])%list log1)
      as (outs & log' & Hrest & Hqs & Hall & Hcalls' & Hlen').
    exists (out :: outs), log'. rewrite Hrest, <- app_assoc.
    split; [reflexivity |]. split; [cbn [map]; now rewrite Hq, Hqs |].
    split; [constructor; [rewrite Hq; now split | exact Hall] |].
    cbn [List.filter]. destruct (is_complex query); cbn [length]; lia.
Qed.

(** X23.  [run_challenge] never raises and ends in one of three ways.
    It stops before any call of the language model when the index can be
    neither loaded nor built, and when the API key is the empty string,
    which needs the environment variable set to it.  Otherwise it answers
    the seven test queries in order, the first three with themselves as
    only sub-query, makes exactly four decomposition calls and at most
    eleven calls in all, and reports whether the results file was
    written. *)
Theorem run_challenge_outcome (env : option string) (disk disk1 : Disk FileData)
  (loaded : bool) (rag_pipeline : RAGPipeline Model Index) :
  load_or_create_index (new_pipeline load_model) disk
  = (loaded, rag_pipeline, disk1) ->
  exists outcome log,
    run_challenge env disk = (Ok outcome, log, disk1)
    /\ match outcome with
       | IndexFailed => loaded = false /\ log = []
       | AgentFailed => loaded = true /\ env = Some EmptyString /\ log = []
       | Results all_results saved =>
           loaded = true
           /\ env <> Some EmptyString
           /\ map Agent.query all_results = test_queries
           /\ Forall (fun out => sub_queries out <> []) all_results
           /\ map sub_queries (firstn 3 all_results)
              = map (fun query => [query]) (firstn 3 test_queries)
           /\ decomposition_calls log = 4%nat
           /\ (length log <= 11)%nat
           /\ (saved = true <-> exists u, json_dump all_results = Ok u)
       end.
Proof.
  intros Hload. unfold Main.run_challenge. rewrite Hload.
  destruct loaded; cbn [negb]; [| now exists IndexFailed, []].
  unfold new_agent.
  destruct (Chunker.str_truthy (GOOGLE_API_KEY env)) eqn:Ekey; cbn [negb].
  2:{ exists AgentFailed, []. apply key_truthy in Ekey. now repeat split. }
  destruct (run_queries_spec rag_pipeline test_queries [] [])
    as (outs & log & Hrun & Hqs & Hall & Hcalls & Hlen).
  rewrite Hrun. cbn [app].
  eexists (Results outs _), log. split; [reflexivity |].
  split; [reflexivity |].
  split; [intros Henv; apply key_truthy in Henv; congruence |].
  split; [exact Hqs |].
  split; [eapply List.Forall_impl; [| exact Hall]; now intros out [H _] |].
  split.
  { destruct outs as [|o1 [|o2 [|o3 outs]]]; try discriminate Hqs.
    injection Hqs as H1 H2 H3 _.
    apply List.Forall_cons_iff in Hall as [[_ S1] Hall].
    apply List.Forall_cons_iff in Hall as [[_ S2] Hall].
    apply List.Forall_cons_iff in Hall as [[_ S3] _].
    cbn [firstn map test_queries].
    rewrite S1, S2, S3, H1, H2, H3; try reflexivity;
      [rewrite H3 | rewrite H2 | rewrite H1]; reflexivity. }
  split; [rewrite Hcalls; reflexivity |].
  split; [etransitivity; [exact Hlen |]; vm_compute; lia |].
  destruct (json_dump outs) as [u|e]; split; intros H;
    [now exists u | reflexivity | discriminate H | destruct H as [u H]; discriminate H].
Qed.

(** The fixed output of a query for which nothing is retrieved. *)
Lemma answer_query_nothing (agent : RAGPipeline Model Index) (query : string)
  (log : CallLog) :
  (forall sub_q k,
     Store.retrieve_chunks encode_query index_search agent sub_q k = Ok []) ->
  exists out,
    answer_query agent query log
    = (Ok out,
       (log ++ (if is_complex query
                then [(decomposition_prompt query, temperature_0_0)]
                else []))%list)
    /\ Agent.query out = query
    /\ answer out = "Could not find relevant information to answer the query."
    /\ sources out = [].
Proof.
  intros Hnone.
  rewrite <- (AgentFacts.plan_sub_queries_log generate_content query log).
  unfold Agent.answer_query.
  destruct (Agent.plan_sub_queries generate_content query log)
    as [subs log1].
  rewrite (AgentFacts.retrieve_all_nothing _ _ _ _ encode_query index_search
             agent subs (fun sub_q _ => Hnone sub_q 5) []).
  eexists. split; [reflexivity |]. now repeat split.
Qed.

Lemma run_queries_nothing (agent : RAGPipeline Model Index)
  (queries : list string) :
  (forall sub_q k,
     Store.retrieve_chunks encode_query index_search agent sub_q k = Ok []) ->
  forall all_results log,
  exists outs,
    run_queries agent queries all_results log
    = (Ok (all_results ++ outs)%list,
       (log ++ map (fun query => (decomposition_prompt query, temperature_0_0))
                 (List.filter is_complex queries))%list)
    /\ map Agent.query outs = queries
    /\ Forall (fun out =>
                 answer out
                 = "Could not find relevant information to answer the query."
                 /\ sources out = []) outs.
Proof.
  intros Hnone. induction queries as [|query rest IH]; intros acc log.
  - exists []. cbn [Main.run_queries List.filter map]. rewrite !app_nil_r.
    now repeat split.
  - destruct (answer_query_nothing agent query log Hnone)
      as (out & Hrun & Hq & Hanswer & Hsources).
    cbn [Main.run_queries]. rewrite Hrun.
    destruct (IH (acc ++ [out])%list
                (log ++ (if is_complex query
                         then [(decomposition_prompt query, temperature_0_0)]
                         else []))%list)
      as (outs & Hrest & Hqs & Hall).
    exists (out :: outs). rewrite Hrest, <- !app_assoc.
    split.
    { cbn [List.filter]. destruct (is_complex query); reflexivity. }
    split; [cbn [map]; now rewrite Hq, Hqs |].
    constructor; [now split | exact Hall].
Qed.

(** X24.  When the embedding model cannot be loaded but both files are
    on disk and the index file is readable, [run_challenge] does not stop:
    it answers all seven test queries with the fixed answer for nothing
    found and no sources, and the only calls of the language model are the
    decomposition prompts of the four test queries with a comparison
    keyword. *)
Theorem run_challenge_without_model (env : option string)
  (disk : Disk FileData) (f_index f_meta : FileData) (ix : Index)
  (e : string) :
  load_model = Raise e ->
  FAISS_INDEX_PATH disk = Some f_index ->
  CHUNK_METADATA_PATH disk = Some f_meta ->
  read_index f_index = Ok ix ->
  env <> Some EmptyString ->
  exists all_results saved,
    run_challenge env disk
    = (Ok (Results all_results saved),
       map (fun query => (decomposition_prompt query, temperature_0_0))
         (skipn 3 test_queries),
       disk)
    /\ map Agent.query all_results = test_queries
    /\ Forall (fun out =>
                 answer out
                 = "Could not find relevant information to answer the query."
                 /\ sources out = []) all_results.
Proof.
  intros Hmodel Hi Hf Hr Henv.
  assert (exists rag_pipeline,
            load_or_create_index (new_pipeline load_model) disk
            = (true, rag_pipeline, disk)
            /\ model rag_pipeline = None) as (rag_pipeline & Hload & Hnone).
  { unfold Store.load_or_create_index, Store._load_chunks_metadata,
      new_pipeline, _initialize_model.
    rewrite Hmodel, Hi, Hf. cbn [exists_file andb]. rewrite Hr.
    destruct (json_load f_meta) as [metadata|e']; eexists;
      (split; [reflexivity | reflexivity]). }
  assert (forall sub_q k,
            Store.retrieve_chunks encode_query index_search rag_pipeline
              sub_q k = Ok []) as Hnothing.
  { intros sub_q k. unfold Store.retrieve_chunks. now rewrite Hnone. }
  unfold Main.run_challenge. rewrite Hload. cbn [negb].
  unfold new_agent.
  destruct (Chunker.str_truthy (GOOGLE_API_KEY env)) eqn:Ekey;
    [| now apply key_truthy in Ekey]. cbn [negb].
  destruct (run_queries_nothing rag_pipeline test_queries Hnothing [] [])
    as (outs & Hrun & Hqs & Hall).
  assert (List.filter is_complex test_queries = skipn 3 test_queries) as Hfour
    by (vm_compute; reflexivity).
  rewrite Hfour in Hrun. rewrite Hrun. cbn [app].
  eexists outs, _. split; [reflexivity |]. now split.
Qed.

End WithCapabilities.

Lemma run_challenge_outcome_witness :
  exists all_results saved log,
    Main.run_challenge Cases.load_model Scenario.embed_any
      Scenario.encode_texts Scenario.flat_search Scenario.build_flat_index
      Scenario.read_index Scenario.write_index Scenario.json_load
      Scenario.generate_content Cases.json_dump None Cases.disk_complete
    = (Ok (Results all_results saved), log, Cases.disk_complete)
    /\ decomposition_calls log = 4%nat.
Proof.
  destruct (run_challenge_outcome unit nat unit nat Z string Cases.load_model
              Scenario.embed_any Scenario.encode_texts Scenario.flat_search
              Scenario.build_flat_index Scenario.read_index
              Scenario.write_index Scenario.json_load
              Scenario.generate_content Cases.json_dump None
              Cases.disk_complete Cases.disk_complete true Scenario.pipeline
              eq_refl)
    as ([| | all_results saved] & log & Hrun & Hcase).
  - destruct Hcase as [Hcase _]. discriminate Hcase.
  - destruct Hcase as (_ & Hcase & _). discriminate Hcase.
  - exists all_results, saved, log. split; [exact Hrun |].
    now destruct Hcase as (_ & _ & _ & _ & _ & Hcalls & _).
Defined.

Lemma run_challenge_without_model_witness :
  exists all_results saved,
    Main.run_challenge Cases.load_model_fails Scenario.embed_any
      Scenario.encode_texts Scenario.flat_search Scenario.build_flat_index
      Scenario.read_index Scenario.write_index Scenario.json_load
      Scenario.generate_content Cases.json_dump None Cases.disk_complete
    = (Ok (Results all_results saved),
       map (fun query => (decomposition_prompt query, temperature_0_0))
         (skipn 3 test_queries),
       Cases.disk_complete)
    /\ map Agent.query all_results = test_queries.
Proof.
  destruct (run_challenge_without_model unit nat unit nat Z string
              Cases.load_model_fails Scenario.embed_any Scenario.encode_texts
              Scenario.flat_search Scenario.build_flat_index
              Scenario.read_index Scenario.write_index Scenario.json_load
              Scenario.generate_content Cases.json_dump None
              Cases.disk_complete "faiss:2" "chunks" 2%nat
              "No module named 'sentence_transformers'"
              eq_refl eq_refl eq_refl eq_refl)
    as (all_results & saved & Hrun & Hqs & _); [discriminate |].
  exists all_results, saved. split; [exact Hrun | exact Hqs].
Defined.

End MainFacts.
